(** * SpinWinny backend: content-security validator, CSV adapter, analytics store

    A shallow embedding of
    - [src/security/csv_validator.py]     (class [SecureCSVValidator]),
    - [src/services/csv_service.py]       (class [CSVService]),
    - [src/services/analytics_service.py] (class [AnalyticsService]),
    together with the parts of the Python standard library they call
    ([str] methods, [re], [html.unescape], [csv.reader], [json.dumps],
    [hashlib.sha256], [datetime]) and of SQLite (parameter binding, the
    statements of the service), and the properties of the three components.

    Conventions of the embedding.
    - A Python [str] is a Rocq [string]; the model covers ASCII text (every
      character below 128), where a character, a code point and a UTF-8 byte
      coincide, so [len(s)] and [len(s.encode('utf-8'))] are both [len s].
      Python integers are [Z].
    - An operation that can raise returns an [option] or a sum; a [try/except]
      of the source is the [match] on it.
    - A dictionary a method returns is a record whose optional fields are the
      keys that may be absent.
    - The SQLite database is a record of four tables, each a list of rows in
      insertion order; the methods of [AnalyticsService] take it and return
      it.  The database is taken to be available: a failing connection or
      disk is not modelled.
    - The clocks ([datetime.now()], [CURRENT_TIMESTAMP]) are arguments, read
      once per call. *)

From Stdlib Require Import ZArith List String Ascii Bool Lia Arith.
From Stdlib Require Import Permutation Sorted QArith.
From Stdlib Require Import Numbers.DecimalString.
Import ListNotations.

Close Scope Q_scope.
Open Scope string_scope.
Open Scope list_scope.
Open Scope nat_scope.

(* ================================================================== *)
(** * Python text primitives *)
(* ================================================================== *)

Module Text.

Definition code (c : ascii) : N := N_of_ascii c.

Definition chr (n : N) : ascii := ascii_of_N n.

Definition TAB : ascii := chr 9.
Definition LF : ascii := chr 10.
Definition CR : ascii := chr 13.
Definition QUOTE : ascii := chr 34.

Definition between (lo hi : N) (c : ascii) : bool :=
  (lo <=? code c)%N && (code c <=? hi)%N.

(** [str.isspace] on one ASCII character, also what [str.strip()] removes and
    what [\s] matches: 0x09-0x0D, 0x1C-0x1F and the blank. *)
Definition is_space (c : ascii) : bool :=
  between 9 13 c || between 28 32 c.

Definition is_upper (c : ascii) : bool := between 65 90 c.
Definition is_lower (c : ascii) : bool := between 97 122 c.
Definition is_digit (c : ascii) : bool := between 48 57 c.
Definition is_alpha (c : ascii) : bool := is_upper c || is_lower c.

(** [\w] on ASCII text. *)
Definition is_word (c : ascii) : bool :=
  is_alpha c || is_digit c || Ascii.eqb c "_".

Definition lower_char (c : ascii) : ascii :=
  if is_upper c then chr (code c + 32) else c.

(** [s.lower()] *)
Fixpoint lower (s : string) : string :=
  match s with
  | EmptyString => EmptyString
  | String c t => String (lower_char c) (lower t)
  end.

Fixpoint lstrip (s : string) : string :=
  match s with
  | EmptyString => EmptyString
  | String c t => if is_space c then lstrip t else s
  end.

Fixpoint rstrip (s : string) : string :=
  match s with
  | EmptyString => EmptyString
  | String c t =>
      match rstrip t with
      | EmptyString => if is_space c then EmptyString else String c EmptyString
      | t' => String c t'
      end
  end.

(** [s.strip()] *)
Definition strip (s : string) : string := rstrip (lstrip s).

(** [s.startswith(p)] *)
Definition startswith (s p : string) : bool := String.prefix p s.

(** [s.endswith(p)] *)
Fixpoint endswith (s p : string) : bool :=
  String.eqb s p ||
  match s with
  | EmptyString => false
  | String _ t => endswith t p
  end.

(** [sub in s] *)
Fixpoint contains (sub s : string) : bool :=
  String.prefix sub s ||
  match s with
  | EmptyString => false
  | String _ t => contains sub t
  end.

(** [c in s] for one character *)
Fixpoint has_char (c : ascii) (s : string) : bool :=
  match s with
  | EmptyString => false
  | String d t => Ascii.eqb c d || has_char c t
  end.

(** [not s]: the empty string is the only falsy one. *)
Definition is_empty (s : string) : bool :=
  match s with EmptyString => true | _ => false end.

(** [s[:n]] *)
Definition take (n : nat) (s : string) : string := String.substring 0 n s.

(** [len(s)] *)
Definition len (s : string) : Z := Z.of_nat (String.length s).

(** [len(xs)] for a list *)
Definition llen {A : Type} (xs : list A) : Z := Z.of_nat (List.length xs).

(** [enumerate(xs, start)] *)
Fixpoint enumerate {A : Type} (start : nat) (xs : list A) : list (nat * A) :=
  match xs with
  | [] => []
  | x :: t => (start, x) :: enumerate (S start) t
  end.

(** [c.isalnum()] on ASCII text *)
Definition is_alnum (c : ascii) : bool := is_alpha c || is_digit c.

(** [s.replace(a, b)] for single characters *)
Fixpoint replace_char (a b : ascii) (s : string) : string :=
  match s with
  | EmptyString => EmptyString
  | String c t => String (if Ascii.eqb c a then b else c) (replace_char a b t)
  end.

(** [''.join(c for c in s if p(c))] *)
Fixpoint filter_chars (p : ascii -> bool) (s : string) : string :=
  match s with
  | EmptyString => EmptyString
  | String c t => if p c then String c (filter_chars p t) else filter_chars p t
  end.

(** [str(n)] for an integer. *)
Definition str_of_Z (z : Z) : string := NilZero.string_of_int (Z.to_int z).

Definition str_of_nat (n : nat) : string := str_of_Z (Z.of_nat n).

(** Lexicographic comparison of two texts by code point: Python's [<=] on
    [str] and SQLite's BINARY collation. *)
Fixpoint leb (a b : string) : bool :=
  match a, b with
  | EmptyString, _ => true
  | String _ _, EmptyString => false
  | String x a', String y b' =>
      if (code x <? code y)%N then true
      else if (code y <? code x)%N then false
      else leb a' b'
  end.

End Text.

(* ================================================================== *)
(** * [hashlib.sha256(...).hexdigest()] (FIPS 180-4) *)
(* ================================================================== *)

Module Sha256.

Open Scope Z_scope.

Definition w32 (x : Z) : Z := Z.land x 0xffffffff.

Definition add32 (x y : Z) : Z := w32 (x + y).

Definition rotr (n x : Z) : Z :=
  Z.lor (Z.shiftr x n) (w32 (Z.shiftl x (32 - n))).

Definition Ch (x y z : Z) : Z :=
  Z.lxor (Z.land x y) (Z.land (Z.lxor x 0xffffffff) z).

Definition Maj (x y z : Z) : Z :=
  Z.lxor (Z.lxor (Z.land x y) (Z.land x z)) (Z.land y z).

Definition Sigma0 (x : Z) : Z := Z.lxor (Z.lxor (rotr 2 x) (rotr 13 x)) (rotr 22 x).
Definition Sigma1 (x : Z) : Z := Z.lxor (Z.lxor (rotr 6 x) (rotr 11 x)) (rotr 25 x).
Definition sigma0 (x : Z) : Z := Z.lxor (Z.lxor (rotr 7 x) (rotr 18 x)) (Z.shiftr x 3).
Definition sigma1 (x : Z) : Z := Z.lxor (Z.lxor (rotr 17 x) (rotr 19 x)) (Z.shiftr x 10).

(** The round constants (FIPS 180-4, 4.2.2), in decimal. *)
Definition K : list Z :=
  [1116352408; 1899447441; 3049323471; 3921009573; 961987163; 1508970993;
   2453635748; 2870763221; 3624381080; 310598401; 607225278; 1426881987;
   1925078388; 2162078206; 2614888103; 3248222580; 3835390401; 4022224774;
   264347078; 604807628; 770255983; 1249150122; 1555081692; 1996064986;
   2554220882; 2821834349; 2952996808; 3210313671; 3336571891; 3584528711;
   113926993; 338241895; 666307205; 773529912; 1294757372; 1396182291;
   1695183700; 1986661051; 2177026350; 2456956037; 2730485921; 2820302411;
   3259730800; 3345764771; 3516065817; 3600352804; 4094571909; 275423344;
   430227734; 506948616; 659060556; 883997877; 958139571; 1322822218;
   1537002063; 1747873779; 1955562222; 2024104815; 2227730452; 2361852424;
   2428436474; 2756734187; 3204031479; 3329325298].

(** The initial hash value (FIPS 180-4, 5.3.3), in decimal. *)
Definition H0 : list Z :=
  [1779033703; 3144134277; 1013904242; 2773480762;
   1359893119; 2600822924; 528734635; 1541459225].

Fixpoint bytes_of (s : string) : list Z :=
  match s with
  | EmptyString => []
  | String c t => Z.of_N (N_of_ascii c) :: bytes_of t
  end.

(** The big-endian bytes of [x], [n] of them. *)
Fixpoint be_bytes (n : nat) (x : Z) : list Z :=
  match n with
  | O => []
  | S m => Z.land (Z.shiftr x (8 * Z.of_nat m)) 0xff :: be_bytes m x
  end.

(** Padding: a 1 bit, zeros up to 56 modulo 64, the bit length on 8 bytes. *)
Definition pad (msg : list Z) : list Z :=
  let len := Z.of_nat (List.length msg) in
  let zeros := Z.to_nat ((55 - len) mod 64) in
  msg ++ 0x80 :: repeat 0 zeros ++ be_bytes 8 (8 * len).

Fixpoint words (fuel : nat) (bs : list Z) : list Z :=
  match fuel, bs with
  | S f, a :: b :: c :: d :: t =>
      Z.lor (Z.shiftl a 24) (Z.lor (Z.shiftl b 16) (Z.lor (Z.shiftl c 8) d))
      :: words f t
  | _, _ => []
  end.

(** The message schedule, most recent word first. *)
Fixpoint schedule (n : nat) (rw : list Z) : list Z :=
  match n with
  | O => rw
  | S m =>
      let w := add32 (add32 (sigma1 (nth 1 rw 0)) (nth 6 rw 0))
                     (add32 (sigma0 (nth 14 rw 0)) (nth 15 rw 0)) in
      schedule m (w :: rw)
  end.

Record regs : Type := mk_regs { ra : Z; rb : Z; rc : Z; rd : Z; re : Z; rf : Z; rg : Z; rh : Z }.

Definition round (r : regs) (kw : Z * Z) : regs :=
  let t1 := add32 (add32 (add32 (rh r) (Sigma1 (re r))) (Ch (re r) (rf r) (rg r)))
                  (add32 (fst kw) (snd kw)) in
  let t2 := add32 (Sigma0 (ra r)) (Maj (ra r) (rb r) (rc r)) in
  mk_regs (add32 t1 t2) (ra r) (rb r) (rc r) (add32 (rd r) t1) (re r) (rf r) (rg r).

Definition regs_of (h : list Z) : regs :=
  mk_regs (nth 0 h 0) (nth 1 h 0) (nth 2 h 0) (nth 3 h 0)
          (nth 4 h 0) (nth 5 h 0) (nth 6 h 0) (nth 7 h 0).

Definition list_of (r : regs) : list Z :=
  [ra r; rb r; rc r; rd r; re r; rf r; rg r; rh r].

Definition compress (h : list Z) (block : list Z) : list Z :=
  let w := rev (schedule 48 (rev (words 16 block))) in
  let r := fold_left round (combine K w) (regs_of h) in
  map (fun p => add32 (fst p) (snd p)) (combine h (list_of r)).

Fixpoint blocks (fuel : nat) (h : list Z) (bs : list Z) : list Z :=
  match fuel with
  | O => h
  | S f =>
      match bs with
      | [] => h
      | _ => blocks f (compress h (firstn 64 bs)) (skipn 64 bs)
      end
  end.

Definition digest (s : string) : list Z :=
  let p := pad (bytes_of s) in
  blocks (List.length p) H0 p.

Definition hex_digit (d : Z) : ascii :=
  if d <? 10 then ascii_of_N (Z.to_N (48 + d)) else ascii_of_N (Z.to_N (87 + d)).

Fixpoint hex_of (n : nat) (x : Z) : string :=
  match n with
  | O => EmptyString
  | S m => String (hex_digit (Z.land (Z.shiftr x (4 * Z.of_nat m)) 0xf)) (hex_of m x)
  end.

Definition hexdigest (s : string) : string :=
  String.concat "" (map (hex_of 8) (digest s)).

End Sha256.

(* ================================================================== *)
(** * Regular expressions ([re.search]) *)
(* ================================================================== *)

Module Regex.

Import Text.

(** The fragment of [re] syntax the validator's patterns use.  A character
    class is a predicate; [re.IGNORECASE] and [re.DOTALL] are folded into the
    classes when a pattern is built. *)
Inductive re : Type :=
| Void
| Eps
| Cls (p : ascii -> bool)
| Alt (a b : re)
| Cat (a b : re)
| Star (a : re).

Fixpoint nullable (r : re) : bool :=
  match r with
  | Void => false
  | Eps => true
  | Cls _ => false
  | Alt a b => nullable a || nullable b
  | Cat a b => nullable a && nullable b
  | Star _ => true
  end.

Definition alt (a b : re) : re :=
  match a, b with
  | Void, _ => b
  | _, Void => a
  | _, _ => Alt a b
  end.

Definition cat (a b : re) : re :=
  match a, b with
  | Void, _ => Void
  | _, Void => Void
  | Eps, _ => b
  | _, _ => Cat a b
  end.

(** Brzozowski derivative: the words [w] with [c :: w] in the language. *)
Fixpoint deriv (c : ascii) (r : re) : re :=
  match r with
  | Void => Void
  | Eps => Void
  | Cls p => if p c then Eps else Void
  | Alt a b => alt (deriv c a) (deriv c b)
  | Cat a b =>
      if nullable a then alt (cat (deriv c a) b) (deriv c b)
      else cat (deriv c a) b
  | Star a => cat (deriv c a) (Star a)
  end.

(** [re.match]: some prefix of [s] is in the language of [r]. *)
Fixpoint match_here (r : re) (s : string) : bool :=
  nullable r ||
  match s with
  | EmptyString => false
  | String c t => match_here (deriv c r) t
  end.

(** [re.search(...) is not None]: a match starts at some position of [s]. *)
Fixpoint search (r : re) (s : string) : bool :=
  match_here r s ||
  match s with
  | EmptyString => false
  | String _ t => search r t
  end.

(** One literal character under [re.IGNORECASE]. *)
Definition chr_ci (c : ascii) : re :=
  Cls (fun d => Ascii.eqb (lower_char d) (lower_char c)).

(** A literal under [re.IGNORECASE]. *)
Fixpoint lit_ci (s : string) : re :=
  match s with
  | EmptyString => Eps
  | String c t => Cat (chr_ci c) (lit_ci t)
  end.

(** [.] under [re.DOTALL] *)
Definition any : re := Cls (fun _ => true).

(** [[^c]] *)
Definition not_chr (c : ascii) : re := Cls (fun d => negb (Ascii.eqb d c)).

(** [r+] *)
Definition plus (r : re) : re := Cat r (Star r).

Fixpoint seq (rs : list re) : re :=
  match rs with
  | [] => Eps
  | r :: t => Cat r (seq t)
  end.

(** ['|'.join(patterns)] *)
Fixpoint alts (rs : list re) : re :=
  match rs with
  | [] => Void
  | [r] => r
  | r :: t => Alt r (alts t)
  end.

(** The length of the longest prefix of [s] in the language of [r], counted
    from [n] characters already consumed. *)
Fixpoint longest_from (r : re) (s : string) (n : nat) : option nat :=
  let here := if nullable r then Some n else None in
  match s with
  | EmptyString => here
  | String c t =>
      match longest_from (deriv c r) t (S n) with
      | Some m => Some m
      | None => here
      end
  end.

(** The end of the match [re.match] finds at the start of [s], for a pattern
    that has at most one match at a position (a literal, or a pattern whose
    repeated classes are each followed by a character outside them): the
    match is then the longest one. *)
Definition match_len (r : re) (s : string) : option nat := longest_from r s 0.

Fixpoint drop (n : nat) (s : string) : string :=
  match n, s with
  | S m, String _ t => drop m t
  | _, _ => s
  end.

(** [re.sub(pattern, repl, s)] for such a pattern that matches no empty text:
    the matches are taken from left to right, without overlap. *)
Fixpoint sub_fuel (fuel : nat) (r : re) (repl : string) (s : string) : string :=
  match fuel, s with
  | S f, String c t =>
      match match_len r s with
      | Some (S m) => (repl ++ sub_fuel f r repl (drop m t))%string
      | _ => String c (sub_fuel f r repl t)
      end
  | _, _ => s
  end.

Definition sub (r : re) (repl : string) (s : string) : string :=
  sub_fuel (String.length s) r repl s.

End Regex.

(* ================================================================== *)
(** * [html.unescape] *)
(* ================================================================== *)

Module Html.

Import Text.
Open Scope Z_scope.

(** The named references of [html.entities.html5] whose expansion is ASCII
    (54 of its 2231 names).  A reference that expands to a character above
    127 is outside the model and is left as written. *)
Definition html5 : list (string * string) :=
  let s (n : N) := String (chr n) EmptyString in
  [("AMP", "&"); ("AMP;", "&"); ("DiacriticalGrave;", "`"); ("GT", ">");
   ("GT;", ">"); ("Hat;", "^"); ("LT", "<"); ("LT;", "<");
   ("NewLine;", s 10%N); ("QUOT", s 34%N); ("QUOT;", s 34%N);
   ("Tab;", s 9%N); ("UnderBar;", "_"); ("VerticalLine;", "|");
   ("amp", "&"); ("amp;", "&"); ("apos;", "'"); ("ast;", "*");
   ("bsol;", "\"); ("colon;", ":"); ("comma;", ","); ("commat;", "@");
   ("dollar;", "$"); ("equals;", "="); ("excl;", "!"); ("fjlig;", "fj");
   ("grave;", "`"); ("gt", ">"); ("gt;", ">"); ("lbrace;", "{");
   ("lbrack;", "["); ("lcub;", "{"); ("lowbar;", "_"); ("lpar;", "(");
   ("lsqb;", "["); ("lt", "<"); ("lt;", "<"); ("midast;", "*");
   ("num;", "#"); ("percnt;", "%"); ("period;", "."); ("plus;", "+");
   ("quest;", "?"); ("quot", s 34%N); ("quot;", s 34%N); ("rbrace;", "}");
   ("rbrack;", "]"); ("rcub;", "}"); ("rpar;", ")"); ("rsqb;", "]");
   ("semi;", ";"); ("sol;", "/"); ("verbar;", "|"); ("vert;", "|")].

Fixpoint lookup (k : string) (t : list (string * string)) : option string :=
  match t with
  | [] => None
  | (k', v) :: t' => if String.eqb k k' then Some v else lookup k t'
  end.

(** The longest leading run of characters satisfying [p], at most [n] long,
    and what follows it. *)
Fixpoint span (n : nat) (p : ascii -> bool) (s : string) : string * string :=
  match n, s with
  | S m, String c t =>
      if p c then let (a, b) := span m p t in (String c a, b)
      else (EmptyString, s)
  | _, _ => (EmptyString, s)
  end.

Definition is_hex (c : ascii) : bool :=
  is_digit c || between 65 70 c || between 97 102 c.

Definition hex_val (c : ascii) : Z :=
  if is_digit c then Z.of_N (code c) - 48
  else if is_upper c then Z.of_N (code c) - 55
  else Z.of_N (code c) - 87.

(** [int(digits, base)] *)
Fixpoint int_of (base : Z) (acc : Z) (s : string) : Z :=
  match s with
  | EmptyString => acc
  | String c t => int_of base (base * acc + hex_val c) t
  end.

(** [_replace_charref], numeric branch: the replacement when it is ASCII. *)
Definition numeric_ref (num : Z) : option string :=
  if num =? 0 then None
  else if num =? 13 then Some (String CR EmptyString)
  else if 128 <=? num then None
  else if ((1 <=? num) && (num <=? 8)) || (num =? 11)
          || ((14 <=? num) && (num <=? 31)) || (num =? 127)
  then Some EmptyString
  else Some (String (chr (Z.to_N num)) EmptyString).

(** [_replace_charref], named branch: [s] itself, else the longest proper
    prefix of [s] of length [x], [len(s)-1 >= x >= 2], that is a name. *)
Fixpoint longest_name (x : nat) (s : string) : option string :=
  match x with
  | O | S O => None
  | S x' =>
      match lookup (take x s) html5 with
      | Some v => Some (v ++ String.substring x (String.length s - x) s)%string
      | None => longest_name x' s
      end
  end.

Definition named_ref (s : string) : option string :=
  match lookup s html5 with
  | Some v => Some v
  | None => longest_name (String.length s - 1) s
  end.

(** The class [[^\t\n\f <&#;]] of [_charref]. *)
Definition name_char (c : ascii) : bool :=
  negb (Ascii.eqb c TAB || Ascii.eqb c LF || Ascii.eqb c (chr 12)
        || Ascii.eqb c " " || Ascii.eqb c "<" || Ascii.eqb c "&"
        || Ascii.eqb c "#" || Ascii.eqb c ";").

(** An optional [;] *)
Definition semi (s : string) : string * string :=
  match s with
  | String ";" t => (";", t)
  | _ => (EmptyString, s)
  end.

(** One attempt of [_charref] just after an [&]. *)
Inductive attempt : Type :=
| NoMatch                              (* the pattern does not match here *)
| Replaced (text rest : string)        (* the replacement, and the input left *)
| Raised.                              (* [_replace_charref] raised *)

(** [int(digits)] raises [ValueError] on more than 4300 decimal digits. *)
Definition max_str_digits : Z := 4300.

(** The match of [_charref] just after an [&], replaced by
    [_replace_charref].  A reference whose replacement is not ASCII is kept
    as written. *)
Definition charref (s : string) : attempt :=
  let keep (body rest : string) (r : option string) :=
    match r with
    | Some v => Replaced v rest
    | None => Replaced (String "&" body) rest
    end in
  let numeric (mark : string) (base : Z) (p : ascii -> bool) (t : string) :=
    let (ds, r1) := span (String.length t) p t in
    match ds with
    | EmptyString => NoMatch
    | _ =>
        let (sc, r2) := semi r1 in
        if (base =? 10) && (max_str_digits <? len ds) then Raised
        else keep (String "#" (mark ++ ds ++ sc)%string) r2
                  (numeric_ref (int_of base 0 ds))
    end in
  let named :=
    let (nm, r1) := span 32 name_char s in
    match nm with
    | EmptyString => NoMatch
    | _ => let (sc, r2) := semi r1 in keep (nm ++ sc)%string r2 (named_ref (nm ++ sc)%string)
    end in
  match s with
  | String "#" t =>
      match numeric EmptyString 10 is_digit t with
      | NoMatch =>
          match t with
          | String x t' =>
              if Ascii.eqb x "x" || Ascii.eqb x "X"
              then numeric (String x EmptyString) 16 is_hex t'
              else NoMatch
          | EmptyString => NoMatch
          end
      | r => r
      end
  | _ => named
  end.

(** [_charref.sub(_replace_charref, s)]; [None] when it raises. *)
Fixpoint charref_sub (fuel : nat) (s : string) : option string :=
  match fuel, s with
  | S f, String c t =>
      if Ascii.eqb c "&" then
        match charref t with
        | Replaced v rest => option_map (String.append v) (charref_sub f rest)
        | NoMatch => option_map (String c) (charref_sub f t)
        | Raised => None
        end
      else option_map (String c) (charref_sub f t)
  | _, _ => Some s
  end.

(** [html.unescape(s)]; [None] when it raises. *)
Definition unescape (s : string) : option string :=
  if negb (has_char "&" s) then Some s else charref_sub (String.length s) s.

(** One character under [html.escape(s, quote=True)] *)
Definition escape_char (c : ascii) : string :=
  if Ascii.eqb c "&" then "&amp;"
  else if Ascii.eqb c "<" then "&lt;"
  else if Ascii.eqb c ">" then "&gt;"
  else if Ascii.eqb c QUOTE then "&quot;"
  else if Ascii.eqb c "'" then "&#x27;"
  else String c EmptyString.

(** [html.escape(s, quote=True)]: the five replacements, [&] first, amount
    to replacing each character of [s] once. *)
Fixpoint escape (s : string) : string :=
  match s with
  | EmptyString => EmptyString
  | String c t => (escape_char c ++ escape t)%string
  end.

End Html.

(* ================================================================== *)
(** * [csv.reader(io.StringIO(content))], default ("excel") dialect *)
(* ================================================================== *)

Module Csv.

Import Text.

(** The states of the reader's automaton that the default dialect reaches
    (it has no escape character). *)
Inductive pstate : Type :=
| START_RECORD
| START_FIELD
| IN_FIELD
| IN_QUOTED_FIELD
| QUOTE_IN_QUOTED_FIELD
| EAT_CRNL.

Inductive error : Type :=
| NewlineInUnquotedField
| FieldTooLarge.

Definition message (e : error) : string :=
  match e with
  | NewlineInUnquotedField =>
      "new-line character seen in unquoted field - do you need to open the file in universal-newline mode?"
  | FieldTooLarge => "field larger than field limit (131072)"
  end.

(** The reader while it assembles one record: the fields saved so far and
    the characters of the current field, both most recent first, and the
    length of the current field. *)
Record reader : Type := mk_reader {
  state : pstate;
  fields : list string;
  field : list ascii;
  field_len : N
}.

Definition field_limit : N := 131072.

Definition string_of_rev (cs : list ascii) : string :=
  fold_left (fun s c => String c s) cs EmptyString.

Definition parse_reset : reader := mk_reader START_RECORD [] [] 0.

Definition parse_add_char (r : reader) (c : ascii) (s : pstate) : error + reader :=
  if (field_limit <=? field_len r)%N then inl FieldTooLarge
  else inr (mk_reader s (fields r) (c :: field r) (field_len r + 1)).

Definition parse_save_field (r : reader) (s : pstate) : error + reader :=
  inr (mk_reader s (string_of_rev (field r) :: fields r) [] 0).

Definition goto (r : reader) (s : pstate) : error + reader :=
  inr (mk_reader s (fields r) (field r) (field_len r)).

Definition is_newline (c : ascii) : bool := Ascii.eqb c LF || Ascii.eqb c CR.

(** [parse_process_char]: one character of a line, or the end of the line
    ([None]). *)
Definition parse_process_char (r : reader) (i : option ascii) : error + reader :=
  let start_field :=
    match i with
    | None => parse_save_field r START_RECORD
    | Some c =>
        if is_newline c then parse_save_field r EAT_CRNL
        else if Ascii.eqb c QUOTE then goto r IN_QUOTED_FIELD
        else if Ascii.eqb c "," then parse_save_field r START_FIELD
        else parse_add_char r c IN_FIELD
    end in
  match state r with
  | START_RECORD =>
      match i with
      | None => goto r START_RECORD
      | Some c => if is_newline c then goto r EAT_CRNL else start_field
      end
  | START_FIELD => start_field
  | IN_FIELD =>
      match i with
      | None => parse_save_field r START_RECORD
      | Some c =>
          if is_newline c then parse_save_field r EAT_CRNL
          else if Ascii.eqb c "," then parse_save_field r START_FIELD
          else parse_add_char r c IN_FIELD
      end
  | IN_QUOTED_FIELD =>
      match i with
      | None => goto r IN_QUOTED_FIELD
      | Some c =>
          if Ascii.eqb c QUOTE then goto r QUOTE_IN_QUOTED_FIELD
          else parse_add_char r c IN_QUOTED_FIELD
      end
  | QUOTE_IN_QUOTED_FIELD =>
      match i with
      | None => parse_save_field r START_RECORD
      | Some c =>
          if Ascii.eqb c QUOTE then parse_add_char r c IN_QUOTED_FIELD
          else if Ascii.eqb c "," then parse_save_field r START_FIELD
          else if is_newline c then parse_save_field r EAT_CRNL
          else parse_add_char r c IN_FIELD
      end
  | EAT_CRNL =>
      match i with
      | None => goto r START_RECORD
      | Some c => if is_newline c then goto r EAT_CRNL else inl NewlineInUnquotedField
      end
  end.

(** The lines [io.StringIO] yields: each ends after its line feed. *)
Fixpoint lines_from (cur : list ascii) (s : string) : list string :=
  match s with
  | EmptyString =>
      match cur with
      | [] => []
      | _ => [string_of_rev cur]
      end
  | String c t =>
      if Ascii.eqb c LF then string_of_rev (c :: cur) :: lines_from [] t
      else lines_from (c :: cur) t
  end.

Definition lines (s : string) : list string := lines_from [] s.

Fixpoint feed_line (r : reader) (l : string) : error + reader :=
  match l with
  | EmptyString => parse_process_char r None
  | String c t =>
      match parse_process_char r (Some c) with
      | inl e => inl e
      | inr r' => feed_line r' t
      end
  end.

(** [Reader_iternext], repeated until the input ends: the records in order. *)
Fixpoint records (r : reader) (ls : list string) : error + list (list string) :=
  match ls with
  | [] =>
      let quoted := match state r with IN_QUOTED_FIELD => true | _ => false end in
      if negb (field_len r =? 0)%N || quoted
      then inr [rev (string_of_rev (field r) :: fields r)]
      else inr []
  | l :: ls' =>
      match feed_line r l with
      | inl e => inl e
      | inr r' =>
          match state r' with
          | START_RECORD =>
              match records parse_reset ls' with
              | inl e => inl e
              | inr rows => inr (rev (fields r') :: rows)
              end
          | _ => records r' ls'
          end
      end
  end.

(** [list(csv.reader(io.StringIO(content)))], or the [csv.Error] raised. *)
Definition read (content : string) : error + list (list string) :=
  records parse_reset (lines content).

(** ** [csv.writer], default dialect *)

(** A field is quoted when it holds the delimiter, the quote character or a
    character of the line terminator. *)
Definition needs_quotes (f : string) : bool :=
  has_char "," f || has_char QUOTE f || has_char CR f || has_char LF f.

(** The characters of a field, each quote character doubled. *)
Fixpoint double_quotes (f : string) : string :=
  match f with
  | EmptyString => EmptyString
  | String c t =>
      if Ascii.eqb c QUOTE then String c (String c (double_quotes t))
      else String c (double_quotes t)
  end.

Definition write_field (f : string) : string :=
  if needs_quotes f then String QUOTE (double_quotes f ++ String QUOTE "")
  else f.

(** [writer.writerow(fields)] for a row of two fields or more, or of one
    non-empty field: the text appended to the output. *)
Definition writerow (fields : list string) : string :=
  (String.concat "," (map write_field fields) ++ String CR (String LF ""))%string.

End Csv.

(* ================================================================== *)
(** * [src/security/csv_validator.py]: class [SecureCSVValidator] *)
(* ================================================================== *)

Module SecureCSVValidator.

Import Text.

(** Dangerous CSV formula prefixes that could execute code *)
Definition DANGEROUS_PREFIXES : list string :=
  ["="; "+"; "-"; "@"; String TAB "="; String CR "="; String LF "="].

(** Dangerous functions that should be blocked *)
Definition DANGEROUS_FUNCTIONS : list string :=
  ["cmd"; "exec"; "system"; "shell"; "powershell"; "bash";
   "eval"; "javascript"; "vbscript"; "macro"; "formula"].

(** XSS patterns to detect and block *)
Definition XSS_PATTERNS : list Regex.re :=
  let tag (open : string) :=
    Regex.seq [Regex.lit_ci open; Regex.Star (Regex.not_chr ">"); Regex.lit_ci ">"] in
  let element (open close : string) :=
    Regex.seq [tag open; Regex.Star Regex.any; Regex.lit_ci close] in
  [ element "<script" "</script>";                          (* <script[^>]*>.*?</script> *)
    Regex.lit_ci "javascript:";                             (* javascript: *)
    Regex.lit_ci "vbscript:";                               (* vbscript: *)
    Regex.seq [Regex.lit_ci "on"; Regex.plus (Regex.Cls is_word);
               Regex.Star (Regex.Cls is_space); Regex.lit_ci "="];  (* on\w+\s*= *)
    tag "<iframe";                                          (* <iframe[^>]*> *)
    tag "<object";                                          (* <object[^>]*> *)
    tag "<embed";                                           (* <embed[^>]*> *)
    tag "<link";                                            (* <link[^>]*> *)
    tag "<meta";                                            (* <meta[^>]*> *)
    element "<style" "</style>" ].                          (* <style[^>]*>.*?</style> *)

(** [self.xss_regex = re.compile('|'.join(XSS_PATTERNS), re.IGNORECASE | re.DOTALL)] *)
Definition xss_regex : Regex.re := Regex.alts XSS_PATTERNS.

(** [r'=\s*[A-Z]+\s*\('] under [re.IGNORECASE] *)
Definition formula_regex : Regex.re :=
  Regex.seq [Regex.lit_ci "="; Regex.Star (Regex.Cls is_space);
             Regex.plus (Regex.Cls is_alpha);
             Regex.Star (Regex.Cls is_space); Regex.lit_ci "("].

(** The validator object: its one attribute set by the constructor. *)
Record validator : Type := mk_validator { max_file_size : Z }.

(** [SecureCSVValidator()]: 10MB default *)
Definition default_validator : validator := mk_validator (10 * 1024 * 1024)%Z.

(** One entry of [security_issues]. *)
Record issue : Type := mk_issue {
  i_type : string;
  i_location : string;
  i_content : string;
  i_risk : string
}.

(** The dictionary the validation methods return; [None] is an absent key. *)
Record result : Type := mk_result {
  valid : bool;
  error : option string;
  security_risk : option string;
  security_issues : option (list issue);
  file_size : option Z;
  file_hash : option string;
  rows_processed : option Z;
  security_checks_passed : option bool
}.

(** [{'valid': False, 'error': e, 'security_risk': risk}] *)
Definition rejected (e risk : string) : result :=
  mk_result false (Some e) (Some risk) None None None None None.

(** [_check_csv_injection(cell)] *)
Definition _check_csv_injection (cell : string) : option string :=
  if is_empty cell then None
  else
    (* Check for dangerous prefixes *)
    match find (fun prefix => startswith (strip cell) prefix) DANGEROUS_PREFIXES with
    | Some prefix => Some ("dangerous_prefix_" ++ strip prefix)%string
    | None =>
        (* Check for dangerous functions *)
        let cell_lower := lower cell in
        match find (fun func => contains func cell_lower) DANGEROUS_FUNCTIONS with
        | Some func => Some ("dangerous_function_" ++ func)%string
        | None =>
            (* Check for formula patterns *)
            if Regex.search formula_regex cell then Some "formula_pattern"
            else None
        end
    end.

Definition suspicious_chars : list ascii :=
  ["<"; ">"; QUOTE; "'"; "&"; "%"; "\"]%char.

(** [sum(1 for char in suspicious_chars if char in cell)] *)
Definition suspicious_count (cell : string) : Z :=
  llen (filter (fun char => has_char char cell) suspicious_chars).

(** [_check_xss_payload(cell)] *)
Definition _check_xss_payload (cell : string) : option string :=
  if is_empty cell then None
  (* Check against XSS patterns *)
  else if Regex.search xss_regex cell then Some "xss_pattern_detected"
  else
    (* Check for encoded payloads *)
    let encoded :=
      match Html.unescape cell with
      | Some decoded => negb (String.eqb decoded cell) && Regex.search xss_regex decoded
      | None => false  (* except: pass *)
      end in
    if encoded then Some "encoded_xss_payload"
    (* Check for suspicious character sequences *)
    else if (3 <? suspicious_count cell)%Z then Some "suspicious_character_sequence"
    else None.

(** [_validate_csv_structure(content)] *)
Definition _validate_csv_structure (content : string) : result :=
  match Csv.read content with
  | inl e =>
      rejected ("Invalid CSV format: " ++ Csv.message e) "malformed_csv"
  | inr rows =>
      match rows with
      | [] => rejected "CSV file is empty" "empty_file"
      | _ =>
          (* Check for reasonable number of columns *)
          let max_columns := 50%Z in
          match find (fun ir => (max_columns <? llen (snd ir))%Z) (enumerate 0 rows) with
          | Some (i, row) =>
              rejected ("Row " ++ str_of_nat (i + 1) ++ " has too many columns ("
                        ++ str_of_Z (llen row) ++ "). Maximum allowed: "
                        ++ str_of_Z max_columns) "excessive_columns"
          | None =>
              (* Check for reasonable number of rows *)
              let max_rows := 10000%Z in
              if (max_rows <? llen rows)%Z then
                rejected ("File has too many rows (" ++ str_of_Z (llen rows)
                          ++ "). Maximum allowed: " ++ str_of_Z max_rows) "excessive_rows"
              else
                mk_result true None None None None None (Some (llen rows)) None
          end
      end
  end.

(** [cell[:50] + '...' if len(cell) > 50 else cell] *)
Definition sample (cell : string) : string :=
  if (50 <? len cell)%Z then (take 50 cell ++ "...")%string else cell.

Definition location (row_num col_num : nat) : string :=
  ("Row " ++ str_of_nat row_num ++ ", Column " ++ str_of_nat col_num)%string.

(** The body of the inner loop of [_validate_content_security]: the issues
    one cell appends, in order. *)
Definition cell_issues (row_num col_num : nat) (cell : string) : list issue :=
  if is_empty cell then []
  else
    (match _check_csv_injection cell with
     | Some injection_check =>
         [mk_issue "csv_injection" (location row_num col_num) (sample cell) injection_check]
     | None => []
     end)
    ++
    (match _check_xss_payload cell with
     | Some xss_check =>
         [mk_issue "xss_payload" (location row_num col_num) (sample cell) xss_check]
     | None => []
     end)
    ++
    (if (1000 <? len cell)%Z then
       [mk_issue "excessive_length" (location row_num col_num)
          ("Cell length: " ++ str_of_Z (len cell) ++ " characters")
          "potential_buffer_overflow"]
     else []).

Definition row_issues (row_num : nat) (row : list string) : list issue :=
  flat_map (fun jc => cell_issues row_num (fst jc) (snd jc)) (enumerate 1 row).

Definition all_issues (rows : list (list string)) : list issue :=
  flat_map (fun ir => row_issues (fst ir) (snd ir)) (enumerate 1 rows).

(** [_validate_content_security(content)] *)
Definition _validate_content_security (content : string) : result :=
  match Csv.read content with
  | inl e =>
      rejected ("Content security validation failed: " ++ Csv.message e) "validation_error"
  | inr rows =>
      match all_issues rows with
      | [] => mk_result true None None None None None None None
      | security_issues =>
          mk_result false
            (Some ("Security threats detected: "
                   ++ str_of_Z (llen security_issues) ++ " issues found")%string)
            (Some "content_threats") (Some security_issues) None None None None
      end
  end.

(** [validate_file_security(file_content, filename)].  On ASCII text
    [file_content.encode('utf-8')] cannot raise, so neither the
    [encoding_error] branch nor the outer [except] is taken. *)
Definition validate_file_security (self : validator) (file_content filename : string) : result :=
  (* File size check *)
  let file_size := len file_content in
  if (max_file_size self <? file_size)%Z then
    rejected ("File size (" ++ str_of_Z file_size ++ " bytes) exceeds maximum limit ("
              ++ str_of_Z (max_file_size self) ++ " bytes)") "file_size_exceeded"
  (* File extension check *)
  else if negb (is_empty filename) && negb (endswith (lower filename) ".csv") then
    rejected "Invalid file extension. Only .csv files are allowed." "invalid_extension"
  else
    (* CSV structure validation *)
    let csv_validation := _validate_csv_structure file_content in
    if negb (valid csv_validation) then csv_validation
    else
      (* Security content validation *)
      let security_validation := _validate_content_security file_content in
      if negb (valid security_validation) then security_validation
      else
        (* Generate file integrity hash *)
        let file_hash := Sha256.hexdigest file_content in
        mk_result true None None None (Some file_size) (Some file_hash)
          (Some (match rows_processed csv_validation with Some n => n | None => 0%Z end))
          (Some true).

(** The loop of [sanitize_cell_content] over the prefixes: one pass, each
    prefix tried once on the cell as the earlier ones left it. *)
Definition remove_prefixes (cell : string) : string :=
  fold_left
    (fun cell prefix =>
       if startswith (strip cell) prefix
       then strip (Regex.drop (String.length prefix) (strip cell))
       else cell)
    DANGEROUS_PREFIXES cell.

(** [r'on\w+\s*='] under [re.IGNORECASE] *)
Definition handler_regex : Regex.re :=
  Regex.seq [Regex.lit_ci "on"; Regex.plus (Regex.Cls is_word);
             Regex.Star (Regex.Cls is_space); Regex.lit_ci "="].

(** [sanitize_cell_content(cell)] *)
Definition sanitize_cell_content (cell : string) : string :=
  if is_empty cell then cell
  else
    (* Remove dangerous prefixes *)
    let cell := remove_prefixes cell in
    (* HTML encode to prevent XSS *)
    let cell := Html.escape cell in
    (* Remove or escape dangerous patterns *)
    let cell := Regex.sub (Regex.lit_ci "javascript:") "javascript_" cell in
    let cell := Regex.sub (Regex.lit_ci "vbscript:") "vbscript_" cell in
    let cell := Regex.sub handler_regex "" cell in
    (* Limit length *)
    if (1000 <? len cell)%Z then (take 1000 cell ++ "...")%string else cell.

(** What [process_secure_csv] returns: the validation result as it is, the
    dictionary of a processed file, or the dictionary of the [except]
    branch. *)
Inductive processed : Type :=
| Refused (validation_result : result)
| Processed (entries : list string) (total_rows valid_entries : Z) (file_hash : string)
| ProcessingError (message : string).

(** The search for the entry column among the sanitized headers. *)
Definition entry_column (headers : list string) : nat :=
  match find (fun ih => existsb (String.eqb (lower (snd ih))) ["entry"; "name"; "item"])
             (enumerate 0 headers) with
  | Some (i, _) => i
  | None => 0
  end.

(** [process_secure_csv(content, filename)] *)
Definition process_secure_csv (self : validator) (content filename : string) : processed :=
  (* Security validation *)
  let validation_result := validate_file_security self content filename in
  if negb (valid validation_result) then Refused validation_result
  else
    (* Parse and sanitize content *)
    match Csv.read content with
    | inl e => ProcessingError ("CSV processing failed: " ++ Csv.message e)
    | inr rows =>
        let sanitized_rows := map (map sanitize_cell_content) rows in
        (* Extract entries (assuming first column contains entry names) *)
        let headers := match sanitized_rows with h :: _ => h | [] => [] end in
        (* Find entry column *)
        let entry_column := entry_column headers in
        (* Extract entries *)
        let entries :=
          flat_map
            (fun row =>
               if (entry_column <? List.length row)
                  && negb (is_empty (strip (nth entry_column row "")))
               then [strip (nth entry_column row "")]
               else [])
            (tl sanitized_rows) in
        Processed entries (llen sanitized_rows - 1)%Z (llen entries)
          (match file_hash validation_result with Some h => h | None => "" end)
    end.

End SecureCSVValidator.

(* ================================================================== *)
(** * Python values, [json.dumps], SQLite parameters, [datetime] *)
(* ================================================================== *)

Module Py.

Import Text.

(** The values an event payload ([Dict[str, Any]]) is made of: the JSON
    values with integer numbers, and [VObj] for an object that is neither
    JSON-serializable nor a supported SQLite parameter (a [set], say).
    Floats are not modelled.  A dictionary lists its items in insertion
    order; its keys are texts and, in a well-formed value, distinct. *)
#[local] Unset Elimination Schemes.

Inductive value : Type :=
| VNone
| VBool (b : bool)
| VInt (z : Z)
| VStr (s : string)
| VList (elements : list value)
| VDict (items : list (string * value))
| VObj.

#[local] Set Elimination Schemes.

(** Induction on a value, with the property at hand for every element of a
    list and every item of a dictionary. *)
Fixpoint value_induction (P : value -> Prop)
  (HNone : P VNone) (HBool : forall b, P (VBool b)) (HInt : forall z, P (VInt z))
  (HStr : forall s, P (VStr s))
  (HList : forall l, Forall P l -> P (VList l))
  (HDict : forall d, Forall (fun kv => P (snd kv)) d -> P (VDict d))
  (HObj : P VObj) (v : value) {struct v} : P v :=
  let rec := value_induction P HNone HBool HInt HStr HList HDict HObj in
  match v with
  | VNone => HNone
  | VBool b => HBool b
  | VInt z => HInt z
  | VStr s => HStr s
  | VList l =>
      HList l
        ((fix elements (l : list value) : Forall P l :=
            match l with
            | [] => Forall_nil P
            | x :: t => Forall_cons x (rec x) (elements t)
            end) l)
  | VDict d =>
      HDict d
        ((fix items (d : list (string * value)) : Forall (fun kv => P (snd kv)) d :=
            match d with
            | [] => Forall_nil _
            | kv :: t => Forall_cons kv (rec (snd kv)) (items t)
            end) d)
  | VObj => HObj
  end.

Definition dict : Type := list (string * value).

(** [d.get(key, default)] *)
Fixpoint dict_get (d : dict) (key : string) (default : value) : value :=
  match d with
  | [] => default
  | (k, v) :: t => if String.eqb k key then v else dict_get t key default
  end.


(** [bool(v)] *)
Definition truthy (v : value) : bool :=
  match v with
  | VNone => false
  | VBool b => b
  | VInt z => negb (z =? 0)%Z
  | VStr s => negb (is_empty s)
  | VList l => match l with [] => false | _ => true end
  | VDict d => match d with [] => false | _ => true end
  | VObj => true
  end.

(** [bool(s)] for an optional text argument ([None] by default). *)
Definition truthy_opt (o : option string) : bool :=
  match o with
  | Some s => negb (is_empty s)
  | None => false
  end.

(** ** [json.dumps(v, sort_keys=True)] *)

(** Whether [json.dumps] accepts the value; it raises [TypeError] otherwise. *)
Fixpoint serializable (v : value) : bool :=
  match v with
  | VList l => forallb serializable l
  | VDict d => forallb (fun kv => serializable (snd kv)) d
  | VObj => false
  | _ => true
  end.

Definition hex_digit (d : N) : ascii :=
  if (d <? 10)%N then chr (48 + d) else chr (87 + d).

(** One character inside a JSON string, [ensure_ascii] being on. *)
Definition escape_char (c : ascii) : string :=
  let bs := "\"%char in
  if Ascii.eqb c QUOTE then String bs (String QUOTE "")
  else if Ascii.eqb c bs then String bs (String bs "")
  else if Ascii.eqb c LF then String bs "n"
  else if Ascii.eqb c CR then String bs "r"
  else if Ascii.eqb c TAB then String bs "t"
  else if Ascii.eqb c (chr 12) then String bs "f"
  else if Ascii.eqb c (chr 8) then String bs "b"
  else if between 32 126 c then String c ""
  else String bs (String "u" (String "0" (String "0"
         (String (hex_digit (code c / 16)) (String (hex_digit (code c mod 16)) ""))))).

Fixpoint escape (s : string) : string :=
  match s with
  | EmptyString => EmptyString
  | String c t => (escape_char c ++ escape t)%string
  end.

Definition json_string (s : string) : string :=
  String QUOTE (escape s ++ String QUOTE "").

(** Insertion of an encoded item by key, before the first greater key. *)
Fixpoint insert_item (kv : string * string) (l : list (string * string))
  : list (string * string) :=
  match l with
  | [] => [kv]
  | h :: t => if leb (fst kv) (fst h) then kv :: l else h :: insert_item kv t
  end.

(** [sorted(items)] for items with distinct keys *)
Definition sort_items (l : list (string * string)) : list (string * string) :=
  fold_right insert_item [] l.

(** The text [json.dumps] writes for a serializable value: items separated
    by [", "], keys by [": "], the keys of every dictionary in sorted order. *)
Fixpoint encode (v : value) : string :=
  match v with
  | VNone => "null"
  | VBool true => "true"
  | VBool false => "false"
  | VInt z => str_of_Z z
  | VStr s => json_string s
  | VList l => ("[" ++ String.concat ", " (map encode l) ++ "]")%string
  | VDict d =>
      let encoded := map (fun kv => (fst kv, encode (snd kv))) d in
      ("{" ++ String.concat ", "
                (map (fun kv => json_string (fst kv) ++ ": " ++ snd kv)%string
                     (sort_items encoded))
           ++ "}")%string
  | VObj => ""
  end.

(** [json.dumps(v, sort_keys=True)]; [None] when it raises. *)
Definition json_dumps (v : value) : option string :=
  if serializable v then Some (encode v) else None.

(** ** Parameters of an SQLite statement *)

Inductive sqlval : Type :=
| SNull
| SInt (z : Z)
| SText (s : string).

(** The value [sqlite3] binds for a Python argument; [None] when it raises
    (an unsupported type, or an integer outside 64 bits). *)
Definition bind (v : value) : option sqlval :=
  match v with
  | VNone => Some SNull
  | VBool b => Some (SInt (if b then 1 else 0))
  | VInt z =>
      if ((- 2 ^ 63 <=? z) && (z <? 2 ^ 63))%Z then Some (SInt z) else None
  | VStr s => Some (SText s)
  | VList _ | VDict _ | VObj => None
  end.

(** What a column of TEXT affinity stores for a bound value. *)
Definition text_affinity (v : sqlval) : sqlval :=
  match v with
  | SInt z => SText (str_of_Z z)
  | _ => v
  end.

(** ** [datetime] *)

(** A naive [datetime]: the proleptic Gregorian ordinal of its date (day 1
    is 0001-01-01) and its time of day. *)
Record datetime : Type := mk_datetime {
  ordinal : Z;
  hour : Z;
  minute : Z;
  second : Z;
  microsecond : Z
}.

Definition MAXORDINAL : Z := 3652059.

Definition DAYS_IN_MONTH : list Z := [0; 31; 28; 31; 30; 31; 30; 31; 31; 30; 31; 30; 31]%Z.
Definition DAYS_BEFORE_MONTH : list Z :=
  [0; 0; 31; 59; 90; 120; 151; 181; 212; 243; 273; 304; 334]%Z.

(** [_ord2ymd(n)]: the year, month and day of ordinal [n]. *)
Definition ord2ymd (n : Z) : Z * Z * Z :=
  let n := (n - 1)%Z in
  let n400 := (n / 146097)%Z in let n := (n mod 146097)%Z in
  let year := (n400 * 400 + 1)%Z in
  let n100 := (n / 36524)%Z in let n := (n mod 36524)%Z in
  let n4 := (n / 1461)%Z in let n := (n mod 1461)%Z in
  let n1 := (n / 365)%Z in let n := (n mod 365)%Z in
  let year := (year + n100 * 100 + n4 * 4 + n1)%Z in
  if ((n1 =? 4) || (n100 =? 4))%Z then ((year - 1)%Z, 12%Z, 31%Z)
  else
    let leapyear := ((n1 =? 3) && (negb (n4 =? 24) || (n100 =? 3)))%Z in
    let month := Z.shiftr (n + 50) 5 in
    let preceding :=
      (nth (Z.to_nat month) DAYS_BEFORE_MONTH 0
       + (if (2 <? month) && leapyear then 1 else 0))%Z in
    if (n <? preceding)%Z then
      let month := (month - 1)%Z in
      let preceding :=
        (preceding - (nth (Z.to_nat month) DAYS_IN_MONTH 0
                      + (if (month =? 2) && leapyear then 1 else 0)))%Z in
      (year, month, (n - preceding + 1)%Z)
    else (year, month, (n - preceding + 1)%Z).

(** [n] in decimal on at least [width] digits ([%0{width}d], [n >= 0]). *)
Definition zero_pad (width : nat) (n : Z) : string :=
  let s := str_of_Z n in
  (string_of_list_ascii (repeat "0"%char (width - String.length s)) ++ s)%string.

(** [dt.isoformat()] *)
Definition isoformat (dt : datetime) : string :=
  let '(y, m, d) := ord2ymd (ordinal dt) in
  (zero_pad 4 y ++ "-" ++ zero_pad 2 m ++ "-" ++ zero_pad 2 d ++ "T"
   ++ zero_pad 2 (hour dt) ++ ":" ++ zero_pad 2 (minute dt) ++ ":"
   ++ zero_pad 2 (second dt)
   ++ (if (microsecond dt =? 0)%Z then "" else "." ++ zero_pad 6 (microsecond dt)))%string.

(** [dt - timedelta(days=days)], or the message of the [OverflowError]. *)
Definition minus_days (dt : datetime) (days : Z) : string + datetime :=
  if (999999999 <? Z.abs days)%Z then
    inl ("days=" ++ str_of_Z days ++ "; must have magnitude <= 999999999")%string
  else
    let o := (ordinal dt - days)%Z in
    if ((1 <=? o) && (o <=? MAXORDINAL))%Z then
      inr (mk_datetime o (hour dt) (minute dt) (second dt) (microsecond dt))
    else inl "date value out of range".

(** [dt.strftime('%Y-%m-%d %H:%M:%S')] and [dt.strftime('%Y%m%d_%H%M%S')],
    for a year of four digits. *)
Definition strftime_plain (dt : datetime) : string :=
  let '(y, m, d) := ord2ymd (ordinal dt) in
  (zero_pad 4 y ++ "-" ++ zero_pad 2 m ++ "-" ++ zero_pad 2 d ++ " "
   ++ zero_pad 2 (hour dt) ++ ":" ++ zero_pad 2 (minute dt) ++ ":"
   ++ zero_pad 2 (second dt))%string.

Definition strftime_compact (dt : datetime) : string :=
  let '(y, m, d) := ord2ymd (ordinal dt) in
  (zero_pad 4 y ++ zero_pad 2 m ++ zero_pad 2 d ++ "_"
   ++ zero_pad 2 (hour dt) ++ zero_pad 2 (minute dt) ++ zero_pad 2 (second dt))%string.

End Py.

(* ================================================================== *)
(** * [src/services/csv_service.py]: class [CSVService] *)
(* ================================================================== *)

Module CSVService.

Import Text Py.

(** The service object: [max_file_size] is the attribute the validation
    reads (10MB in [__init__]). *)
Record service : Type := mk_service { max_file_size : Z }.

Definition csv_service : service := mk_service (10 * 1024 * 1024)%Z.

(** The dictionary [validate_csv_file] returns; [None] is an absent key. *)
Record result : Type := mk_result {
  valid : bool;
  error : option string;
  entries : option (list string);
  total_rows : option Z;
  valid_entries : option Z;
  errors : option (list string)
}.

(** [{'valid': False, 'error': e}] *)
Definition invalid (e : string) : result :=
  mk_result false (Some e) None None None None.

Definition required_headers : list string := ["entry"; "name"].

(** [x in xs] for a list of texts *)
Definition mem (x : string) (xs : list string) : bool :=
  existsb (String.eqb x) xs.

(** [not row or all(cell.strip() == '' for cell in row)] *)
Definition is_blank_row (row : list string) : bool :=
  match row with
  | [] => true
  | _ => forallb (fun cell => String.eqb (strip cell) "") row
  end.

(** The search for the entry name of a row: the stripped cell under the
    first header that is a required one and lies within the row, else the
    empty text. *)
Definition entry_name_of (headers : list string) (row : list string) : string :=
  match find (fun jh => mem (snd jh) required_headers && (fst jh <? List.length row))
             (enumerate 0 headers) with
  | Some (j, _) => strip (nth j row "")
  | None => ""
  end.

(** What one pass of the loop over the data rows does with row number [i]. *)
Inductive outcome : Type :=
| Skipped
| Warned (message : string)
| Accepted (entry_name : string).

Definition check_row (headers : list string) (i : nat) (row : list string) : outcome :=
  if is_blank_row row then Skipped  (* Skip empty rows *)
  else
    let entry_name := entry_name_of headers row in
    if is_empty entry_name then
      Warned ("Row " ++ str_of_nat i ++ ": Missing entry name")
    else if (100 <? len entry_name)%Z then
      Warned ("Row " ++ str_of_nat i ++ ": Entry name too long (max 100 characters)")
    else Accepted entry_name.

(** The loop [for i, row in enumerate(rows[1:], start=2)] from row number
    [start] on: the names appended to [valid_entries] and the messages
    appended to [errors], each in order. *)
Fixpoint scan (headers : list string) (start : nat) (rows : list (list string))
  : list string * list string :=
  match rows with
  | [] => ([], [])
  | row :: rest =>
      let (names, messages) := scan headers (S start) rest in
      match check_row headers start row with
      | Skipped => (names, messages)
      | Warned m => (names, m :: messages)
      | Accepted n => (n :: names, messages)
      end
  end.

(** [validate_csv_file(file_content)] *)
Definition validate_csv_file (self : service) (file_content : string) : result :=
  (* Check file size *)
  if (max_file_size self <? len file_content)%Z then
    invalid ("File size exceeds maximum limit of "
             ++ str_of_Z (max_file_size self / (1024 * 1024)) ++ "MB")
  else
    (* Parse CSV content *)
    match Csv.read file_content with
    | inl e => invalid ("CSV parsing error: " ++ Csv.message e)
    | inr [] => invalid "CSV file is empty"
    | inr ((row0 :: data_rows) as rows) =>
        (* Validate headers *)
        let headers := map (fun h => lower (strip h)) row0 in
        if negb (existsb (fun header => mem header headers) required_headers) then
          invalid ("CSV must contain at least one column named " ++ String QUOTE "entry"
                   ++ String QUOTE " or " ++ String QUOTE "name" ++ String QUOTE "")
        else
          (* Validate data rows *)
          let (valid_entries, errors) := scan headers 2 data_rows in
          match valid_entries with
          | [] => invalid "No valid entries found in CSV"
          | _ =>
              mk_result true None (Some valid_entries) (Some (llen rows - 1)%Z)
                (Some (llen valid_entries)) (Some errors)
          end
    end.

(** A Python [set] of texts, as the list of its elements without repeats
    (the order in which a set is listed is not specified by Python; the model
    lists it by first occurrence). *)
Definition set_of (xs : list string) : list string := nodup string_dec xs.

(** [a - b] on sets *)
Definition difference (a b : list string) : list string :=
  filter (fun x => negb (mem x b)) a.

(** [a & b] on sets *)
Definition intersection (a b : list string) : list string :=
  filter (fun x => mem x b) a.

(** The dictionary [validate_data_integrity] returns.  [integrity_score] is
    a Python float; the model keeps the exact quotient of the two integers. *)
Record integrity_check : Type := mk_integrity_check {
  passed : bool;
  original_count : Z;
  processed_count : Z;
  missing_entries : list string;
  extra_entries : list string;
  integrity_score : Q
}.

(** [validate_data_integrity(original_data, processed_data)] *)
Definition validate_data_integrity (original_data processed_data : list string)
  : integrity_check :=
  let original_set := set_of original_data in
  let processed_set := set_of processed_data in
  let missing_entries := difference original_set processed_set in
  let extra_entries := difference processed_set original_set in
  mk_integrity_check
    ((llen missing_entries =? 0)%Z && (llen extra_entries =? 0)%Z)
    (llen original_data)
    (llen processed_data)
    missing_entries
    extra_entries
    (match original_data with
     | [] => 1%Q
     | _ => (inject_Z (llen (intersection processed_set original_set))
             / inject_Z (llen original_set))%Q
     end).

(** The dictionary [import_csv] returns; [None] is an absent key. *)
Record import_result : Type := mk_import_result {
  success : bool;
  import_error : option string;
  import_entries : option (list string);
  imported_count : option Z;
  import_total_rows : option Z;
  warnings : option (list string)
}.

(** [import_csv(file_content)] *)
Definition import_csv (self : service) (file_content : string) : import_result :=
  let validation_result := validate_csv_file self file_content in
  if negb (valid validation_result) then
    mk_import_result false (error validation_result) None None None None
  else
    mk_import_result true None (entries validation_result)
      (valid_entries validation_result) (total_rows validation_result)
      (Some (match errors validation_result with Some e => e | None => [] end)).

(** [export_entries_csv(entries, wheel_title)] at clock [now] *)
Definition export_entries_csv (now : datetime) (entries : list string) (wheel_title : string)
  : string :=
  (* Write header *)
  let header := Csv.writerow ["Entry"; "Weight"; "Category"; "Active"; "Created"] in
  (* Write entries *)
  let timestamp := strftime_plain now in
  (header
   ++ String.concat ""
        (map (fun entry => Csv.writerow [entry; "1"; "general"; "TRUE"; timestamp])
             entries))%string.

(** The local [safe_title] of [get_export_filename]. *)
Definition safe_title (wheel_title : string) : string :=
  let kept :=
    filter_chars (fun c => is_alnum c || Ascii.eqb c " " || Ascii.eqb c "-"
                           || Ascii.eqb c "_") wheel_title in
  take 20 (replace_char " " "_" (strip kept)).

(** [get_export_filename(format_type, wheel_title, data_type)] at clock [now] *)
Definition get_export_filename (now : datetime)
  (format_type wheel_title data_type : string) : string :=
  let timestamp := strftime_compact now in
  let safe_title := safe_title wheel_title in
  if negb (is_empty safe_title) then
    ("spinwinny_" ++ data_type ++ "_" ++ safe_title ++ "_" ++ timestamp ++ "."
     ++ format_type)%string
  else
    ("spinwinny_" ++ data_type ++ "_" ++ timestamp ++ "." ++ format_type)%string.

End CSVService.

(* ================================================================== *)
(** * [src/services/analytics_service.py]: class [AnalyticsService] *)
(* ================================================================== *)

Module AnalyticsService.

Import Text Py.

(** ** The four tables

    A table is the list of its rows in insertion order.  The surrogate [id]
    of the three derived tables is read by no statement and is left out.  A
    column holds what was bound to it; SQLite's coercion of numeric-looking
    text stored in the INTEGER column [total_entries] is not modelled. *)

(** [analytics_events].  [event_data] is the payload; the column stores its
    JSON text [encode (VDict event_data)], from which [json.loads] gives the
    payload back. *)
Record event : Type := mk_event {
  ev_id : Z;
  ev_event_type : string;
  ev_event_data : dict;
  ev_wheel_id : option string;
  ev_user_id : option string;
  ev_session_id : option string;
  ev_timestamp : string;
  ev_ip_address : option string;
  ev_user_agent : option string;
  ev_data_hash : string;
  ev_created_at : string
}.

(** [wheel_metrics], unique on [wheel_id] *)
Record metrics_row : Type := mk_metrics_row {
  wm_wheel_id : string;
  wm_wheel_title : sqlval;
  wm_total_spins : Z;
  wm_unique_users : Z;
  wm_total_entries : sqlval;
  wm_created_at : string;
  wm_updated_at : string
}.

(** [winner_frequency], unique on [(wheel_id, winner_name)] *)
Record winner_row : Type := mk_winner_row {
  wf_wheel_id : string;
  wf_winner_name : string;
  wf_frequency_count : Z;
  wf_last_won : string;
  wf_created_at : string;
  wf_updated_at : string
}.

(** [user_engagement], unique on [(user_id, session_id)] *)
Record engagement_row : Type := mk_engagement_row {
  ue_user_id : string;
  ue_session_id : string;
  ue_first_visit : string;
  ue_last_visit : string;
  ue_total_spins : Z;
  ue_total_wheels_created : Z;
  ue_total_time_spent : Z;
  ue_engagement_score : Z;
  ue_created_at : string;
  ue_updated_at : string
}.

Record db : Type := mk_db {
  analytics_events : list event;
  wheel_metrics : list metrics_row;
  winner_frequency : list winner_row;
  user_engagement : list engagement_row
}.

(** The database after [_initialize_analytics_tables] on a new file. *)
Definition empty_db : db := mk_db [] [] [] [].

(** The option monad of a block of statements: [None] is a raised exception. *)
Definition obind {A B : Type} (x : option A) (k : A -> option B) : option B :=
  match x with
  | Some a => k a
  | None => None
  end.

Notation "x <- e ;; k" := (obind e (fun x => k))
  (at level 61, e at next level, right associativity).

Definition opt_eqb (o : option string) (s : string) : bool :=
  match o with
  | Some t => String.eqb t s
  | None => false
  end.

(** [WHERE wheel_id = ? AND event_type = 'wheel_spin'] *)
Definition is_spin_of (wheel_id : string) (e : event) : bool :=
  opt_eqb (ev_wheel_id e) wheel_id && String.eqb (ev_event_type e) "wheel_spin".

(** The non-null values of [user_id] in some rows, in order. *)
Fixpoint user_ids (es : list event) : list string :=
  match es with
  | [] => []
  | e :: t =>
      match ev_user_id e with
      | Some u => u :: user_ids t
      | None => user_ids t
      end
  end.

(** [SELECT COUNT(DISTINCT user_id) FROM analytics_events
     WHERE wheel_id = ? AND event_type = 'wheel_spin'] *)
Definition count_distinct_users (d : db) (wheel_id : string) : Z :=
  llen (nodup string_dec (user_ids (filter (is_spin_of wheel_id) (analytics_events d)))).

(** [SELECT ... FROM wheel_metrics WHERE wheel_id = ?] *)
Definition find_metrics (d : db) (wheel_id : string) : option metrics_row :=
  find (fun r => String.eqb (wm_wheel_id r) wheel_id) (wheel_metrics d).

(** [SELECT ... FROM winner_frequency WHERE wheel_id = ? AND winner_name = ?] *)
Definition find_winner (d : db) (wheel_id winner : string) : option winner_row :=
  find (fun r => String.eqb (wf_wheel_id r) wheel_id
                 && String.eqb (wf_winner_name r) winner)
       (winner_frequency d).

(** [SELECT ... FROM user_engagement WHERE user_id = ? AND session_id = ?] *)
Definition find_engagement (d : db) (user_id session_id : string) : option engagement_row :=
  find (fun r => String.eqb (ue_user_id r) user_id
                 && String.eqb (ue_session_id r) session_id)
       (user_engagement d).

(** [INSERT INTO analytics_events ...] *)
Definition insert_event (cur : string) (d : db)
  (event_type : string) (event_data : dict)
  (wheel_id user_id session_id : option string) (timestamp : string)
  (ip_address user_agent : option string) (data_hash : string) : db :=
  let row := mk_event (llen (analytics_events d) + 1) event_type event_data
               wheel_id user_id session_id timestamp ip_address user_agent
               data_hash cur in
  mk_db (analytics_events d ++ [row]) (wheel_metrics d) (winner_frequency d)
        (user_engagement d).

(** [INSERT OR REPLACE INTO wheel_metrics ...]: the values are computed on
    the tables as they are, then the row of [wheel_id], if any, is replaced. *)
Definition replace_metrics (cur : string) (d : db)
  (wheel_id : string) (wheel_title total_entries : sqlval) : db :=
  let total_spins :=
    (match find_metrics d wheel_id with
     | Some r => wm_total_spins r
     | None => 0
     end + 1)%Z in
  let unique_users := count_distinct_users d wheel_id in
  let row := mk_metrics_row wheel_id (text_affinity wheel_title) total_spins
               unique_users total_entries cur cur in
  mk_db (analytics_events d)
        (filter (fun r => negb (String.eqb (wm_wheel_id r) wheel_id)) (wheel_metrics d)
         ++ [row])
        (winner_frequency d) (user_engagement d).

(** The text a bound value becomes in a TEXT column. *)
Definition text_of (v : sqlval) : string :=
  match text_affinity v with
  | SText s => s
  | _ => ""
  end.

(** [INSERT OR REPLACE INTO winner_frequency ...] *)
Definition replace_winner (cur : string) (d : db) (wheel_id : string) (winner : sqlval) : db :=
  let winner_name := text_of winner in
  let frequency_count :=
    (match find_winner d wheel_id winner_name with
     | Some r => wf_frequency_count r
     | None => 0
     end + 1)%Z in
  let row := mk_winner_row wheel_id winner_name frequency_count cur cur cur in
  mk_db (analytics_events d) (wheel_metrics d)
        (filter (fun r => negb (String.eqb (wf_wheel_id r) wheel_id
                                && String.eqb (wf_winner_name r) winner_name))
                (winner_frequency d)
         ++ [row])
        (user_engagement d).

(** [INSERT OR REPLACE INTO user_engagement ...] *)
Definition replace_engagement (cur : string) (d : db)
  (user_id session_id event_type : string) : db :=
  let old := find_engagement d user_id session_id in
  let coalesce {A : Type} (f : engagement_row -> A) (default : A) : A :=
    match old with
    | Some r => f r
    | None => default
    end in
  let row :=
    mk_engagement_row user_id session_id
      (coalesce ue_first_visit cur)
      cur
      (coalesce ue_total_spins 0 + (if String.eqb event_type "wheel_spin" then 1 else 0))%Z
      (coalesce ue_total_wheels_created 0
       + (if String.eqb event_type "wheel_created" then 1 else 0))%Z
      0
      (coalesce ue_engagement_score 0 + 1)%Z
      cur cur in
  mk_db (analytics_events d) (wheel_metrics d) (winner_frequency d)
        (filter (fun r => negb (String.eqb (ue_user_id r) user_id
                                && String.eqb (ue_session_id r) session_id))
                (user_engagement d)
         ++ [row]).

Definition text_or_empty (o : option string) : string :=
  match o with
  | Some s => s
  | None => ""
  end.

(** The [try] block of [_update_metrics] up to [conn.commit()]: the database
    it would commit, or [None] when a statement raises. *)
Definition metrics_statements (cur : string) (d : db)
  (event_type : string) (event_data : dict)
  (wheel_id user_id session_id : option string) : option db :=
  d1 <- (if String.eqb event_type "wheel_spin" && truthy_opt wheel_id then
           let wheel_id := text_or_empty wheel_id in
           (* Update wheel metrics *)
           wheel_title <- bind (dict_get event_data "wheel_title" (VStr "")) ;;
           total_entries <- bind (dict_get event_data "total_entries" (VInt 0)) ;;
           let d' := replace_metrics cur d wheel_id wheel_title total_entries in
           (* Update winner frequency *)
           let winner := dict_get event_data "winner" VNone in
           if truthy winner then
             w <- bind winner ;;
             Some (replace_winner cur d' wheel_id w)
           else Some d'
         else Some d) ;;
  if truthy_opt user_id && truthy_opt session_id then
    (* Update user engagement *)
    Some (replace_engagement cur d1 (text_or_empty user_id) (text_or_empty session_id)
            event_type)
  else Some d1.

(** [_update_metrics(...)]: an exception is logged and swallowed, and the
    connection is dropped without a commit, so nothing of the block is kept. *)
Definition _update_metrics (cur : string) (d : db)
  (event_type : string) (event_data : dict)
  (wheel_id user_id session_id : option string) : db :=
  match metrics_statements cur d event_type event_data wheel_id user_id session_id with
  | Some d' => d'
  | None => d
  end.

(** [record_event(...)] at Python clock [now] and database clock [cur]
    ([CURRENT_TIMESTAMP]): the Boolean it returns and the database after it. *)
Definition record_event (now : datetime) (cur : string) (d : db)
  (event_type : string) (event_data : dict)
  (wheel_id user_id session_id ip_address user_agent : option string) : bool * db :=
  (* Generate timestamp and data hash for integrity *)
  let timestamp := isoformat now in
  match json_dumps (VDict event_data) with
  | None => (false, d)
  | Some event_data_json =>
      let data_hash :=
        Sha256.hexdigest (event_type ++ event_data_json ++ timestamp) in
      let d1 := insert_event cur d event_type event_data wheel_id user_id session_id
                  timestamp ip_address user_agent data_hash in
      (* Update related metrics *)
      (true, _update_metrics cur d1 event_type event_data wheel_id user_id session_id)
  end.

(** Insertion into a list kept in the order [le], after the elements that
    are not greater (a stable sort). *)
Fixpoint insert_by {A : Type} (le : A -> A -> bool) (x : A) (l : list A) : list A :=
  match l with
  | [] => [x]
  | h :: t => if le h x then h :: insert_by le x t else x :: l
  end.

(** [ORDER BY], rows that compare equal staying in table order. *)
Definition order_by {A : Type} (le : A -> A -> bool) (l : list A) : list A :=
  fold_left (fun acc x => insert_by le x acc) l [].

(** [DATE(timestamp)] of an ISO timestamp *)
Definition sql_date (timestamp : string) : string := take 10 timestamp.

(** One entry of [recent_spins]. *)
Record spin : Type := mk_spin {
  sp_timestamp : string;
  sp_winner : value;
  sp_spin_duration : value;
  sp_user_id : value
}.

(** The report of [get_wheel_analytics]. *)
Record report : Type := mk_report {
  r_wheel_id : string;
  r_total_spins : Z;
  r_unique_users : Z;
  r_total_entries : sqlval;
  r_created_at : string;
  r_updated_at : string;
  r_daily_activity : list (string * Z);
  r_winner_distribution : list (string * Z * string);
  r_recent_spins : list spin;
  r_analysis_period : string;
  r_generated_at : string
}.

(** What [get_wheel_analytics] returns: [{'error': message}] or the report. *)
Inductive analytics : Type :=
| Failure (message : string)
| Success (r : report).

(** [get_wheel_analytics(wheel_id, days)] at Python clock [now]: what it
    returns and the database after it. *)
Definition get_wheel_analytics (now : datetime) (d : db) (wheel_id : string) (days : Z)
  : analytics * db :=
  (* Date range *)
  let end_date := now in
  match minus_days end_date days with
  | inl e => (Failure e, d)
  | inr start_date =>
      (* Basic wheel metrics *)
      match find_metrics d wheel_id with
      | None => (Failure "Wheel not found", d)
      | Some wheel_metrics =>
          let spins := filter (is_spin_of wheel_id) (analytics_events d) in
          (* Spin activity over time *)
          let in_range :=
            filter (fun e => leb (isoformat start_date) (ev_timestamp e)
                             && leb (ev_timestamp e) (isoformat end_date)) spins in
          let dates := map (fun e => sql_date (ev_timestamp e)) in_range in
          let daily_activity :=
            map (fun date => (date, llen (filter (String.eqb date) dates)))
                (order_by leb (nodup string_dec dates)) in
          (* Winner frequency distribution *)
          let winner_distribution :=
            map (fun r => (wf_winner_name r, wf_frequency_count r, wf_last_won r))
                (firstn 20
                   (order_by (fun a b => (wf_frequency_count b <=? wf_frequency_count a)%Z)
                      (filter (fun r => String.eqb (wf_wheel_id r) wheel_id)
                              (winner_frequency d)))) in
          (* Recent spin results *)
          let recent_spins :=
            map (fun e =>
                   mk_spin (ev_timestamp e)
                     (dict_get (ev_event_data e) "winner" VNone)
                     (dict_get (ev_event_data e) "spin_duration" VNone)
                     (dict_get (ev_event_data e) "user_id" (VStr "Anonymous")))
                (firstn 50
                   (order_by (fun a b => leb (ev_timestamp b) (ev_timestamp a)) spins)) in
          (Success
             (mk_report wheel_id
                (wm_total_spins wheel_metrics) (wm_unique_users wheel_metrics)
                (wm_total_entries wheel_metrics)
                (wm_created_at wheel_metrics) (wm_updated_at wheel_metrics)
                daily_activity winner_distribution recent_spins
                (str_of_Z days ++ " days") (isoformat now)),
           d)
      end
  end.

(** [verify_data_integrity(data, expected_hash)] *)
Definition verify_data_integrity (data : dict) (expected_hash : string) : bool :=
  match json_dumps (VDict data) with
  | Some data_json =>
      let actual_hash := Sha256.hexdigest data_json in
      String.eqb actual_hash expected_hash
  | None => false
  end.

(** The non-null values of a nullable column in some rows, in order. *)
Fixpoint column (f : event -> option string) (es : list event) : list string :=
  match es with
  | [] => []
  | e :: t =>
      match f e with
      | Some x => x :: column f t
      | None => column f t
      end
  end.

(** [COUNT(DISTINCT column)] *)
Definition count_distinct (f : event -> option string) (es : list event) : Z :=
  llen (nodup string_dec (column f es)).

(** The report of [get_global_analytics]. *)
Record global_report : Type := mk_global_report {
  g_total_wheels : Z;
  g_total_spins : Z;
  g_unique_users : Z;
  g_unique_sessions : Z;
  g_daily_trends : list (string * Z * Z * Z);
  g_top_wheels : list (string * sqlval * Z * Z);
  g_engagement_distribution : list (string * Z);
  g_analysis_period : string;
  g_generated_at : string
}.

Inductive global_analytics : Type :=
| GlobalFailure (message : string)
| GlobalSuccess (r : global_report).

(** The [CASE] of the engagement query. *)
Definition engagement_level (r : engagement_row) : string :=
  if (50 <=? ue_total_spins r)%Z then "High"
  else if (10 <=? ue_total_spins r)%Z then "Medium"
  else "Low".

(** [SELECT CASE ... END AS engagement_level, COUNT( * ) FROM user_engagement
    GROUP BY engagement_level]: one row per level that has users, in the
    order of the levels' names. *)
Definition engagement_groups (rows : list engagement_row) : list (string * Z) :=
  flat_map
    (fun level =>
       match filter (fun r => String.eqb (engagement_level r) level) rows with
       | [] => []
       | members => [(level, llen members)]
       end)
    ["High"; "Low"; "Medium"].

(** [get_global_analytics(days)] at Python clock [now]: what it returns and
    the database after it. *)
Definition get_global_analytics (now : datetime) (d : db) (days : Z)
  : global_analytics * db :=
  (* Date range *)
  let end_date := now in
  match minus_days end_date days with
  | inl e => (GlobalFailure e, d)
  | inr start_date =>
      let spins :=
        filter (fun e => String.eqb (ev_event_type e) "wheel_spin"
                         && leb (isoformat start_date) (ev_timestamp e)
                         && leb (ev_timestamp e) (isoformat end_date))
               (analytics_events d) in
      (* Daily activity trends *)
      let dates := map (fun e => sql_date (ev_timestamp e)) spins in
      let daily_trends :=
        map (fun date =>
               let day := filter (fun e => String.eqb date (sql_date (ev_timestamp e)))
                                 spins in
               (date, llen day, count_distinct ev_wheel_id day,
                count_distinct ev_user_id day))
            (order_by leb (nodup string_dec dates)) in
      (* Top performing wheels *)
      let top_wheels :=
        map (fun r => (wm_wheel_id r, wm_wheel_title r, wm_total_spins r,
                       wm_unique_users r))
            (firstn 10
               (order_by (fun a b => (wm_total_spins b <=? wm_total_spins a)%Z)
                  (wheel_metrics d))) in
      (* User engagement distribution *)
      let engagement_distribution := engagement_groups (user_engagement d) in
      (GlobalSuccess
         (mk_global_report
            (count_distinct ev_wheel_id spins) (llen spins)
            (count_distinct ev_user_id spins) (count_distinct ev_session_id spins)
            daily_trends top_wheels engagement_distribution
            (str_of_Z days ++ " days") (isoformat now)),
       d)
  end.

(** A stored SQL value as the Python value [sqlite3] reads back. *)
Definition value_of_sql (v : sqlval) : value :=
  match v with
  | SNull => VNone
  | SInt z => VInt z
  | SText s => VStr s
  end.

(** The dictionary [get_wheel_analytics] returns, as a Python value. *)
Definition wheel_data (a : analytics) : dict :=
  match a with
  | Failure message => [("error", VStr message)]
  | Success r =>
      [("wheel_id", VStr (r_wheel_id r));
       ("metrics",
        VDict [("total_spins", VInt (r_total_spins r));
               ("unique_users", VInt (r_unique_users r));
               ("total_entries", value_of_sql (r_total_entries r));
               ("created_at", VStr (r_created_at r));
               ("updated_at", VStr (r_updated_at r))]);
       ("daily_activity",
        VList (map (fun x => VDict [("date", VStr (fst x)); ("spins", VInt (snd x))])
                   (r_daily_activity r)));
       ("winner_distribution",
        VList (map (fun x => VDict [("winner", VStr (fst (fst x)));
                                    ("count", VInt (snd (fst x)));
                                    ("last_won", VStr (snd x))])
                   (r_winner_distribution r)));
       ("recent_spins",
        VList (map (fun x => VDict [("timestamp", VStr (sp_timestamp x));
                                    ("winner", sp_winner x);
                                    ("spin_duration", sp_spin_duration x);
                                    ("user_id", sp_user_id x)])
                   (r_recent_spins r)));
       ("analysis_period", VStr (r_analysis_period r));
       ("generated_at", VStr (r_generated_at r))]
  end.

(** The dictionary [get_global_analytics] returns, as a Python value. *)
Definition global_data (a : global_analytics) : dict :=
  match a with
  | GlobalFailure message => [("error", VStr message)]
  | GlobalSuccess r =>
      [("global_metrics",
        VDict [("total_wheels", VInt (g_total_wheels r));
               ("total_spins", VInt (g_total_spins r));
               ("unique_users", VInt (g_unique_users r));
               ("unique_sessions", VInt (g_unique_sessions r))]);
       ("daily_trends",
        VList (map (fun x =>
                      match x with
                      | (date, spins, wheels, users) =>
                          VDict [("date", VStr date); ("total_spins", VInt spins);
                                 ("active_wheels", VInt wheels);
                                 ("active_users", VInt users)]
                      end)
                   (g_daily_trends r)));
       ("top_wheels",
        VList (map (fun x =>
                      match x with
                      | (wheel_id, title, spins, users) =>
                          VDict [("wheel_id", VStr wheel_id);
                                 ("title", value_of_sql title);
                                 ("total_spins", VInt spins);
                                 ("unique_users", VInt users)]
                      end)
                   (g_top_wheels r)));
       ("engagement_distribution",
        VDict (map (fun x => (fst x, VInt (snd x))) (g_engagement_distribution r)));
       ("analysis_period", VStr (g_analysis_period r));
       ("generated_at", VStr (g_generated_at r))]
  end.

(** What [export_analytics_data] returns: the export ([success] true) with
    its [data], [metadata] and [data_hash], or the dictionary of the
    [except] branch ([success] false). *)
Inductive export : Type :=
| Exported (data : dict) (format exported_at data_hash : string)
| ExportFailed.

(** [export_analytics_data(wheel_id, format_type, days)] at clock [now] *)
Definition export_analytics_data (now : datetime) (d : db)
  (wheel_id : option string) (format_type : string) (days : Z) : export :=
  let data :=
    if truthy_opt wheel_id
    then wheel_data (fst (get_wheel_analytics now d (text_or_empty wheel_id) days))
    else global_data (fst (get_global_analytics now d days)) in
  (* Add integrity information *)
  match json_dumps (VDict data) with
  | None => ExportFailed
  | Some data_json =>
      let data_hash := Sha256.hexdigest data_json in
      Exported data format_type (isoformat now) data_hash
  end.

End AnalyticsService.

(* ================================================================== *)
(** * Notions the properties are stated with

    None of these is part of the program: they name what a property speaks
    of (an occurrence, a reordering, the state before a call) or fix the
    inputs of an example. *)
(* ================================================================== *)

Module Notions.

Import Text Py SecureCSVValidator AnalyticsService.

(** ** Regular languages *)

(** The words a regular expression denotes. *)
Inductive matches : Regex.re -> string -> Prop :=
| matches_eps : matches Regex.Eps ""
| matches_cls (p : ascii -> bool) (c : ascii) :
    p c = true -> matches (Regex.Cls p) (String c "")
| matches_alt_l (a b : Regex.re) (w : string) :
    matches a w -> matches (Regex.Alt a b) w
| matches_alt_r (a b : Regex.re) (w : string) :
    matches b w -> matches (Regex.Alt a b) w
| matches_cat (a b : Regex.re) (w1 w2 : string) :
    matches a w1 -> matches b w2 -> matches (Regex.Cat a b) (w1 ++ w2)
| matches_star_nil (a : Regex.re) : matches (Regex.Star a) ""
| matches_star_app (a : Regex.re) (w1 w2 : string) :
    matches a w1 -> matches (Regex.Star a) w2 -> matches (Regex.Star a) (w1 ++ w2).

(** Some part of [s] is a word of [r]. *)
Definition occurs (r : Regex.re) (s : string) : Prop :=
  exists pre w post : string, s = (pre ++ w ++ post)%string /\ matches r w.

(** ** Cells *)

(** The text [sub] occurs in [cell], letter case apart. *)
Definition occurs_ci (sub cell : string) : Prop :=
  exists pre mid post : string,
    cell = (pre ++ mid ++ post)%string /\ lower mid = sub.

(** The characters of the suspicion heuristic, as a test on one character. *)
Definition is_suspicious (c : ascii) : bool :=
  existsb (Ascii.eqb c) suspicious_chars.

(** The number of positions of [cell] that hold one of the seven characters. *)
Definition suspicious_occurrences (cell : string) : Z :=
  llen (filter is_suspicious (list_ascii_of_string cell)).

(** The number of different characters among the seven that occur in [cell]. *)
Definition suspicious_kinds (cell : string) : Z :=
  llen (nodup ascii_dec (filter is_suspicious (list_ascii_of_string cell))).

(** A cell on which the three checks of the content pass find nothing. *)
Definition clean_cell (cell : string) : Prop :=
  _check_csv_injection cell = None /\ _check_xss_payload cell = None
  /\ (len cell <= 1000)%Z.

(** Every character of [s] satisfies [p]. *)
Fixpoint every (p : ascii -> bool) (s : string) : bool :=
  match s with
  | EmptyString => true
  | String c t => p c && every p t
  end.

(** The characters [html.escape(s, quote=True)] replaces besides [&]. *)
Definition markup_chars : list ascii := ["<"; ">"; QUOTE; "'"]%char.

(** The characters [get_export_filename] lets through from a title, the
    blank apart (it becomes an underscore). *)
Definition title_char (c : ascii) : bool :=
  is_alnum c || Ascii.eqb c "-" || Ascii.eqb c "_".

(** ** Payloads *)

(** Encoded items in key order. *)
Definition key_le (a b : string * string) : Prop := leb (fst a) (fst b) = true.

#[local] Unset Elimination Schemes.

(** Two values that differ only in the order of the keys of their
    dictionaries, at any depth. *)
Inductive reordered : value -> value -> Prop :=
| reordered_none : reordered VNone VNone
| reordered_bool (b : bool) : reordered (VBool b) (VBool b)
| reordered_int (z : Z) : reordered (VInt z) (VInt z)
| reordered_str (s : string) : reordered (VStr s) (VStr s)
| reordered_obj : reordered VObj VObj
| reordered_list (l1 l2 : list value) :
    Forall2 reordered l1 l2 -> reordered (VList l1) (VList l2)
| reordered_dict (d1 d2 d : dict) :
    Forall2 (fun kv1 kv2 => fst kv1 = fst kv2 /\ reordered (snd kv1) (snd kv2)) d1 d ->
    Permutation d d2 ->
    reordered (VDict d1) (VDict d2).

#[local] Set Elimination Schemes.

(** A well-formed value: the keys of every dictionary in it are distinct. *)
Fixpoint well_formed (v : value) : Prop :=
  match v with
  | VList l => fold_right (fun x acc => well_formed x /\ acc) True l
  | VDict d =>
      NoDup (map fst d)
      /\ fold_right (fun kv acc => well_formed (snd kv) /\ acc) True d
  | _ => True
  end.

(** ** The event store *)

(** A clock reading used in the examples: 2025-01-15T10:30:00. *)
Definition sample_now : datetime := mk_datetime 739266 10 30 0 0.

(** What the wheel branch of [metrics_statements] does to the database, when
    no statement of it raises. *)
Definition wheel_branch (cur : string) (d : db) (event_data : dict) (wheel_id : string)
  : option db :=
  wheel_title <- bind (dict_get event_data "wheel_title" (VStr "")) ;;
  total_entries <- bind (dict_get event_data "total_entries" (VInt 0)) ;;
  let d' := replace_metrics cur d wheel_id wheel_title total_entries in
  let winner := dict_get event_data "winner" VNone in
  if truthy winner then
    w <- bind winner ;; Some (replace_winner cur d' wheel_id w)
  else Some d'.

(** The database [record_event] hands to the metrics step: the one it was
    given, with the event appended. *)
Definition with_event (now : datetime) (cur : string) (d : db)
  (event_type : string) (event_data : dict)
  (wheel_id user_id session_id ip_address user_agent : option string) : db :=
  insert_event cur d event_type event_data wheel_id user_id session_id
    (isoformat now) ip_address user_agent
    (Sha256.hexdigest (event_type ++ encode (VDict event_data) ++ isoformat now)).

(** The non-null user ids of the spins of wheel [W] in the log, in order. *)
Definition spin_users (d : db) (W : string) : list string :=
  user_ids (filter (is_spin_of W) (analytics_events d)).

(** The [total_spins] stored for [W], 0 when it has no row. *)
Definition prior_spins (d : db) (W : string) : Z :=
  match find_metrics d W with
  | Some r => wm_total_spins r
  | None => 0%Z
  end.

Definition opt_list (o : option string) : list string :=
  match o with
  | Some u => [u]
  | None => []
  end.

(** The payload of the example of C1. *)
Definition alice_spin : dict := [("winner", VStr "Alice"); ("total_entries", VInt 5)].

(** [record_event('wheel_spin', {winner:'Alice', total_entries:5},
    wheel_id='w1', user_id=u)]: the database after the call. *)
Definition spin_w1 (now : datetime) (cur : string) (d : db) (u : string) : db :=
  snd (record_event now cur d "wheel_spin" alice_spin (Some "w1") (Some u)
         None None None).

(** ** The CSV reader, character by character *)

(** The characters of a text fed to the reader one by one, without an end
    of line. *)
Fixpoint feed_chars (r : Csv.reader) (s : string) : Csv.error + Csv.reader :=
  match s with
  | EmptyString => inr r
  | String c t =>
      match Csv.parse_process_char r (Some c) with
      | inl e => inl e
      | inr r' => feed_chars r' t
      end
  end.

(** What [Csv.records] does at the end of a line, [rest] being what it goes
    on with. *)
Definition line_end (r : Csv.reader)
  (rest : Csv.reader -> Csv.error + list (list string))
  : Csv.error + list (list string) :=
  match Csv.parse_process_char r None with
  | inl e => inl e
  | inr r' =>
      match Csv.state r' with
      | Csv.START_RECORD =>
          match rest Csv.parse_reset with
          | inl e => inl e
          | inr rows => inr (rev (Csv.fields r') :: rows)
          end
      | _ => rest r'
      end
  end.

(** The reader run over a text without splitting it into lines first: a
    line ends after each line feed, and at the end of the text when
    characters are [pending]. *)
Fixpoint stream (r : Csv.reader) (pending : bool) (s : string)
  : Csv.error + list (list string) :=
  match s with
  | EmptyString =>
      if pending then line_end r (fun r' => Csv.records r' [])
      else Csv.records r []
  | String c t =>
      match Csv.parse_process_char r (Some c) with
      | inl e => inl e
      | inr r1 =>
          if Ascii.eqb c LF then line_end r1 (fun r2 => stream r2 false t)
          else stream r1 true t
      end
  end.

(** The characters of a text, last first. *)
Definition rev_chars (s : string) : list ascii := rev (list_ascii_of_string s).

(** A [datetime] as Python builds it: a date of the years 1 to 9999 and a
    time of day. *)
Definition valid_datetime (dt : datetime) : Prop :=
  (1 <= ordinal dt <= MAXORDINAL)%Z /\ (0 <= hour dt <= 23)%Z /\
  (0 <= minute dt <= 59)%Z /\ (0 <= second dt <= 59)%Z.

(** A database the service can be in: the new one, or one that a call of
    [record_event] left. *)
Inductive reachable : db -> Prop :=
| reachable_empty : reachable empty_db
| reachable_record (now : datetime) (cur : string) (d : db)
    (event_type : string) (event_data : dict)
    (wheel_id user_id session_id ip_address user_agent : option string) :
    reachable d ->
    reachable (snd (record_event now cur d event_type event_data wheel_id user_id
                      session_id ip_address user_agent)).

(** The number of [wheel_spin] events of wheel [W] in the log. *)
Definition spin_count (d : db) (W : string) : Z :=
  llen (filter (is_spin_of W) (analytics_events d)).

(** The sum of a list of integers. *)
Definition total (l : list Z) : Z := fold_right Z.add 0%Z l.

(** The winner rows of wheel [W]. *)
Definition winners_of (W : string) (rows : list winner_row) : list winner_row :=
  filter (fun r => String.eqb (wf_wheel_id r) W) rows.

(** The sum of the [frequency_count]s of the winner rows of wheel [W]. *)
Definition winner_total (d : db) (W : string) : Z :=
  total (map wf_frequency_count (winners_of W (winner_frequency d))).

End Notions.

(* ================================================================== *)
(** * Properties *)
(* ================================================================== *)

(** ** Test vectors of the hash (FIPS 180-4, appendix B) *)

Example sha256_abc :
  Sha256.hexdigest "abc"
  = "ba7816bf8f01cfea414140de5dae2223b00361a396177a9cb410ff61f20015ad".
Proof. vm_compute. reflexivity. Qed.

Example sha256_empty :
  Sha256.hexdigest ""
  = "e3b0c44298fc1c149afbf4c8996fb92427ae41e4649b934ca495991b7852b855".
Proof. vm_compute. reflexivity. Qed.

Example sha256_two_blocks :
  Sha256.hexdigest "abcdbcdecdefdefgefghfghighijhijkijkljklmklmnlmnomnopnopq"
  = "248d6a61d20638b8e5c026930c3e6039a33ce45964ff2167f6ecedd419db06c1".
Proof. vm_compute. reflexivity. Qed.


(** ** Text primitives *)

Section TextFacts.

Import Text.

Lemma lower_app (a b : string) : lower (a ++ b) = (lower a ++ lower b)%string.
Proof.
  induction a as [|c a IH]; simpl; [reflexivity|].
  now rewrite IH.
Qed.

Lemma prefix_app (p s : string) : String.prefix p (p ++ s) = true.
Proof.
  induction p as [|c p IH]; simpl.
  - now destruct s.
  - destruct (ascii_dec c c) as [_|ne]; [exact IH | now elim ne].
Qed.

Lemma contains_prefix (sub s : string) :
  String.prefix sub s = true -> contains sub s = true.
Proof.
  intros H. destruct s; cbn [contains]; rewrite H; reflexivity.
Qed.

Lemma contains_app_r (sub a b : string) :
  contains sub b = true -> contains sub (a ++ b) = true.
Proof.
  intros H. induction a as [|c a IH]; simpl; [exact H|].
  rewrite IH. apply orb_true_r.
Qed.

(** [sub in pre + sub + post] *)
Lemma contains_middle (sub pre post : string) :
  contains sub (pre ++ sub ++ post) = true.
Proof.
  apply contains_app_r, contains_prefix, prefix_app.
Qed.

Lemma lstrip_head (s : string) (c : ascii) (t : string) :
  lstrip s = String c t -> is_space c = false.
Proof.
  induction s as [|d s IH]; simpl; [discriminate|].
  destruct (is_space d) eqn:E; [exact IH|].
  intros H. inversion H; subst. exact E.
Qed.

Lemma rstrip_head (s : string) (c : ascii) (t : string) :
  rstrip s = String c t -> exists t', s = String c t'.
Proof.
  destruct s as [|d s]; simpl; [discriminate|].
  destruct (rstrip s); [destruct (is_space d); [discriminate|]|];
    intros H; inversion H; subst; eauto.
Qed.

(** What [strip] returns never starts with white space. *)
Lemma strip_head (s : string) (c : ascii) (t : string) :
  strip s = String c t -> is_space c = false.
Proof.
  unfold strip. intros H.
  destruct (rstrip_head _ _ _ H) as [t' E].
  exact (lstrip_head _ _ _ E).
Qed.

Lemma startswith_space (s : string) (c : ascii) (p : string) :
  is_space c = true -> startswith (strip s) (String c p) = false.
Proof.
  intros Hc. unfold startswith.
  destruct (strip s) as [|d t] eqn:E; simpl; [reflexivity|].
  destruct (ascii_dec c d) as [->|]; [|reflexivity].
  rewrite (strip_head _ _ _ E) in Hc. discriminate.
Qed.

End TextFacts.

(** ** The content-security validator *)

Section ValidatorFacts.

Import Text SecureCSVValidator Notions.

(** The two detections of a script element: as written, and HTML-encoded
    (found on the decoded form). *)
Example check_xss_payload_script :
  _check_xss_payload "<script>alert(1)</script>" = Some "xss_pattern_detected".
Proof. reflexivity. Qed.

Example check_xss_payload_encoded_script :
  _check_xss_payload "&lt;script&gt;alert(1)&lt;/script&gt;"
  = Some "encoded_xss_payload".
Proof. reflexivity. Qed.

(** A keyword that comes before [eval] in the list wins over it. *)
Example check_csv_injection_keyword_order :
  _check_csv_injection "bash -c eval" = Some "dangerous_function_bash".
Proof. reflexivity. Qed.

(** An upload above the size limit is rejected before anything is parsed. *)
Lemma validate_file_security_size
  (self : validator) (file_content filename : string) :
  (max_file_size self < len file_content)%Z ->
  valid (validate_file_security self file_content filename) = false /\
  security_risk (validate_file_security self file_content filename)
  = Some "file_size_exceeded".
Proof.
  intros H. unfold validate_file_security.
  apply Z.ltb_lt in H. rewrite H. split; reflexivity.
Qed.

Lemma occurs_ci_contains (sub cell : string) :
  occurs_ci sub cell -> contains sub (lower cell) = true.
Proof.
  intros (pre & mid & post & -> & <-).
  rewrite !lower_app. apply contains_middle.
Qed.

Lemma occurs_ci_nonempty (sub cell : string) :
  occurs_ci sub cell -> sub <> EmptyString -> is_empty cell = false.
Proof.
  intros (pre & mid & post & -> & <-) Hne.
  destruct pre; [|reflexivity]. destruct mid; [now elim Hne | reflexivity].
Qed.

(** C4 (as the code has it).  The three cells [=1+1], [+CMD] and
    [@SUM(A1:A2)] are reported with a [dangerous_prefix_] tag.  A cell that
    contains [eval] in any letter case is reported as
    [dangerous_function_eval] when no earlier rule fires: the stripped cell
    starts with none of [=], [+], [-], [@], and the lowered cell contains
    none of the keywords listed before [eval]. *)
Theorem check_csv_injection_first_match :
  _check_csv_injection "=1+1" = Some "dangerous_prefix_=" /\
  _check_csv_injection "+CMD" = Some "dangerous_prefix_+" /\
  _check_csv_injection "@SUM(A1:A2)" = Some "dangerous_prefix_@" /\
  forall cell : string,
    occurs_ci "eval" cell ->
    (forall p, In p ["="; "+"; "-"; "@"] -> startswith (strip cell) p = false) ->
    (forall f, In f ["cmd"; "exec"; "system"; "shell"; "powershell"; "bash"] ->
               contains f (lower cell) = false) ->
    _check_csv_injection cell = Some "dangerous_function_eval".
Proof.
  repeat split; try reflexivity.
  intros cell Hev Hp Hf.
  unfold _check_csv_injection.
  rewrite (occurs_ci_nonempty _ _ Hev) by discriminate.
  unfold DANGEROUS_PREFIXES, DANGEROUS_FUNCTIONS. cbn [find].
  rewrite !Hp by (simpl; tauto).
  rewrite !startswith_space by reflexivity.
  rewrite !Hf by (simpl; tauto).
  now rewrite (occurs_ci_contains _ _ Hev).
Qed.

(** The amended rule fires on a cell with [EVAL] in capitals. *)
Lemma check_csv_injection_first_match_witness :
  occurs_ci "eval" "run EVAL now" /\
  _check_csv_injection "run EVAL now" = Some "dangerous_function_eval".
Proof.
  assert (H : occurs_ci "eval" "run EVAL now")
    by (exists "run ", "EVAL", " now"; split; reflexivity).
  split; [exact H|].
  apply (proj2 (proj2 (proj2 check_csv_injection_first_match)) _ H).
  - intros p [<-|[<-|[<-|[<-|[]]]]]; reflexivity.
  - intros f [<-|[<-|[<-|[<-|[<-|[<-|[]]]]]]]; reflexivity.
Defined.

(** C4 as stated fails: [=eval(1)] contains [eval], and the prefix rule,
    which comes first, reports it. *)
Lemma check_csv_injection_eval_counterexample :
  occurs_ci "eval" "=eval(1)" /\
  contains "eval" (lower "=eval(1)") = true /\
  _check_csv_injection "=eval(1)" = Some "dangerous_prefix_=".
Proof.
  split; [|split; reflexivity].
  exists "=", "eval", "(1)". split; reflexivity.
Qed.

Lemma has_char_In (c : ascii) (s : string) :
  has_char c s = true <-> In c (list_ascii_of_string s).
Proof.
  induction s as [|d s IH]; simpl; [split; [discriminate | tauto]|].
  rewrite orb_true_iff, IH, Ascii.eqb_eq. intuition congruence.
Qed.

Lemma is_suspicious_In (c : ascii) :
  is_suspicious c = true <-> In c suspicious_chars.
Proof.
  unfold is_suspicious. rewrite existsb_exists. split.
  - intros (d & Hd & E). apply Ascii.eqb_eq in E. now subst.
  - intros H. exists c. split; [exact H | apply Ascii.eqb_refl].
Qed.

Lemma suspicious_chars_NoDup : NoDup suspicious_chars.
Proof.
  unfold suspicious_chars.
  repeat (constructor; [simpl; intuition discriminate|]).
  constructor.
Qed.

(** The loop over the seven characters counts the different suspicious
    characters of the cell, not their occurrences. *)
Lemma suspicious_count_kinds (cell : string) :
  suspicious_count cell = suspicious_kinds cell.
Proof.
  unfold suspicious_count, suspicious_kinds, llen. f_equal.
  apply Permutation_length, NoDup_Permutation.
  - apply NoDup_filter, suspicious_chars_NoDup.
  - apply NoDup_nodup.
  - intros c. rewrite nodup_In, !filter_In, has_char_In, is_suspicious_In. tauto.
Qed.

Lemma suspicious_kinds_le_occurrences (cell : string) :
  (suspicious_kinds cell <= suspicious_occurrences cell)%Z.
Proof.
  unfold suspicious_kinds, suspicious_occurrences, llen.
  apply Nat2Z.inj_le, NoDup_incl_length; [apply NoDup_nodup|].
  intros c. now rewrite nodup_In.
Qed.

(** C2 (as the code has it).  For a cell that matches the XSS patterns
    neither as written nor after HTML-entity decoding, [_check_xss_payload]
    answers [suspicious_character_sequence] exactly when more than 3 of the
    seven characters (angle brackets, both quotes, ampersand, percent sign,
    backslash) each occur in the cell; in that case
    the cell has more than 3 occurrences of them as well. *)
Theorem check_xss_payload_suspicious_kinds (cell : string) :
  Regex.search xss_regex cell = false ->
  (forall decoded, Html.unescape cell = Some decoded ->
                   Regex.search xss_regex decoded = false) ->
  (_check_xss_payload cell = Some "suspicious_character_sequence"
   <-> (3 < suspicious_kinds cell)%Z)
  /\ (_check_xss_payload cell = Some "suspicious_character_sequence"
      -> (3 < suspicious_occurrences cell)%Z).
Proof.
  intros Hraw Hdec.
  assert (Hiff : _check_xss_payload cell = Some "suspicious_character_sequence"
                 <-> (3 < suspicious_kinds cell)%Z).
  { unfold _check_xss_payload.
    destruct cell as [|c t] eqn:Ecell.
    - simpl. split; [discriminate | intros H; vm_compute in H; discriminate].
    - cbn [is_empty]. rewrite Hraw, suspicious_count_kinds.
      assert (Henc : match Html.unescape (String c t) with
                     | Some decoded =>
                         negb (String.eqb decoded (String c t))
                         && Regex.search xss_regex decoded
                     | None => false
                     end = false).
      { destruct (Html.unescape (String c t)) as [decoded|] eqn:E; [|reflexivity].
        rewrite (Hdec decoded eq_refl). apply andb_false_r. }
      rewrite Henc.
      destruct (3 <? suspicious_kinds (String c t))%Z eqn:E.
      + apply Z.ltb_lt in E. tauto.
      + apply Z.ltb_ge in E. split; [discriminate | lia]. }
  split; [exact Hiff|].
  intros H. apply Hiff in H.
  pose proof (suspicious_kinds_le_occurrences cell). lia.
Qed.

(** A cell with four different suspicious characters is flagged. *)
Lemma check_xss_payload_suspicious_kinds_witness :
  Regex.search xss_regex "<a> 'b' & c" = false /\
  Html.unescape "<a> 'b' & c" = Some "<a> 'b' & c" /\
  _check_xss_payload "<a> 'b' & c" = Some "suspicious_character_sequence".
Proof.
  assert (H1 : Regex.search xss_regex "<a> 'b' & c" = false) by reflexivity.
  assert (H2 : Html.unescape "<a> 'b' & c" = Some "<a> 'b' & c") by reflexivity.
  split; [exact H1 | split; [exact H2|]].
  assert (Hdec : forall decoded, Html.unescape "<a> 'b' & c" = Some decoded ->
                                 Regex.search xss_regex decoded = false).
  { intros decoded E. rewrite H2 in E. inversion E; subst. exact H1. }
  apply (proj1 (check_xss_payload_suspicious_kinds "<a> 'b' & c" H1 Hdec)).
  reflexivity.
Defined.

(** C2 as stated fails: [%%%%] matches no pattern, has four occurrences of a
    suspicious character at four positions, and is not flagged. *)
Lemma check_xss_payload_occurrences_counterexample :
  Regex.search xss_regex "%%%%" = false /\
  Html.unescape "%%%%" = Some "%%%%" /\
  suspicious_occurrences "%%%%" = 4%Z /\
  _check_xss_payload "%%%%" = None.
Proof. repeat split; reflexivity. Qed.

(** The content pass accepts only when it found no issue. *)
Lemma validate_content_security_valid (content : string) :
  valid (_validate_content_security content) = true ->
  exists rows, Csv.read content = inr rows /\ all_issues rows = [].
Proof.
  unfold _validate_content_security.
  destruct (Csv.read content) as [e|rows]; [discriminate|].
  destruct (all_issues rows) eqn:E; [|discriminate].
  intros _. now exists rows.
Qed.

(** C6.  A result of [validate_file_security] with [valid = true] has no
    [security_risk] key and no [security_issues] key. *)
Theorem validate_file_security_valid_clean
  (self : validator) (file_content filename : string) :
  valid (validate_file_security self file_content filename) = true ->
  security_risk (validate_file_security self file_content filename) = None /\
  security_issues (validate_file_security self file_content filename) = None.
Proof.
  unfold validate_file_security.
  destruct (max_file_size self <? len file_content)%Z; [discriminate|].
  destruct (negb (is_empty filename) && negb (endswith (lower filename) ".csv"));
    [discriminate|].
  destruct (valid (_validate_csv_structure file_content)) eqn:Hs; cbn [negb].
  - destruct (valid (_validate_content_security file_content)) eqn:Hc; cbn [negb].
    + intros _. split; reflexivity.
    + intros H. rewrite Hc in H. discriminate.
  - intros H. rewrite Hs in H. discriminate.
Qed.

(** A small clean upload is accepted, and carries neither key. *)
Lemma validate_file_security_valid_clean_witness :
  let r := validate_file_security default_validator
             ("entry,weight" ++ String LF ("Alice,1" ++ String LF "Bob,2"))
             "wheel.CSV" in
  valid r = true /\ security_risk r = None /\ security_issues r = None.
Proof.
  cbv zeta. split; [vm_compute; reflexivity|].
  apply validate_file_security_valid_clean. vm_compute. reflexivity.
Defined.

End ValidatorFacts.

(** ** The CSV import adapter *)

Section CSVServiceFacts.

Import Text CSVService.

Lemma mem_In (x : string) (xs : list string) : mem x xs = true <-> In x xs.
Proof.
  unfold mem. rewrite existsb_exists. split.
  - intros (y & Hy & E). apply String.eqb_eq in E. now subst.
  - intros H. exists x. split; [exact H | apply String.eqb_refl].
Qed.

Lemma difference_subset (a b : list string) :
  incl a b -> difference a b = [].
Proof.
  intros H. unfold difference.
  induction a as [|x a IH]; simpl; [reflexivity|].
  assert (Hx : mem x b = true) by (apply mem_In, H; now left).
  rewrite Hx. simpl. apply IH. intros y Hy. apply H. now right.
Qed.

Lemma intersection_subset (a b : list string) :
  incl a b -> intersection a b = a.
Proof.
  intros H. unfold intersection.
  induction a as [|x a IH]; simpl; [reflexivity|].
  assert (Hx : mem x b = true) by (apply mem_In, H; now left).
  rewrite Hx. f_equal. apply IH. intros y Hy. apply H. now right.
Qed.

Lemma set_of_incl (xs ys : list string) :
  incl xs ys -> incl (set_of xs) (set_of ys).
Proof.
  intros H x. unfold set_of. rewrite !nodup_In. apply H.
Qed.

Lemma set_of_nonempty (xs : list string) :
  xs <> [] -> (0 < llen (set_of xs))%Z.
Proof.
  destruct xs as [|x xs]; [congruence|]. intros _.
  assert (H : In x (set_of (x :: xs))) by (apply nodup_In; now left).
  unfold llen. destruct (set_of (x :: xs)); [destruct H | simpl; lia].
Qed.

(** Two lists with the same elements, whatever their order and repeats, pass
    the check with a score of 1. *)
Lemma validate_data_integrity_same_elements (X Y : list string) :
  X <> [] ->
  (forall x, In x X <-> In x Y) ->
  passed (validate_data_integrity X Y) = true /\
  (integrity_score (validate_data_integrity X Y) == 1)%Q /\
  missing_entries (validate_data_integrity X Y) = [] /\
  extra_entries (validate_data_integrity X Y) = [].
Proof.
  intros Hne Hsame.
  assert (Hxy : incl (set_of X) (set_of Y))
    by (apply set_of_incl; intros x; apply Hsame).
  assert (Hyx : incl (set_of Y) (set_of X))
    by (apply set_of_incl; intros x; apply Hsame).
  unfold validate_data_integrity. cbn -[set_of difference intersection llen].
  rewrite (difference_subset _ _ Hxy), (difference_subset _ _ Hyx),
    (intersection_subset _ _ Hyx).
  repeat split.
  destruct X as [|x X]; [congruence|].
  assert (Hlen : llen (set_of Y) = llen (set_of (x :: X))).
  { unfold llen. f_equal. apply Permutation_length, NoDup_Permutation.
    - apply NoDup_nodup.
    - apply NoDup_nodup.
    - intros y. split; [apply Hyx | apply Hxy]. }
  rewrite Hlen.
  apply Qmult_inv_r.
  pose proof (set_of_nonempty (x :: X) Hne) as Hpos.
  intros H. unfold Qeq in H. cbn [inject_Z Qnum Qden] in H. lia.
Qed.

(** C9.  For a non-empty list [X], [validate_data_integrity(X, X)] has
    [passed = true], an [integrity_score] of 1 and empty [missing_entries]
    and [extra_entries], whatever the order and the repeats in [X]. *)
Theorem validate_data_integrity_round_trip (X : list string) :
  X <> [] ->
  passed (validate_data_integrity X X) = true /\
  (integrity_score (validate_data_integrity X X) == 1)%Q /\
  missing_entries (validate_data_integrity X X) = [] /\
  extra_entries (validate_data_integrity X X) = [].
Proof.
  intros Hne. apply validate_data_integrity_same_elements; [exact Hne | tauto].
Qed.

(** A list with a repeated entry, out of order. *)
Lemma validate_data_integrity_round_trip_witness :
  passed (validate_data_integrity ["b"; "a"; "b"] ["b"; "a"; "b"]) = true /\
  (integrity_score (validate_data_integrity ["b"; "a"; "b"] ["b"; "a"; "b"]) == 1)%Q /\
  missing_entries (validate_data_integrity ["b"; "a"; "b"] ["b"; "a"; "b"]) = [] /\
  extra_entries (validate_data_integrity ["b"; "a"; "b"] ["b"; "a"; "b"]) = [].
Proof.
  apply validate_data_integrity_round_trip. discriminate.
Defined.

(** The rows of a longer list are numbered on from where the first part
    ends. *)
Lemma scan_app (headers : list string) (a b : list (list string)) (start : nat) :
  scan headers start (a ++ b)
  = (fst (scan headers start a) ++ fst (scan headers (start + List.length a) b),
     snd (scan headers start a) ++ snd (scan headers (start + List.length a) b)).
Proof.
  revert start. induction a as [|row a IH]; intros start.
  - simpl. rewrite Nat.add_0_r. now destruct (scan headers start b).
  - cbn [app scan List.length]. rewrite IH.
    replace (S start + List.length a) with (start + S (List.length a)) by lia.
    destruct (scan headers (S start) a) as [n m].
    destruct (check_row headers start row); reflexivity.
Qed.

Lemma is_blank_row_all (row : list string) :
  (forall cell, In cell row -> strip cell = "") -> is_blank_row row = true.
Proof.
  intros H. destruct row as [|c row]; [reflexivity|].
  unfold is_blank_row. apply forallb_forall.
  intros cell Hc. rewrite (H cell Hc). reflexivity.
Qed.

(** C10.  In [validate_csv_file], a data row whose cells are all blank after
    stripping is skipped: when the file is accepted, the entries and the
    warnings are those of the rows before it followed by those of the rows
    after it (which keep their row numbers), and [total_rows] still counts
    the blank row. *)
Theorem validate_csv_file_blank_row
  (self : service) (file_content : string)
  (header : list string) (before : list (list string)) (row : list string)
  (after : list (list string)) :
  Csv.read file_content = inr (header :: before ++ row :: after) ->
  (forall cell, In cell row -> strip cell = "") ->
  valid (validate_csv_file self file_content) = true ->
  let headers := map (fun h => lower (strip h)) header in
  let i := 2 + List.length before in
  check_row headers i row = Skipped /\
  entries (validate_csv_file self file_content)
  = Some (fst (scan headers 2 before) ++ fst (scan headers (S i) after)) /\
  errors (validate_csv_file self file_content)
  = Some (snd (scan headers 2 before) ++ snd (scan headers (S i) after)) /\
  total_rows (validate_csv_file self file_content)
  = Some (llen before + 1 + llen after)%Z.
Proof.
  intros Hread Hblank Hvalid headers i.
  apply is_blank_row_all in Hblank.
  assert (Hskip : check_row headers i row = Skipped)
    by (unfold check_row; now rewrite Hblank).
  split; [exact Hskip|].
  revert Hvalid. unfold validate_csv_file. rewrite Hread.
  destruct (max_file_size self <? len file_content)%Z; [discriminate|].
  fold headers.
  destruct (negb (existsb (fun h => mem h headers) required_headers)); [discriminate|].
  rewrite scan_app. cbn [scan]. fold i. rewrite Hskip.
  destruct (scan headers (S i) after) as [n2 m2].
  destruct (scan headers 2 before) as [n1 m1]. cbn [fst snd].
  destruct (n1 ++ n2) eqn:E; [discriminate|]. intros _.
  cbn [entries errors total_rows]. repeat split.
  f_equal. unfold llen. cbn [List.length]. rewrite length_app. cbn [List.length]. lia.
Qed.

(** A file with a blank row between two entries. *)
Lemma validate_csv_file_blank_row_witness :
  let content := ("name" ++ String LF ("Alice" ++ String LF ("  ," ++ String LF "Bob")))%string in
  valid (validate_csv_file csv_service content) = true /\
  entries (validate_csv_file csv_service content) = Some ["Alice"; "Bob"] /\
  errors (validate_csv_file csv_service content) = Some [] /\
  total_rows (validate_csv_file csv_service content) = Some 3%Z.
Proof.
  cbv zeta.
  split; [vm_compute; reflexivity|].
  refine (proj2 (validate_csv_file_blank_row csv_service _
                   ["name"] [["Alice"]] ["  "; ""] [["Bob"]] _ _ _)).
  - vm_compute. reflexivity.
  - intros cell [<-|[<-|[]]]; reflexivity.
  - vm_compute. reflexivity.
Defined.

End CSVServiceFacts.

(** ** The analytics event store *)

Section AnalyticsFacts.

Import Text Py AnalyticsService Notions.

(** *** Frame lemmas: which tables a statement leaves alone *)

Lemma find_metrics_none (d : db) (wheel_id : string) :
  (forall r, In r (wheel_metrics d) -> wm_wheel_id r <> wheel_id) ->
  find_metrics d wheel_id = None.
Proof.
  intros H. unfold find_metrics.
  induction (wheel_metrics d) as [|r rows IH]; simpl; [reflexivity|].
  destruct (String.eqb_spec (wm_wheel_id r) wheel_id) as [E|_].
  - elim (H r); [now left | exact E].
  - apply IH. intros r' Hr'. apply H. now right.
Qed.

Lemma find_replaced {A : Type} (p : A -> bool) (rows : list A) (row : A) :
  p row = true ->
  find p (filter (fun r => negb (p r)) rows ++ [row]) = Some row.
Proof.
  intros Hrow. induction rows as [|r rows IH]; simpl.
  - now rewrite Hrow.
  - destruct (p r) eqn:E; simpl; [exact IH|]. now rewrite E.
Qed.

Lemma find_metrics_replace_metrics
  (cur : string) (d : db) (wheel_id : string) (title entries : sqlval) :
  find_metrics (replace_metrics cur d wheel_id title entries) wheel_id
  = Some (mk_metrics_row wheel_id (text_affinity title)
            (match find_metrics d wheel_id with
             | Some r => wm_total_spins r
             | None => 0
             end + 1)%Z
            (count_distinct_users d wheel_id) entries cur cur).
Proof.
  unfold find_metrics at 1, replace_metrics. cbn [wheel_metrics].
  apply (find_replaced (fun r => String.eqb (wm_wheel_id r) wheel_id)).
  apply String.eqb_refl.
Qed.

Lemma truthy_opt_some (s : string) : s <> "" -> truthy_opt (Some s) = true.
Proof. destruct s; [congruence | reflexivity]. Qed.

(** The metrics step on a spin of a named wheel: the wheel branch, then the
    engagement branch, which leaves [wheel_metrics] alone. *)
Lemma metrics_statements_spin
  (cur : string) (d d' : db) (event_data : dict) (W : string)
  (user_id session_id : option string) :
  W <> "" ->
  metrics_statements cur d "wheel_spin" event_data (Some W) user_id session_id = Some d' ->
  exists d1, wheel_branch cur d event_data W = Some d1 /\
             wheel_metrics d' = wheel_metrics d1 /\
             winner_frequency d' = winner_frequency d1 /\
             analytics_events d' = analytics_events d1.
Proof.
  intros HW. unfold metrics_statements, wheel_branch.
  rewrite (truthy_opt_some W HW). cbn [String.eqb Ascii.eqb Bool.eqb andb text_or_empty].
  destruct (bind (dict_get event_data "wheel_title" (VStr ""))) as [title|];
    [|discriminate].
  destruct (bind (dict_get event_data "total_entries" (VInt 0))) as [entries|];
    [|discriminate].
  cbn [obind].
  destruct (truthy (dict_get event_data "winner" VNone));
    [destruct (bind (dict_get event_data "winner" VNone)) as [w|]; [|discriminate]|];
    cbn [obind];
    destruct (truthy_opt user_id && truthy_opt session_id);
    intros H; inversion H; subst; eexists; repeat split; reflexivity.
Qed.

(** The wheel branch leaves the row of the wheel as [replace_metrics] wrote it. *)
Lemma wheel_branch_metrics
  (cur : string) (d d1 : db) (event_data : dict) (W : string) :
  wheel_branch cur d event_data W = Some d1 ->
  exists title entries,
    bind (dict_get event_data "wheel_title" (VStr "")) = Some title /\
    bind (dict_get event_data "total_entries" (VInt 0)) = Some entries /\
    wheel_metrics d1 = wheel_metrics (replace_metrics cur d W title entries) /\
    analytics_events d1 = analytics_events d.
Proof.
  unfold wheel_branch.
  destruct (bind (dict_get event_data "wheel_title" (VStr ""))) as [title|]; [|discriminate].
  destruct (bind (dict_get event_data "total_entries" (VInt 0))) as [entries|]; [|discriminate].
  cbn [obind].
  destruct (truthy (dict_get event_data "winner" VNone)).
  - destruct (bind (dict_get event_data "winner" VNone)) as [w|]; [|discriminate].
    cbn [obind]. intros H. inversion H; subst.
    exists title, entries. repeat split; reflexivity.
  - intros H. inversion H; subst. exists title, entries. repeat split; reflexivity.
Qed.

(** *** C8 *)

(** C8 (as the code has it).  For a wheel with no row in [wheel_metrics],
    [get_wheel_analytics] returns an error payload and leaves the four tables
    as they are.  The payload is [Wheel not found] when the start of the
    window, [now - days], is a date [datetime] can hold; otherwise it is the
    message of the [OverflowError] of that subtraction, which is computed
    before the table is read. *)
Theorem get_wheel_analytics_unknown_wheel
  (now : datetime) (d : db) (wheel_id : string) (days : Z) :
  (forall r, In r (wheel_metrics d) -> wm_wheel_id r <> wheel_id) ->
  (exists message, fst (get_wheel_analytics now d wheel_id days) = Failure message) /\
  snd (get_wheel_analytics now d wheel_id days) = d /\
  ((Z.abs days <= 999999999)%Z ->
   (1 <= ordinal now - days <= MAXORDINAL)%Z ->
   fst (get_wheel_analytics now d wheel_id days) = Failure "Wheel not found") /\
  (forall message, minus_days now days = inl message ->
   fst (get_wheel_analytics now d wheel_id days) = Failure message).
Proof.
  intros Hrow. apply find_metrics_none in Hrow.
  unfold get_wheel_analytics. rewrite Hrow.
  repeat split.
  - destruct (minus_days now days); eexists; reflexivity.
  - destruct (minus_days now days); reflexivity.
  - intros Hd Ho. unfold minus_days.
    destruct (999999999 <? Z.abs days)%Z eqn:E1; [apply Z.ltb_lt in E1; lia|].
    destruct ((1 <=? ordinal now - days) && (ordinal now - days <=? MAXORDINAL))%Z eqn:E2;
      [reflexivity|].
    apply andb_false_iff in E2. destruct E2 as [E2|E2];
      [apply Z.leb_gt in E2 | apply Z.leb_gt in E2]; lia.
  - intros message E. now rewrite E.
Qed.

(** An unknown wheel on a new database, with the default window of 30 days. *)
Lemma get_wheel_analytics_unknown_wheel_witness :
  get_wheel_analytics sample_now empty_db "w1" 30 = (Failure "Wheel not found", empty_db).
Proof.
  assert (H : forall r, In r (wheel_metrics empty_db) -> wm_wheel_id r <> "w1")
    by (intros r []).
  destruct (get_wheel_analytics_unknown_wheel sample_now empty_db "w1" 30 H)
    as (_ & Hdb & Hmsg & _).
  rewrite (surjective_pairing (get_wheel_analytics sample_now empty_db "w1" 30)).
  rewrite Hdb, Hmsg; [reflexivity | vm_compute; discriminate | vm_compute; split; discriminate].
Defined.

(** C8 as stated fails on the message: with [days = 1000000000] the
    subtraction raises before the table is read, and the payload carries the
    message of that exception. *)
Lemma get_wheel_analytics_days_counterexample :
  find_metrics empty_db "w1" = None /\
  get_wheel_analytics sample_now empty_db "w1" 1000000000
  = (Failure "days=1000000000; must have magnitude <= 999999999", empty_db).
Proof. split; reflexivity. Qed.

(** *** C3 *)

Lemma metrics_statements_events
  (cur : string) (d d' : db) (event_type : string) (event_data : dict)
  (wheel_id user_id session_id : option string) :
  metrics_statements cur d event_type event_data wheel_id user_id session_id = Some d' ->
  analytics_events d' = analytics_events d.
Proof.
  unfold metrics_statements.
  destruct (String.eqb event_type "wheel_spin" && truthy_opt wheel_id).
  - destruct (bind (dict_get event_data "wheel_title" (VStr ""))); [|discriminate].
    destruct (bind (dict_get event_data "total_entries" (VInt 0))); [|discriminate].
    cbn [obind].
    destruct (truthy (dict_get event_data "winner" VNone));
      [destruct (bind (dict_get event_data "winner" VNone)); [|discriminate]|];
      cbn [obind];
      destruct (truthy_opt user_id && truthy_opt session_id);
      intros H; inversion H; reflexivity.
  - cbn [obind].
    destruct (truthy_opt user_id && truthy_opt session_id);
      intros H; inversion H; reflexivity.
Qed.

Lemma update_metrics_events
  (cur : string) (d : db) (event_type : string) (event_data : dict)
  (wheel_id user_id session_id : option string) :
  analytics_events (_update_metrics cur d event_type event_data wheel_id user_id session_id)
  = analytics_events d.
Proof.
  unfold _update_metrics.
  destruct (metrics_statements cur d event_type event_data wheel_id user_id session_id)
    eqn:E; [|reflexivity].
  exact (metrics_statements_events _ _ _ _ _ _ _ _ E).
Qed.

Lemma record_event_true
  (now : datetime) (cur : string) (d : db) (event_type : string) (event_data : dict)
  (wheel_id user_id session_id ip_address user_agent : option string) :
  serializable (VDict event_data) = true ->
  record_event now cur d event_type event_data wheel_id user_id session_id
    ip_address user_agent
  = (true,
     _update_metrics cur
       (with_event now cur d event_type event_data wheel_id user_id session_id
          ip_address user_agent)
       event_type event_data wheel_id user_id session_id).
Proof.
  intros H. unfold record_event, json_dumps. rewrite H. reflexivity.
Qed.

Lemma record_event_false
  (now : datetime) (cur : string) (d : db) (event_type : string) (event_data : dict)
  (wheel_id user_id session_id ip_address user_agent : option string) :
  serializable (VDict event_data) = false ->
  record_event now cur d event_type event_data wheel_id user_id session_id
    ip_address user_agent
  = (false, d).
Proof.
  intros H. unfold record_event, json_dumps. rewrite H. reflexivity.
Qed.




(** *** C7 *)






(** *** C1 *)

Lemma user_ids_app (a b : list event) :
  user_ids (a ++ b) = user_ids a ++ user_ids b.
Proof.
  induction a as [|e a IH]; simpl; [reflexivity|].
  destruct (ev_user_id e); simpl; now rewrite IH.
Qed.

Lemma spin_users_with_event
  (now : datetime) (cur : string) (d : db) (event_data : dict) (W : string)
  (user_id session_id ip_address user_agent : option string) :
  spin_users
    (with_event now cur d "wheel_spin" event_data (Some W) user_id session_id
       ip_address user_agent) W
  = spin_users d W ++ opt_list user_id.
Proof.
  unfold spin_users, with_event, insert_event. cbn [analytics_events].
  rewrite filter_app, user_ids_app. f_equal.
  cbn [filter]. unfold is_spin_of at 1. cbn [ev_wheel_id ev_event_type opt_eqb].
  rewrite String.eqb_refl. cbn. now destruct user_id.
Qed.

(** One recorded spin of wheel [W] whose metrics step completes: the row of
    [W] after it. *)
Lemma record_spin_metrics
  (now : datetime) (cur : string) (d : db) (event_data : dict) (W : string)
  (user_id session_id ip_address user_agent : option string) :
  let r := record_event now cur d "wheel_spin" event_data (Some W) user_id session_id
             ip_address user_agent in
  let d1 := with_event now cur d "wheel_spin" event_data (Some W) user_id session_id
              ip_address user_agent in
  W <> "" ->
  fst r = true ->
  metrics_statements cur d1 "wheel_spin" event_data (Some W) user_id session_id <> None ->
  exists row,
    find_metrics (snd r) W = Some row /\
    wm_total_spins row = (prior_spins d W + 1)%Z /\
    wm_unique_users row = count_distinct_users (snd r) W /\
    wm_unique_users row = llen (nodup string_dec (spin_users d W ++ opt_list user_id)).
Proof.
  intros r d1 HW Htrue Hrun. subst r.
  destruct (serializable (VDict event_data)) eqn:E;
    [|rewrite (record_event_false _ _ _ _ _ _ _ _ _ _ E) in Htrue; discriminate].
  rewrite (record_event_true _ _ _ _ _ _ _ _ _ _ E). cbn [snd]. fold d1.
  destruct (metrics_statements cur d1 "wheel_spin" event_data (Some W) user_id session_id)
    as [d2|] eqn:Hd2; [|congruence].
  unfold _update_metrics. rewrite Hd2.
  destruct (metrics_statements_spin _ _ _ _ _ _ _ HW Hd2) as (d' & Hbranch & Hm & _ & He).
  destruct (wheel_branch_metrics _ _ _ _ _ Hbranch)
    as (title & entries & _ & _ & Hm1 & He1).
  assert (Hcount : count_distinct_users d2 W = count_distinct_users d1 W)
    by (unfold count_distinct_users; now rewrite He, He1).
  unfold find_metrics. rewrite Hm, Hm1.
  fold (find_metrics (replace_metrics cur d1 W title entries) W).
  rewrite find_metrics_replace_metrics.
  eexists. split; [reflexivity|].
  cbn [wm_total_spins wm_unique_users]. rewrite Hcount.
  repeat split.
  unfold count_distinct_users. fold (spin_users d1 W).
  unfold d1. now rewrite spin_users_with_event.
Qed.

(** The derived tables after one more spin of the example, from the tables
    before it and the spin users of the log. *)
Lemma spin_w1_tables (now : datetime) (cur : string) (d : db) (u : string) :
  wheel_metrics (spin_w1 now cur d u)
  = filter (fun r => negb (String.eqb (wm_wheel_id r) "w1")) (wheel_metrics d)
    ++ [mk_metrics_row "w1" (SText "") (prior_spins d "w1" + 1)%Z
          (llen (nodup string_dec (spin_users d "w1" ++ [u]))) (SInt 5) cur cur] /\
  winner_frequency (spin_w1 now cur d u)
  = filter (fun r => negb (String.eqb (wf_wheel_id r) "w1"
                           && String.eqb (wf_winner_name r) "Alice"))
           (winner_frequency d)
    ++ [mk_winner_row "w1" "Alice"
          (match find_winner d "w1" "Alice" with
           | Some r => wf_frequency_count r
           | None => 0
           end + 1)%Z cur cur cur] /\
  spin_users (spin_w1 now cur d u) "w1" = spin_users d "w1" ++ [u].
Proof.
  unfold spin_w1.
  rewrite (record_event_true now cur d "wheel_spin" alice_spin (Some "w1") (Some u)
             None None None eq_refl).
  cbn [snd].
  pose proof (spin_users_with_event now cur d alice_spin "w1" (Some u) None None None)
    as Husers.
  set (d1 := with_event now cur d "wheel_spin" alice_spin (Some "w1") (Some u)
               None None None) in *.
  assert (Hm : wheel_metrics d1 = wheel_metrics d) by reflexivity.
  assert (Hw : winner_frequency d1 = winner_frequency d) by reflexivity.
  clearbody d1.
  unfold _update_metrics, metrics_statements, alice_spin.
  cbn [String.eqb Ascii.eqb Bool.eqb andb truthy_opt is_empty negb text_or_empty
       dict_get truthy].
  change (bind (VStr "")) with (Some (SText "")).
  change (bind (VInt 5)) with (Some (SInt 5)).
  change (bind (VStr "Alice")) with (Some (SText "Alice")).
  rewrite andb_false_r. cbn [obind].
  cbn [replace_winner replace_metrics wheel_metrics winner_frequency analytics_events
       text_of text_affinity].
  unfold prior_spins, find_metrics, find_winner, count_distinct_users, spin_users in *.
  cbn [replace_winner replace_metrics wheel_metrics winner_frequency analytics_events
       opt_list] in *.
  rewrite Hm, Hw, Husers. repeat split.
Qed.

(** The metrics step of a spin of a named wheel completes when SQLite can
    bind the three payload fields it reads. *)
Lemma metrics_statements_completes
  (cur : string) (d : db) (event_data : dict) (W : string)
  (user_id session_id : option string) :
  W <> "" ->
  bind (dict_get event_data "wheel_title" (VStr "")) <> None ->
  bind (dict_get event_data "total_entries" (VInt 0)) <> None ->
  (truthy (dict_get event_data "winner" VNone) = true ->
   bind (dict_get event_data "winner" VNone) <> None) ->
  metrics_statements cur d "wheel_spin" event_data (Some W) user_id session_id <> None.
Proof.
  intros HW Ht He Hw. unfold metrics_statements.
  rewrite (truthy_opt_some W HW). cbn [String.eqb Ascii.eqb Bool.eqb andb text_or_empty].
  destruct (bind (dict_get event_data "wheel_title" (VStr ""))); [|congruence].
  destruct (bind (dict_get event_data "total_entries" (VInt 0))); [|congruence].
  cbn [obind].
  destruct (truthy (dict_get event_data "winner" VNone));
    [destruct (bind (dict_get event_data "winner" VNone)); [|now elim Hw]|];
    cbn [obind];
    destruct (truthy_opt user_id && truthy_opt session_id); discriminate.
Qed.

Lemma minus_days_in_range (now : datetime) (days : Z) :
  (Z.abs days <= 999999999)%Z ->
  (1 <= ordinal now - days <= MAXORDINAL)%Z ->
  minus_days now days
  = inr (mk_datetime (ordinal now - days) (hour now) (minute now) (second now)
           (microsecond now)).
Proof.
  intros Hd Ho. unfold minus_days.
  destruct (999999999 <? Z.abs days)%Z eqn:E1; [apply Z.ltb_lt in E1; lia|].
  destruct ((1 <=? ordinal now - days) && (ordinal now - days <=? MAXORDINAL))%Z eqn:E2;
    [reflexivity|].
  apply andb_false_iff in E2. destruct E2 as [E2|E2]; apply Z.leb_gt in E2; lia.
Qed.

(** The derived tables after the three spins of the example on a new
    database. *)
Lemma three_spins_tables
  (now1 now2 now3 : datetime) (cur1 cur2 cur3 : string) (u1 u2 u3 : string) :
  u1 <> u2 -> u1 <> u3 -> u2 <> u3 ->
  let d3 := spin_w1 now3 cur3 (spin_w1 now2 cur2 (spin_w1 now1 cur1 empty_db u1) u2) u3 in
  wheel_metrics d3 = [mk_metrics_row "w1" (SText "") 3 3 (SInt 5) cur3 cur3] /\
  winner_frequency d3 = [mk_winner_row "w1" "Alice" 3 cur3 cur3 cur3].
Proof.
  intros H12 H13 H23 d3. subst d3.
  destruct (spin_w1_tables now1 cur1 empty_db u1) as (M1 & W1 & U1).
  set (d1 := spin_w1 now1 cur1 empty_db u1) in *.
  destruct (spin_w1_tables now2 cur2 d1 u2) as (M2 & W2 & U2).
  set (d2 := spin_w1 now2 cur2 d1 u2) in *.
  destruct (spin_w1_tables now3 cur3 d2 u3) as (M3 & W3 & U3).
  set (d3 := spin_w1 now3 cur3 d2 u3) in *.
  clearbody d1 d2 d3.
  cbn -[nodup] in M1, W1, U1.
  unfold prior_spins, find_metrics, find_winner in M2, W2.
  rewrite M1, W1 in *. rewrite U1 in *. cbn -[nodup] in M2, W2, U2.
  unfold prior_spins, find_metrics, find_winner in M3, W3.
  rewrite M2, W2 in *. rewrite U2 in *. cbn -[nodup] in M3, W3.
  assert (N : NoDup [u1; u2; u3]).
  { repeat constructor; simpl; intuition congruence. }
  rewrite (nodup_fixed_point string_dec N) in M3.
  split; assumption.
Qed.

(** C1 (as the code has it).  For a wheel [W] with a non-empty id, a
    [record_event] call of type [wheel_spin] for [W] that returns [True] and
    whose metrics step completes (SQLite can bind the payload's
    [wheel_title], [total_entries] and [winner]) leaves a [wheel_metrics] row
    for [W] with [total_spins] equal to the prior value (0 without a prior
    row) plus 1, and [unique_users] equal to the number of distinct non-null
    [user_id]s over the [wheel_spin] events of [W] in the log, this event
    included.  In particular, after three such calls with payload
    [{winner: 'Alice', total_entries: 5}] for wheel [w1] and three distinct
    [user_id]s on a new database, [get_wheel_analytics('w1')] reports
    [total_spins = 3], [unique_users = 3] and the winner distribution
    [Alice: 3]. *)
Theorem record_event_wheel_spin_metrics :
  (forall (now : datetime) (cur : string) (d : db) (event_data : dict) (W : string)
          (user_id session_id ip_address user_agent : option string),
     let r := record_event now cur d "wheel_spin" event_data (Some W) user_id
                session_id ip_address user_agent in
     W <> "" ->
     fst r = true ->
     bind (dict_get event_data "wheel_title" (VStr "")) <> None ->
     bind (dict_get event_data "total_entries" (VInt 0)) <> None ->
     (truthy (dict_get event_data "winner" VNone) = true ->
      bind (dict_get event_data "winner" VNone) <> None) ->
     exists row,
       find_metrics (snd r) W = Some row /\
       wm_total_spins row = (prior_spins d W + 1)%Z /\
       wm_unique_users row = count_distinct_users (snd r) W /\
       wm_unique_users row
       = llen (nodup string_dec (spin_users d W ++ opt_list user_id)))
  /\
  (forall (now1 now2 now3 now : datetime) (cur1 cur2 cur3 : string)
          (u1 u2 u3 : string) (days : Z),
     let d3 := spin_w1 now3 cur3
                 (spin_w1 now2 cur2 (spin_w1 now1 cur1 empty_db u1) u2) u3 in
     u1 <> u2 -> u1 <> u3 -> u2 <> u3 ->
     (Z.abs days <= 999999999)%Z ->
     (1 <= ordinal now - days <= MAXORDINAL)%Z ->
     exists r,
       fst (get_wheel_analytics now d3 "w1" days) = Success r /\
       r_total_spins r = 3%Z /\
       r_unique_users r = 3%Z /\
       r_winner_distribution r = [("Alice", 3%Z, cur3)]).
Proof.
  split.
  - intros now cur d event_data W user_id session_id ip_address user_agent r
           HW Htrue Ht He Hw.
    apply (record_spin_metrics now cur d event_data W user_id session_id
             ip_address user_agent HW Htrue).
    now apply metrics_statements_completes.
  - intros now1 now2 now3 now cur1 cur2 cur3 u1 u2 u3 days d3 H12 H13 H23 Hd Ho.
    destruct (three_spins_tables now1 now2 now3 cur1 cur2 cur3 u1 u2 u3 H12 H13 H23)
      as (HM & HW).
    fold d3 in HM, HW. clearbody d3.
    unfold get_wheel_analytics.
    rewrite (minus_days_in_range now days Hd Ho).
    unfold find_metrics. rewrite HM, HW.
    cbn [find wm_wheel_id String.eqb Ascii.eqb Bool.eqb].
    eexists. split; [reflexivity|].
    cbn [r_total_spins r_unique_users r_winner_distribution wm_total_spins
         wm_unique_users].
    repeat split.
Qed.

(** A first spin of [w1] on a new database; and the example of C1 with the
    users [u1], [u2], [u3] and a window of 30 days. *)
Lemma record_event_wheel_spin_metrics_witness :
  (exists row,
     find_metrics
       (snd (record_event sample_now "2025-01-15 10:30:00" empty_db "wheel_spin"
               alice_spin (Some "w1") (Some "u1") None None None)) "w1" = Some row /\
     wm_total_spins row = 1%Z /\ wm_unique_users row = 1%Z) /\
  (exists r,
     fst (get_wheel_analytics sample_now
            (spin_w1 sample_now "2025-01-15 10:30:02"
               (spin_w1 sample_now "2025-01-15 10:30:01"
                  (spin_w1 sample_now "2025-01-15 10:30:00" empty_db "u1") "u2") "u3")
            "w1" 30) = Success r /\
     r_total_spins r = 3%Z /\
     r_unique_users r = 3%Z /\
     r_winner_distribution r = [("Alice", 3%Z, "2025-01-15 10:30:02")]).
Proof.
  split.
  - destruct (proj1 record_event_wheel_spin_metrics
                sample_now "2025-01-15 10:30:00" empty_db alice_spin "w1"
                (Some "u1") None None None)
      as (row & Hrow & Hspins & _ & Husers); try discriminate; try reflexivity.
    exists row. split; [exact Hrow|]. split; [exact Hspins | exact Husers].
  - apply (proj2 record_event_wheel_spin_metrics
             sample_now sample_now sample_now sample_now
             "2025-01-15 10:30:00" "2025-01-15 10:30:01" "2025-01-15 10:30:02"
             "u1" "u2" "u3" 30%Z);
      try discriminate.
    vm_compute. split; discriminate.
Defined.

(** C1 as stated fails: after one spin of [w1], a second [wheel_spin] call
    for [w1] whose [total_entries] is a list returns [True], yet the row
    keeps [total_spins = 1] and [unique_users = 1] while the log has spins of
    [w1] by two users. *)
Lemma record_event_wheel_spin_counterexample :
  let cur := "2025-01-15 10:30:00" in
  let d1 := spin_w1 sample_now cur empty_db "u1" in
  let r := record_event sample_now cur d1 "wheel_spin"
             [("total_entries", VList [VInt 1; VInt 2])]
             (Some "w1") (Some "u2") None None None in
  fst r = true /\
  option_map wm_total_spins (find_metrics d1 "w1") = Some 1%Z /\
  option_map wm_total_spins (find_metrics (snd r) "w1") = Some 1%Z /\
  option_map wm_unique_users (find_metrics (snd r) "w1") = Some 1%Z /\
  count_distinct_users (snd r) "w1" = 2%Z.
Proof. cbv zeta. repeat split; vm_compute; reflexivity. Qed.

End AnalyticsFacts.

(** ** Canonical serialization and [verify_data_integrity] *)

Section OrderFacts.

Import Text.

Lemma code_inj (x y : ascii) : code x = code y -> x = y.
Proof.
  unfold code. intros H.
  rewrite <- (ascii_N_embedding x), <- (ascii_N_embedding y). now rewrite H.
Qed.

Lemma leb_total (a b : string) : leb a b = false -> leb b a = true.
Proof.
  revert b. induction a as [|x a IH]; intros [|y b]; simpl; try easy.
  destruct (code x <? code y)%N eqn:E1; [discriminate|].
  destruct (code y <? code x)%N eqn:E2; [reflexivity|].
  apply IH.
Qed.

Lemma leb_trans (a b c : string) :
  leb a b = true -> leb b c = true -> leb a c = true.
Proof.
  revert b c. induction a as [|x a IH]; intros [|y b] [|z c]; simpl; try easy.
  destruct (code x <? code y)%N eqn:E1, (code y <? code x)%N eqn:E2,
           (code y <? code z)%N eqn:E3, (code z <? code y)%N eqn:E4,
           (code x <? code z)%N eqn:E5, (code z <? code x)%N eqn:E6;
    try reflexivity; try discriminate;
    try apply N.ltb_lt in E1; try apply N.ltb_lt in E2; try apply N.ltb_lt in E3;
    try apply N.ltb_lt in E4; try apply N.ltb_lt in E5; try apply N.ltb_lt in E6;
    try apply N.ltb_ge in E1; try apply N.ltb_ge in E2; try apply N.ltb_ge in E3;
    try apply N.ltb_ge in E4; try apply N.ltb_ge in E5; try apply N.ltb_ge in E6;
    try lia.
  apply IH.
Qed.

Lemma leb_antisym (a b : string) :
  leb a b = true -> leb b a = true -> a = b.
Proof.
  revert b. induction a as [|x a IH]; intros [|y b]; simpl; try easy.
  destruct (code x <? code y)%N eqn:E1, (code y <? code x)%N eqn:E2;
    try discriminate.
  - apply N.ltb_lt in E1, E2. lia.
  - intros H1 H2. apply N.ltb_ge in E1, E2.
    assert (x = y) by (apply code_inj; lia). subst.
    f_equal. now apply IH.
Qed.

End OrderFacts.

Section SortFacts.

Import Text Py Notions.

Lemma insert_item_perm (kv : string * string) (l : list (string * string)) :
  Permutation (insert_item kv l) (kv :: l).
Proof.
  induction l as [|h t IH]; simpl; [reflexivity|].
  destruct (leb (fst kv) (fst h)); [reflexivity|].
  rewrite IH. apply perm_swap.
Qed.

Lemma sort_items_perm (l : list (string * string)) :
  Permutation (sort_items l) l.
Proof.
  induction l as [|kv l IH]; simpl; [reflexivity|].
  rewrite insert_item_perm. now constructor.
Qed.

Lemma insert_item_sorted (kv : string * string) (l : list (string * string)) :
  StronglySorted key_le l -> StronglySorted key_le (insert_item kv l).
Proof.
  induction 1 as [|h t Hs IH Hall]; simpl.
  - repeat constructor.
  - destruct (leb (fst kv) (fst h)) eqn:E.
    + constructor; [now constructor|].
      constructor; [exact E|].
      eapply Forall_impl; [|exact Hall].
      intros b Hb. unfold key_le in *. eapply leb_trans; eassumption.
    + constructor; [exact IH|].
      apply (Permutation_Forall (Permutation_sym (insert_item_perm kv t))).
      constructor; [|exact Hall].
      unfold key_le. now apply leb_total.
Qed.

Lemma sort_items_sorted (l : list (string * string)) :
  StronglySorted key_le (sort_items l).
Proof.
  induction l as [|kv l IH]; simpl; [constructor|].
  now apply insert_item_sorted.
Qed.

Lemma same_key_same_item (l : list (string * string)) (a b : string * string) :
  NoDup (map fst l) -> In a l -> In b l -> fst a = fst b -> a = b.
Proof.
  induction l as [|h t IH]; simpl; [easy|].
  intros Hnd [Ha|Ha] [Hb|Hb] E; inversion Hnd as [|? ? Hnotin Hnd']; subst.
  - reflexivity.
  - elim Hnotin. rewrite E. now apply in_map.
  - elim Hnotin. rewrite <- E. now apply in_map.
  - now apply IH.
Qed.

(** Two key-sorted lists with the same items and distinct keys are equal. *)
Lemma sorted_perm_unique (l1 l2 : list (string * string)) :
  StronglySorted key_le l1 -> StronglySorted key_le l2 ->
  Permutation l1 l2 -> NoDup (map fst l1) -> l1 = l2.
Proof.
  intros S1. revert l2.
  induction S1 as [|a t1 S1 IH H1]; intros l2 S2 P Hnd.
  - now apply Permutation_nil in P.
  - destruct S2 as [|b t2 S2 H2];
      [apply Permutation_sym, Permutation_nil in P; discriminate|].
    assert (E : a = b).
    { assert (Ha : In a (b :: t2)) by (apply (Permutation_in _ P); now left).
      assert (Hb : In b (a :: t1))
        by (apply (Permutation_in _ (Permutation_sym P)); now left).
      destruct Ha as [Ha|Ha]; [now symmetry|].
      destruct Hb as [Hb|Hb]; [exact Hb|].
      apply (same_key_same_item (a :: t1)); [exact Hnd | now left | now right |].
      rewrite Forall_forall in H1, H2.
      apply leb_antisym; [apply (H1 b Hb) | apply (H2 a Ha)]. }
    subst b. f_equal.
    apply IH; [exact S2 | exact (Permutation_cons_inv P) |].
    now inversion Hnd.
Qed.

(** Sorting forgets the order in which items with distinct keys come. *)
Lemma sort_items_permutation (l1 l2 : list (string * string)) :
  Permutation l1 l2 -> NoDup (map fst l1) -> sort_items l1 = sort_items l2.
Proof.
  intros P Hnd. apply sorted_perm_unique.
  - apply sort_items_sorted.
  - apply sort_items_sorted.
  - rewrite !sort_items_perm. exact P.
  - apply (Permutation_NoDup (l := map fst l1)); [|exact Hnd].
    apply Permutation_map, Permutation_sym, sort_items_perm.
Qed.

End SortFacts.

Section IntegrityFacts.

Import Text Py AnalyticsService Notions.

Lemma reordered_refl (v : value) : reordered v v.
Proof.
  induction v using value_induction; try constructor.
  - induction H; constructor; assumption.
  - apply reordered_dict with (d := d); [|reflexivity].
    induction H; constructor; [split; [reflexivity | assumption] | assumption].
Qed.

(** A permutation of the items of a dictionary is a reordering of it. *)
Lemma reordered_permutation (d1 d2 : dict) :
  Permutation d1 d2 -> reordered (VDict d1) (VDict d2).
Proof.
  intros P. apply reordered_dict with (d := d1); [|exact P].
  clear P. induction d1; constructor; [split; [reflexivity | apply reordered_refl]|].
  exact IHd1.
Qed.

Lemma forallb_permutation {A : Type} (f : A -> bool) (l1 l2 : list A) :
  Permutation l1 l2 -> forallb f l1 = forallb f l2.
Proof.
  induction 1; simpl; try congruence.
  now rewrite !andb_assoc, (andb_comm (f y)).
Qed.

(** [json.dumps] with sorted keys does not see the order of the keys. *)
Lemma encode_reordered (v1 : value) :
  well_formed v1 ->
  forall v2, reordered v1 v2 ->
  encode v1 = encode v2 /\ serializable v1 = serializable v2.
Proof.
  induction v1 as [| | | |l1 IH|d1 IH|] using value_induction;
    intros Hwf v2 Hr; inversion Hr; subst; try (split; reflexivity).
  - (* lists *)
    match goal with H : Forall2 reordered _ _ |- _ => rename H into F end.
    assert (E : map encode l1 = map encode l2
                /\ forallb serializable l1 = forallb serializable l2).
    { clear Hr. revert Hwf IH. induction F as [|x y l l' Hxy F IHF]; intros Hwf IH;
        [split; reflexivity|].
      simpl in Hwf. destruct Hwf as [Hx Hl]. inversion IH as [|? ? IHx IHl]; subst.
      destruct (IHx Hx y Hxy) as [E1 E2]. destruct (IHF Hl IHl) as [E3 E4].
      simpl. now rewrite E1, E2, E3, E4. }
    destruct E as [E1 E2]. cbn [encode serializable]. now rewrite E1, E2.
  - (* dictionaries *)
    match goal with
    | H : Forall2 _ d1 ?d, H' : Permutation ?d _ |- _ => rename H into F; rename H' into P
    end.
    destruct Hwf as [Hnd Hwf].
    assert (E : map (fun kv => (fst kv, encode (snd kv))) d1
                = map (fun kv => (fst kv, encode (snd kv))) d
                /\ forallb (fun kv => serializable (snd kv)) d1
                   = forallb (fun kv => serializable (snd kv)) d
                /\ map fst d1 = map fst d).
    { clear Hr P Hnd. revert Hwf IH.
      induction F as [|x y l l' [Hk Hxy] F IHF]; intros Hwf IH;
        [repeat split; reflexivity|].
      simpl in Hwf. destruct Hwf as [Hx Hl]. inversion IH as [|? ? IHx IHl]; subst.
      destruct (IHx Hx _ Hxy) as [E1 E2]. destruct (IHF Hl IHl) as (E3 & E4 & E5).
      simpl. now rewrite Hk, E1, E2, E3, E4, E5. }
    destruct E as (E1 & E2 & E3).
    cbn [encode serializable]. rewrite E1, E2. split.
    + rewrite (sort_items_permutation
                 (map (fun kv => (fst kv, encode (snd kv))) d)
                 (map (fun kv => (fst kv, encode (snd kv))) d2));
        [reflexivity | now apply Permutation_map |].
      rewrite map_map. change (NoDup (map fst d)). now rewrite <- E3.
    + now apply forallb_permutation.
Qed.

(** C5.  [verify_data_integrity(data, hash)] is true exactly when [hash] is
    the SHA-256 hex digest of the JSON text of [data] with sorted keys; and it
    gives the same answer on two dictionaries that differ only in the order
    of their keys, at any depth. *)
Theorem verify_data_integrity_canonical :
  (forall (data : dict) (expected_hash : string),
     verify_data_integrity data expected_hash = true
     <-> exists data_json,
           json_dumps (VDict data) = Some data_json /\
           expected_hash = Sha256.hexdigest data_json)
  /\
  (forall (data1 data2 : dict) (expected_hash : string),
     well_formed (VDict data1) ->
     reordered (VDict data1) (VDict data2) ->
     verify_data_integrity data1 expected_hash
     = verify_data_integrity data2 expected_hash).
Proof.
  split.
  - intros data h. unfold verify_data_integrity.
    destruct (json_dumps (VDict data)) as [j|].
    + rewrite String.eqb_eq. split.
      * intros <-. now exists j.
      * intros (j' & E & ->). now inversion E.
    + split; [discriminate | intros (j' & E & _); discriminate].
  - intros data1 data2 h Hwf Hr.
    destruct (encode_reordered _ Hwf _ Hr) as [E1 E2].
    unfold verify_data_integrity, json_dumps. now rewrite E1, E2.
Qed.

(** Two orders of the same nested dictionary verify against the same hash. *)
Lemma verify_data_integrity_canonical_witness :
  let inner1 := VDict [("y", VNone); ("x", VStr "s")] in
  let inner2 := VDict [("x", VStr "s"); ("y", VNone)] in
  let data1 := [("b", VInt 1); ("a", inner1)] in
  let data2 := [("a", inner2); ("b", VInt 1)] in
  let h := Sha256.hexdigest (encode (VDict data2)) in
  verify_data_integrity data2 h = true /\
  verify_data_integrity data1 h = verify_data_integrity data2 h.
Proof.
  cbv zeta. split.
  - apply (proj1 verify_data_integrity_canonical). eexists. split; reflexivity.
  - apply (proj2 verify_data_integrity_canonical).
    + cbn. repeat split; repeat constructor; simpl; intuition discriminate.
    + apply reordered_dict with (d := [("b", VInt 1); ("a", VDict [("x", VStr "s"); ("y", VNone)])]).
      * repeat constructor.
        apply reordered_dict with (d := [("y", VNone); ("x", VStr "s")]).
        -- repeat constructor.
        -- apply perm_swap.
      * apply perm_swap.
Defined.

End IntegrityFacts.

(** ** The regular-expression engine against the languages it decides *)

Section RegexFacts.

Import Text Regex Notions.

Lemma append_nil_r (s : string) : (s ++ "")%string = s.
Proof. induction s; simpl; congruence. Qed.

Lemma append_assoc (a b c : string) : ((a ++ b) ++ c)%string = (a ++ b ++ c)%string.
Proof. induction a; simpl; congruence. Qed.

Lemma append_empty (a b : string) : (a ++ b)%string = "" -> a = "" /\ b = "".
Proof. destruct a; simpl; [tauto | discriminate]. Qed.

Lemma nullable_matches (r : re) : nullable r = true <-> matches r "".
Proof.
  split.
  - induction r; simpl; intros H; try discriminate.
    + constructor.
    + apply orb_true_iff in H. destruct H; [apply matches_alt_l | apply matches_alt_r]; auto.
    + apply andb_true_iff in H. destruct H.
      change "" with ("" ++ "")%string. constructor; auto.
    + constructor.
  - induction r; simpl; intros H; inversion H; subst; try reflexivity.
    + rewrite IHr1 by assumption. reflexivity.
    + rewrite IHr2 by assumption. apply orb_true_r.
    + match goal with E : (_ ++ _)%string = "" |- _ =>
        apply append_empty in E; destruct E; subst end.
      rewrite IHr1, IHr2 by assumption. reflexivity.
Qed.

Lemma matches_void (w : string) : ~ matches Void w.
Proof. intros H. inversion H. Qed.

Lemma matches_alt (a b : re) (w : string) :
  matches (alt a b) w <-> matches a w \/ matches b w.
Proof.
  unfold alt. split.
  - destruct a, b; intros H; auto;
      try (inversion H; subst; auto; fail).
  - intros [H|H]; destruct a, b; try (now apply matches_alt_l);
      try (now apply matches_alt_r); try assumption;
      try (now elim (matches_void w)).
Qed.

Lemma matches_cat_iff (a b : re) (w : string) :
  matches (cat a b) w <->
  exists w1 w2, w = (w1 ++ w2)%string /\ matches a w1 /\ matches b w2.
Proof.
  split.
  - unfold cat. intros H.
    destruct a; try (now elim (matches_void w));
      destruct b; try (now elim (matches_void w));
      try (inversion H; subst; eauto; fail);
      try (exists "", w; repeat split; [constructor | assumption]).
  - intros (w1 & w2 & -> & H1 & H2). unfold cat.
    destruct a; try (now elim (matches_void w1));
      destruct b; try (now elim (matches_void w2));
      try (now constructor);
      inversion H1; subst; simpl; assumption.
Qed.

(** A non-empty word of a star starts with a non-empty word of its body. *)
Lemma matches_star_cons (a : re) (c : ascii) (w : string) :
  matches (Star a) (String c w) ->
  exists w1 w2, w = (w1 ++ w2)%string /\ matches a (String c w1) /\ matches (Star a) w2.
Proof.
  remember (Star a) as r eqn:Er. remember (String c w) as s eqn:Es.
  intros H. revert a c w Er Es.
  induction H; intros; try discriminate.
  inversion Er; subst.
  destruct w1 as [|d w1]; simpl in Es.
  - eapply IHmatches2; eauto.
  - inversion Es; subst. eauto.
Qed.

(** The derivative denotes the words that follow the character. *)
Lemma deriv_matches (r : re) (c : ascii) (w : string) :
  matches (deriv c r) w <-> matches r (String c w).
Proof.
  revert w. induction r; intros w; simpl.
  - split; intros H; inversion H.
  - split; intros H; inversion H.
  - destruct (p c) eqn:E; split; intros H; inversion H; subst.
    + now constructor.
    + constructor.
    + congruence.
  - rewrite matches_alt, IHr1, IHr2. split.
    + intros [H|H]; [now apply matches_alt_l | now apply matches_alt_r].
    + intros H; inversion H; subst; auto.
  - assert (Hcat : matches (cat (deriv c r1) r2) w
                   <-> exists w1 w2, w = (w1 ++ w2)%string
                                     /\ matches r1 (String c w1) /\ matches r2 w2).
    { rewrite matches_cat_iff. split; intros (w1 & w2 & E & H1 & H2);
        exists w1, w2; repeat split; auto; now apply IHr1. }
    destruct (nullable r1) eqn:N.
    + rewrite matches_alt, Hcat, IHr2. split.
      * intros [(w1 & w2 & -> & H1 & H2)|H].
        -- change (String c (w1 ++ w2)) with (String c w1 ++ w2)%string. now constructor.
        -- change (String c w) with ("" ++ String c w)%string. constructor; [|exact H].
           now apply nullable_matches.
      * intros H. inversion H as [| | | |a b w1 w2 H1 H2 E| |]; subst.
        destruct w1 as [|d w1]; simpl in *.
        -- right. now subst.
        -- left. match goal with E : String _ _ = String _ _ |- _ => inversion E; subst end.
           eauto.
    + rewrite Hcat. split.
      * intros (w1 & w2 & -> & H1 & H2).
        change (String c (w1 ++ w2)) with (String c w1 ++ w2)%string. now constructor.
      * intros H. inversion H as [| | | |a b w1 w2 H1 H2 E| |]; subst.
        destruct w1 as [|d w1]; simpl in *.
        -- apply nullable_matches in H1. congruence.
        -- match goal with E : String _ _ = String _ _ |- _ => inversion E; subst end.
           eauto.
  - rewrite matches_cat_iff. split.
    + intros (w1 & w2 & -> & H1 & H2). apply IHr in H1.
      change (String c (w1 ++ w2)) with (String c w1 ++ w2)%string. now constructor.
    + intros H. apply matches_star_cons in H. destruct H as (w1 & w2 & -> & H1 & H2).
      exists w1, w2. repeat split; auto. now apply IHr.
Qed.

(** [re.match]: some prefix of the text is a word of the pattern. *)
Lemma match_here_matches (r : re) (s : string) :
  match_here r s = true <-> exists w rest, s = (w ++ rest)%string /\ matches r w.
Proof.
  revert r. induction s as [|c s IH]; intros r; simpl.
  - rewrite orb_false_r, nullable_matches. split.
    + intros H. exists "", "". auto.
    + intros (w & rest & E & H). symmetry in E. apply append_empty in E.
      destruct E; now subst.
  - rewrite orb_true_iff, nullable_matches, IH. split.
    + intros [H|(w & rest & -> & H)].
      * exists "", (String c s). auto.
      * exists (String c w), rest. split; [reflexivity | now apply deriv_matches].
    + intros (w & rest & E & H). destruct w as [|d w]; simpl in E.
      * now left.
      * inversion E; subst. right. exists w, rest. split; [reflexivity|].
        now apply deriv_matches.
Qed.

(** [re.search] finds a match exactly when some part of the text is a word
    of the pattern. *)
Lemma search_occurs (r : re) (s : string) :
  search r s = true <-> occurs r s.
Proof.
  unfold occurs. induction s as [|c s IH]; cbn [search].
  - rewrite orb_false_r, match_here_matches. split.
    + intros (w & rest & E & H). exists "", w, rest. auto.
    + intros (pre & w & post & E & H). symmetry in E.
      apply append_empty in E. destruct E as [-> E]. exists w, post. auto.
  - rewrite orb_true_iff, match_here_matches, IH. split.
    + intros [(w & rest & E & H)|(pre & w & post & -> & H)].
      * exists "", w, rest. auto.
      * exists (String c pre), w, post. auto.
    + intros (pre & w & post & E & H). destruct pre as [|d pre]; simpl in E.
      * left. eauto.
      * inversion E; subst. right. eauto.
Qed.

(** A word of ['|'.join(patterns)] is a word of one of the patterns. *)
Lemma matches_alts (rs : list re) (w : string) :
  matches (alts rs) w <-> exists r, In r rs /\ matches r w.
Proof.
  induction rs as [|r rs IH].
  - simpl. split; [intros H; inversion H | intros (r & [] & _)].
  - destruct rs as [|r' rs].
    + simpl. split; [eauto | intros (x & [<-|[]] & H); exact H].
    + change (alts (r :: r' :: rs)) with (Alt r (alts (r' :: rs))). split.
      * intros H. inversion H; subst.
        -- exists r. split; [now left | assumption].
        -- apply IH in H3. destruct H3 as (x & Hx & Hm). exists x. split; [now right | exact Hm].
      * intros (x & [<-|Hx] & Hm); [now apply matches_alt_l|].
        apply matches_alt_r, IH. eauto.
Qed.

Lemma occurs_alts (rs : list re) (s : string) :
  occurs (alts rs) s <-> exists r, In r rs /\ occurs r s.
Proof.
  unfold occurs. split.
  - intros (pre & w & post & E & H). apply matches_alts in H.
    destruct H as (r & Hr & Hm). exists r. split; [exact Hr|]. eauto.
  - intros (r & Hr & pre & w & post & E & Hm).
    exists pre, w, post. split; [exact E|]. apply matches_alts. eauto.
Qed.

End RegexFacts.

(** ** The validator: structure, content, acceptance *)

Section StructureFacts.

Import Text SecureCSVValidator Notions.


Lemma find_wide_first (before after : list (list string)) (row : list string) (k : nat) :
  Forall (fun r => (llen r <= 50)%Z) before ->
  (50 < llen row)%Z ->
  find (fun ir => (50 <? llen (snd ir))%Z) (enumerate k (before ++ row :: after))
  = Some (k + List.length before, row).
Proof.
  intros Hb Hr. revert k. induction Hb as [|r before Hr0 Hb IH]; intros k; simpl.
  - apply Z.ltb_lt in Hr. rewrite Hr. now rewrite Nat.add_0_r.
  - apply Z.ltb_ge in Hr0. rewrite Hr0, IH. f_equal. f_equal. lia.
Qed.

(** The accepted result carries the number of rows as [rows_processed]. *)
Lemma validate_csv_structure_rows (content : string) :
  valid (_validate_csv_structure content) = true ->
  exists rows, Csv.read content = inr rows
               /\ rows_processed (_validate_csv_structure content) = Some (llen rows).
Proof.
  unfold _validate_csv_structure.
  destruct (Csv.read content) as [e|rows]; [discriminate|].
  destruct rows as [|row0 rest] eqn:Erows; [discriminate|]. rewrite <- Erows.
  destruct (find _ (enumerate 0 rows)) as [[i row]|]; [discriminate|].
  destruct (10000 <? llen rows)%Z; [discriminate|].
  intros _. exists rows. split; reflexivity.
Qed.


(** X2.  The column check of [_validate_csv_structure] comes before the row
    check and stops at the first row of more than 50 cells: the result names
    that row, counted from 1, and its width, whatever follows it and however
    many rows the file has. *)
Theorem validate_csv_structure_first_wide_row
  (content : string) (before after : list (list string)) (row : list string) :
  Csv.read content = inr (before ++ row :: after) ->
  Forall (fun r => (llen r <= 50)%Z) before ->
  (50 < llen row)%Z ->
  _validate_csv_structure content
  = rejected ("Row " ++ str_of_nat (List.length before + 1)
              ++ " has too many columns (" ++ str_of_Z (llen row)
              ++ "). Maximum allowed: 50")
             "excessive_columns".
Proof.
  intros E Hb Hr. unfold _validate_csv_structure. rewrite E.
  destruct (before ++ row :: after) as [|r0 rest] eqn:Erows.
  - now destruct before.
  - rewrite <- Erows. rewrite (find_wide_first before after row 0 Hb Hr).
    reflexivity.
Qed.

(** A header row, then a row of 51 empty cells. *)
Lemma validate_csv_structure_first_wide_row_witness :
  let content :=
    ("entry" ++ String LF ",,,,,,,,,,,,,,,,,,,,,,,,,,,,,,,,,,,,,,,,,,,,,,,,,,")%string in
  Csv.read content = inr ([["entry"]] ++ repeat "" 51 :: []) /\
  _validate_csv_structure content
  = rejected "Row 2 has too many columns (51). Maximum allowed: 50" "excessive_columns".
Proof.
  cbv zeta.
  assert (E : Csv.read ("entry" ++ String LF ",,,,,,,,,,,,,,,,,,,,,,,,,,,,,,,,,,,,,,,,,,,,,,,,,,")%string
              = inr ([["entry"]] ++ repeat "" 51 :: [])) by (vm_compute; reflexivity).
  split; [exact E|].
  apply (validate_csv_structure_first_wide_row _ [["entry"]] [] (repeat "" 51) E).
  - repeat constructor. vm_compute. discriminate.
  - vm_compute. reflexivity.
Defined.

Lemma flat_map_nil {A B : Type} (f : A -> list B) (l : list A) :
  flat_map f l = [] <-> Forall (fun x => f x = []) l.
Proof.
  induction l as [|x l IH]; simpl.
  - split; [constructor | reflexivity].
  - split.
    + intros H. apply app_eq_nil in H. destruct H as [H1 H2].
      constructor; [exact H1 | now apply IH].
    + intros H. inversion H as [|? ? H1 H2]; subst.
      rewrite H1. simpl. now apply IH.
Qed.

Lemma Forall_enumerate {A : Type} (P : A -> Prop) (l : list A) (k : nat) :
  Forall (fun ix => P (snd ix)) (enumerate k l) <-> Forall P l.
Proof.
  revert k. induction l as [|x l IH]; intros k; simpl.
  - split; constructor.
  - split; intros H; inversion H; subst; constructor; auto; now apply (IH (S k)).
Qed.

Lemma Forall_equiv {A : Type} (P Q : A -> Prop) (l : list A) :
  (forall x, P x <-> Q x) -> (Forall P l <-> Forall Q l).
Proof.
  intros H. split; apply Forall_impl; intros x; apply H.
Qed.

(** A cell adds no issue exactly when the three checks find nothing. *)
Lemma cell_issues_nil (row_num col_num : nat) (cell : string) :
  cell_issues row_num col_num cell = [] <-> clean_cell cell.
Proof.
  unfold cell_issues, clean_cell.
  destruct cell as [|c t] eqn:Ecell.
  - cbn. split; [intros _; repeat split; discriminate | reflexivity].
  - cbn [is_empty]. rewrite <- Ecell.
    destruct (_check_csv_injection cell) as [i|].
    + split; [discriminate | intros (H & _); discriminate].
    + destruct (_check_xss_payload cell) as [x|].
      * split; [discriminate | intros (_ & H & _); discriminate].
      * destruct (1000 <? len cell)%Z eqn:E.
        -- apply Z.ltb_lt in E. split; [discriminate | intros (_ & _ & H); lia].
        -- apply Z.ltb_ge in E. simpl. tauto.
Qed.

Lemma row_issues_nil (row_num : nat) (row : list string) :
  row_issues row_num row = [] <-> Forall clean_cell row.
Proof.
  unfold row_issues. rewrite flat_map_nil.
  rewrite <- (Forall_enumerate clean_cell row 1).
  apply Forall_equiv. intros [j c]. apply cell_issues_nil.
Qed.

Lemma all_issues_nil (rows : list (list string)) :
  all_issues rows = [] <-> Forall (Forall clean_cell) rows.
Proof.
  unfold all_issues. rewrite flat_map_nil.
  rewrite <- (Forall_enumerate (Forall clean_cell) rows 1).
  apply Forall_equiv. intros [i row]. apply row_issues_nil.
Qed.

(** X3.  [_validate_content_security] accepts exactly the texts that
    [csv.reader] parses without error and in which every cell passes the
    three checks: no CSV-injection tag, no XSS tag, at most 1000 characters. *)
Theorem validate_content_security_accepts (content : string) :
  valid (_validate_content_security content) = true <->
  exists rows, Csv.read content = inr rows /\ Forall (Forall clean_cell) rows.
Proof.
  unfold _validate_content_security.
  destruct (Csv.read content) as [e|rows].
  - split; [discriminate | intros (rows & E & _); discriminate].
  - destruct (all_issues rows) as [|i l] eqn:E.
    + split; [|reflexivity]. intros _. exists rows. split; [reflexivity|].
      now apply all_issues_nil.
    + split; [discriminate|]. intros (rows' & E' & H). inversion E'; subst rows'.
      apply all_issues_nil in H. congruence.
Qed.

(** The result of an accepted upload. *)
Lemma validate_file_security_valid_result
  (self : validator) (file_content filename : string) :
  valid (validate_file_security self file_content filename) = true ->
  (len file_content <= max_file_size self)%Z /\
  (filename = "" \/ endswith (lower filename) ".csv" = true) /\
  valid (_validate_csv_structure file_content) = true /\
  valid (_validate_content_security file_content) = true /\
  exists rows,
    Csv.read file_content = inr rows /\
    validate_file_security self file_content filename
    = mk_result true None None None (Some (len file_content))
        (Some (Sha256.hexdigest file_content)) (Some (llen rows)) (Some true).
Proof.
  unfold validate_file_security.
  destruct (max_file_size self <? len file_content)%Z eqn:Esize; [discriminate|].
  apply Z.ltb_ge in Esize.
  destruct (negb (is_empty filename) && negb (endswith (lower filename) ".csv"))
    eqn:Eext; [discriminate|].
  assert (Hext : filename = "" \/ endswith (lower filename) ".csv" = true).
  { apply andb_false_iff in Eext. destruct Eext as [E|E];
      apply negb_false_iff in E; [left | now right].
    now destruct filename. }
  destruct (valid (_validate_csv_structure file_content)) eqn:Hs; cbn [negb];
    [|intros H; rewrite Hs in H; discriminate].
  destruct (valid (_validate_content_security file_content)) eqn:Hc; cbn [negb];
    [|intros H; rewrite Hc in H; discriminate].
  intros _. repeat split; auto.
  apply validate_csv_structure_rows in Hs.
  destruct Hs as (rows & E & R). exists rows. split; [exact E|].
  now rewrite R.
Qed.


End StructureFacts.

(** ** The validator: the cell checks and the sanitizer *)

Section CellFacts.

Import Text SecureCSVValidator Notions.

Lemma startswith_char (s : string) (c : ascii) :
  startswith s (String c "") = true <-> exists rest, s = String c rest.
Proof.
  unfold startswith. destruct s as [|d t]; simpl.
  - split; [discriminate | intros (rest & E); discriminate].
  - destruct (ascii_dec c d) as [->|ne].
    + split; [eauto | now destruct t].
    + split; [discriminate | intros (rest & E); inversion E; congruence].
Qed.

(** The search of the prefix loop: on a stripped cell that starts with one of
    the four one-character prefixes it stops at that prefix; the three
    prefixes that start with white space never match a stripped cell. *)
Lemma find_prefix (cell : string) :
  match find (fun prefix => startswith (strip cell) prefix) DANGEROUS_PREFIXES with
  | Some prefix =>
      exists c rest, In c ["="; "+"; "-"; "@"]%char /\ prefix = String c ""
                     /\ strip cell = String c rest
  | None =>
      forall c rest, In c ["="; "+"; "-"; "@"]%char -> strip cell <> String c rest
  end.
Proof.
  unfold DANGEROUS_PREFIXES. cbn [find].
  rewrite (startswith_space cell TAB "=" eq_refl),
          (startswith_space cell CR "=" eq_refl),
          (startswith_space cell LF "=" eq_refl).
  repeat match goal with
  | |- context [startswith (strip cell) (String ?c "")] =>
      let E := fresh "E" in
      destruct (startswith (strip cell) (String c "")) eqn:E;
      [ apply startswith_char in E; destruct E as (rest & E);
        exists c, rest; repeat split; [simpl; tauto | exact E] | ]
  end.
  intros c rest Hc Hs.
  assert (S : startswith (strip cell) (String c "") = true)
    by (apply startswith_char; eauto).
  simpl in Hc. destruct Hc as [<-|[<-|[<-|[<-|[]]]]]; congruence.
Qed.

(** X5.  The prefix rule of [_check_csv_injection], for every cell: the tag
    is [dangerous_prefix_] followed by the character [c] exactly when [c] is
    one of [=], [+], [-], [@] and is the first character of the cell once
    leading white space is stripped.  (The prefixes of the list that begin
    with a tab, a carriage return or a line feed can never be the one
    reported.) *)
Theorem check_csv_injection_prefix (cell : string) (c : ascii) :
  _check_csv_injection cell = Some ("dangerous_prefix_" ++ String c "")%string
  <-> In c ["="; "+"; "-"; "@"]%char /\ exists rest, strip cell = String c rest.
Proof.
  unfold _check_csv_injection.
  destruct cell as [|c0 t0] eqn:Ecell.
  - cbn. split; [discriminate | intros (_ & rest & E); discriminate].
  - cbn [is_empty]. rewrite <- Ecell. clear Ecell c0 t0.
    pose proof (find_prefix cell) as F.
    destruct (find (fun prefix => startswith (strip cell) prefix) DANGEROUS_PREFIXES)
      as [prefix|].
    + destruct F as (d & rest & Hd & -> & Hs).
      assert (Hstrip : strip (String d "") = String d "").
      { simpl in Hd. destruct Hd as [<-|[<-|[<-|[<-|[]]]]]; reflexivity. }
      rewrite Hstrip. split.
      * intros H. inversion H; subst. split; [exact Hd | eauto].
      * intros (_ & rest' & E). rewrite Hs in E. inversion E; subst. reflexivity.
    + split.
      * destruct (find _ DANGEROUS_FUNCTIONS) as [func|].
        -- intros H. inversion H.
        -- destruct (Regex.search formula_regex cell); intros H; inversion H.
      * intros (Hc & rest & E). elim (F c rest Hc E).
Qed.

(** X6.  [_check_xss_payload] answers [xss_pattern_detected] exactly on the
    non-empty cells some part of which is a word of one of the ten patterns
    of [XSS_PATTERNS] (letter case ignored, the dot matching every
    character). *)
Theorem check_xss_payload_pattern (cell : string) :
  _check_xss_payload cell = Some "xss_pattern_detected"
  <-> cell <> "" /\ exists r, In r XSS_PATTERNS /\ occurs r cell.
Proof.
  unfold _check_xss_payload.
  destruct cell as [|c t] eqn:Ecell.
  - cbn. split; [discriminate | intros (H & _); now elim H].
  - cbn [is_empty]. rewrite <- Ecell.
    destruct (Regex.search xss_regex cell) eqn:S.
    + apply search_occurs in S. unfold xss_regex in S. apply occurs_alts in S.
      split; [|reflexivity]. intros _. split; [subst; discriminate | exact S].
    + split.
      * intros H.
        destruct (match Html.unescape cell with
                  | Some decoded =>
                      negb (String.eqb decoded cell) && Regex.search xss_regex decoded
                  | None => false
                  end); [discriminate|].
        destruct (3 <? suspicious_count cell)%Z; discriminate.
      * intros (_ & H). apply occurs_alts in H. apply search_occurs in H.
        unfold xss_regex in S. congruence.
Qed.

(** ** [sanitize_cell_content] *)

Lemma every_app (p : ascii -> bool) (a b : string) :
  every p (a ++ b) = every p a && every p b.
Proof.
  induction a as [|c a IH]; simpl; [reflexivity|].
  now rewrite IH, andb_assoc.
Qed.

Lemma every_drop (p : ascii -> bool) (n : nat) (s : string) :
  every p s = true -> every p (Regex.drop n s) = true.
Proof.
  revert s. induction n as [|n IH]; intros s H; destruct s as [|c t]; simpl; auto.
  simpl in H. apply andb_true_iff in H. now apply IH.
Qed.

Lemma every_take (p : ascii -> bool) (n : nat) (s : string) :
  every p s = true -> every p (take n s) = true.
Proof.
  unfold take. revert s. induction n as [|n IH]; intros s H.
  - now destruct s.
  - destruct s as [|c t]; simpl; [reflexivity|].
    simpl in H. apply andb_true_iff in H. destruct H as [H1 H2].
    now rewrite H1, (IH t H2).
Qed.

(** A substitution brings in no character that neither the text nor the
    replacement has. *)
Lemma every_sub_fuel (p : ascii -> bool) (r : Regex.re) (repl : string)
  (fuel : nat) (s : string) :
  every p repl = true -> every p s = true ->
  every p (Regex.sub_fuel fuel r repl s) = true.
Proof.
  intros Hr. revert s. induction fuel as [|f IH]; intros s Hs; [now destruct s|].
  destruct s as [|c t]; [reflexivity|].
  cbn [Regex.sub_fuel].
  pose proof Hs as Hs'. simpl in Hs'. apply andb_true_iff in Hs'.
  destruct Hs' as [Hc Ht].
  destruct (Regex.match_len r (String c t)) as [[|m]|].
  - simpl. now rewrite Hc, IH.
  - rewrite every_app, Hr. simpl. apply IH. now apply every_drop.
  - simpl. now rewrite Hc, IH.
Qed.

Lemma every_sub (p : ascii -> bool) (r : Regex.re) (repl s : string) :
  every p repl = true -> every p s = true -> every p (Regex.sub r repl s) = true.
Proof. apply every_sub_fuel. Qed.

Lemma has_char_every (c : ascii) (s : string) :
  has_char c s = false <-> every (fun d => negb (Ascii.eqb c d)) s = true.
Proof.
  induction s as [|d s IH]; simpl; [tauto|].
  rewrite orb_false_iff, andb_true_iff, negb_true_iff, IH. tauto.
Qed.

(** [html.escape] leaves no angle bracket and no quote. *)
Lemma every_escape (c : ascii) (s : string) :
  In c markup_chars ->
  every (fun d => negb (Ascii.eqb c d)) (Html.escape s) = true.
Proof.
  intros Hc. induction s as [|d s IH]; simpl; [reflexivity|].
  rewrite every_app, IH, andb_true_r.
  unfold Html.escape_char.
  assert (Hfix : forall w : string,
             w = "&amp;" \/ w = "&lt;" \/ w = "&gt;" \/ w = "&quot;" \/ w = "&#x27;" ->
             every (fun d => negb (Ascii.eqb c d)) w = true).
  { intros w Hw. simpl in Hc.
    destruct Hc as [<-|[<-|[<-|[<-|[]]]]];
      destruct Hw as [->|[->|[->|[->| ->]]]]; reflexivity. }
  destruct (Ascii.eqb d "&") eqn:E1; [apply Hfix; tauto|].
  destruct (Ascii.eqb d "<") eqn:E2; [apply Hfix; tauto|].
  destruct (Ascii.eqb d ">") eqn:E3; [apply Hfix; tauto|].
  destruct (Ascii.eqb d QUOTE) eqn:E4; [apply Hfix; tauto|].
  destruct (Ascii.eqb d "'") eqn:E5; [apply Hfix; tauto|].
  simpl. rewrite andb_true_r. apply negb_true_iff.
  simpl in Hc. destruct Hc as [<-|[<-|[<-|[<-|[]]]]];
    rewrite Ascii.eqb_sym; assumption.
Qed.

(** The sanitizer leaves no angle bracket and no quote. *)
Lemma sanitize_cell_content_markup_free (cell : string) (c : ascii) :
  In c markup_chars -> has_char c (sanitize_cell_content cell) = false.
Proof.
  intros Hc. unfold sanitize_cell_content.
  destruct cell as [|c0 t0] eqn:Ecell; [reflexivity|].
  cbn [is_empty]. rewrite <- Ecell. clear Ecell c0 t0.
  apply has_char_every.
  set (p := fun d => negb (Ascii.eqb c d)).
  assert (Hlit : forall w : string,
             w = "javascript_" \/ w = "vbscript_" \/ w = "" \/ w = "..." ->
             every p w = true).
  { intros w Hw. subst p. simpl in Hc.
    destruct Hc as [<-|[<-|[<-|[<-|[]]]]];
      destruct Hw as [->|[->|[->| ->]]]; reflexivity. }
  assert (H : every p
                (Regex.sub handler_regex ""
                   (Regex.sub (Regex.lit_ci "vbscript:") "vbscript_"
                      (Regex.sub (Regex.lit_ci "javascript:") "javascript_"
                         (Html.escape (remove_prefixes cell))))) = true).
  { apply every_sub; [apply Hlit; tauto|].
    apply every_sub; [apply Hlit; tauto|].
    apply every_sub; [apply Hlit; tauto|].
    now apply every_escape. }
  destruct (1000 <? len _)%Z; [|exact H].
  rewrite every_app, every_take by exact H. apply Hlit. tauto.
Qed.

(** X7.  What [sanitize_cell_content] returns holds no angle bracket and no
    quote character, single or double, whatever the cell. *)
Theorem sanitize_cell_content_no_markup (cell : string) :
  has_char "<" (sanitize_cell_content cell) = false /\
  has_char ">" (sanitize_cell_content cell) = false /\
  has_char QUOTE (sanitize_cell_content cell) = false /\
  has_char "'" (sanitize_cell_content cell) = false.
Proof.
  repeat split; apply sanitize_cell_content_markup_free; simpl; tauto.
Qed.

(** A cell of markup with an event handler: the brackets and quotes are
    encoded and the handler is cut out. *)
Example sanitize_cell_content_markup :
  sanitize_cell_content "<b onclick=x>'hi'</b>" = "&lt;b x&gt;&#x27;hi&#x27;&lt;/b&gt;".
Proof. vm_compute. reflexivity. Qed.

Lemma length_app (a b : string) :
  String.length (a ++ b) = String.length a + String.length b.
Proof. induction a; simpl; congruence. Qed.

Lemma length_take (n : nat) (s : string) : String.length (take n s) <= n.
Proof.
  unfold take. revert s. induction n as [|n IH]; intros s.
  - now destruct s.
  - destruct s as [|c t]; simpl; [lia|]. specialize (IH t). lia.
Qed.

(** X8.  What [sanitize_cell_content] returns has at most 1003 characters:
    1000 of the cleaned cell and the three dots of the cut. *)
Theorem sanitize_cell_content_length (cell : string) :
  (len (sanitize_cell_content cell) <= 1003)%Z.
Proof.
  unfold sanitize_cell_content.
  destruct cell as [|c0 t0] eqn:Ecell; [vm_compute; discriminate|].
  cbn [is_empty]. rewrite <- Ecell. clear Ecell c0 t0.
  destruct (1000 <? len _)%Z eqn:E.
  - unfold len. rewrite length_app.
    pose proof (length_take 1000
                  (Regex.sub handler_regex ""
                     (Regex.sub (Regex.lit_ci "vbscript:") "vbscript_"
                        (Regex.sub (Regex.lit_ci "javascript:") "javascript_"
                           (Html.escape (remove_prefixes cell)))))) as L.
    change (String.length "...") with 3. lia.
  - apply Z.ltb_ge in E. lia.
Qed.

End CellFacts.

(** ** [process_secure_csv] *)

Section ProcessFacts.

Import Text SecureCSVValidator Notions.

Lemma every_lstrip (p : ascii -> bool) (s : string) :
  every p s = true -> every p (lstrip s) = true.
Proof.
  induction s as [|c s IH]; simpl; [reflexivity|].
  intros H. destruct (is_space c); [|exact H].
  apply andb_true_iff in H. now apply IH.
Qed.

Lemma every_rstrip (p : ascii -> bool) (s : string) :
  every p s = true -> every p (rstrip s) = true.
Proof.
  induction s as [|c s IH]; simpl; [reflexivity|].
  intros H. apply andb_true_iff in H. destruct H as [Hc Hs].
  specialize (IH Hs).
  destruct (rstrip s) as [|d t].
  - destruct (is_space c); simpl; [reflexivity | now rewrite Hc].
  - change (every p (String c (String d t)) = true).
    cbn [every]. cbn [every] in IH. now rewrite Hc, IH.
Qed.

Lemma every_strip (p : ascii -> bool) (s : string) :
  every p s = true -> every p (strip s) = true.
Proof. intros H. now apply every_rstrip, every_lstrip. Qed.

(** X9.  [process_secure_csv] hands back the result of
    [validate_file_security] unchanged when that result is not valid.  When
    it is valid, the second parse of the same text cannot fail, so the
    [except] branch is not taken: the result is the processed dictionary,
    whose [total_rows] is the number of parsed rows less the header,
    [valid_entries] the number of entries, and [file_hash] the SHA-256
    digest of the content. *)
Theorem process_secure_csv_outcome (self : validator) (content filename : string) :
  (valid (validate_file_security self content filename) = false ->
   process_secure_csv self content filename
   = Refused (validate_file_security self content filename))
  /\
  (valid (validate_file_security self content filename) = true ->
   exists rows entries,
     Csv.read content = inr rows /\
     process_secure_csv self content filename
     = Processed entries (llen rows - 1)%Z (llen entries) (Sha256.hexdigest content)).
Proof.
  unfold process_secure_csv. split; intros V.
  - now rewrite V.
  - rewrite V. cbn [negb].
    apply validate_file_security_valid_result in V.
    destruct V as (_ & _ & _ & _ & rows & E & R).
    rewrite E, R. cbn [file_hash].
    exists rows. eexists. split; [reflexivity|].
    unfold llen. rewrite (length_map (map sanitize_cell_content) rows).
    reflexivity.
Qed.

(** X10.  Every entry [process_secure_csv] returns is non-empty and holds no
    angle bracket and no quote character: it is a sanitized cell, stripped. *)
Theorem process_secure_csv_entries
  (self : validator) (content filename : string)
  (entries : list string) (total_rows valid_entries : Z) (file_hash : string) :
  process_secure_csv self content filename
  = Processed entries total_rows valid_entries file_hash ->
  Forall (fun entry =>
            entry <> "" /\
            Forall (fun c => has_char c entry = false) markup_chars)
         entries.
Proof.
  unfold process_secure_csv.
  destruct (negb (valid (validate_file_security self content filename)));
    [discriminate|].
  destruct (Csv.read content) as [e|rows]; [discriminate|].
  intros H. inversion H as [[He Ht Hv Hh]]. clear H Ht Hv Hh He.
  apply Forall_forall. intros entry Hin.
  apply in_flat_map in Hin. destruct Hin as (row & Hrow & Hin).
  destruct (entry_column _ <? List.length row) eqn:Hk; [|destruct Hin].
  cbn [andb] in Hin.
  destruct (is_empty (strip (nth _ row ""))) eqn:Hne; [destruct Hin|].
  destruct Hin as [<-|[]]. split.
  - intros E. rewrite E in Hne. discriminate.
  - apply Forall_forall. intros c Hc.
    apply has_char_every, every_strip, has_char_every.
    assert (Hrow' : In row (map (map sanitize_cell_content) rows)).
    { destruct (map (map sanitize_cell_content) rows); [destruct Hrow|].
      now right. }
    apply in_map_iff in Hrow'. destruct Hrow' as (row0 & <- & _).
    apply Nat.ltb_lt in Hk.
    pose proof (nth_In _ "" Hk) as Hcell.
    apply in_map_iff in Hcell. destruct Hcell as (cell & <- & _).
    now apply sanitize_cell_content_markup_free.
Qed.

(** An upload with a cell of markup, under a [name] header. *)
Lemma process_secure_csv_entries_witness :
  let content := ("name,weight" ++ String LF "<b>Ann</b>,1")%string in
  process_secure_csv default_validator content "wheel.csv"
  = Processed ["&lt;b&gt;Ann&lt;/b&gt;"] 1 1 (Sha256.hexdigest content) /\
  Forall (fun entry =>
            entry <> "" /\
            Forall (fun c => has_char c entry = false) markup_chars)
         ["&lt;b&gt;Ann&lt;/b&gt;"].
Proof.
  cbv zeta.
  assert (E : process_secure_csv default_validator
                ("name,weight" ++ String LF "<b>Ann</b>,1")%string "wheel.csv"
              = Processed ["&lt;b&gt;Ann&lt;/b&gt;"] 1 1
                  (Sha256.hexdigest ("name,weight" ++ String LF "<b>Ann</b>,1")%string))
    by (vm_compute; reflexivity).
  split; [exact E|].
  exact (process_secure_csv_entries _ _ _ _ _ _ _ E).
Defined.

End ProcessFacts.

(** ** The CSV adapter: accepted files, imports, integrity reports, file names *)

Section CSVServiceCoverage.

Import Text Py CSVService Notions.

Lemma rstrip_idempotent (s : string) : rstrip (rstrip s) = rstrip s.
Proof.
  induction s as [|c s IH]; simpl; [reflexivity|].
  destruct (rstrip s) as [|d t] eqn:E.
  - destruct (is_space c) eqn:Ec; simpl; [reflexivity | now rewrite Ec].
  - change (rstrip (String c (String d t)) = String c (String d t)).
    cbn [rstrip]. cbn [rstrip] in IH. now rewrite IH.
Qed.

Lemma lstrip_fixed (s : string) :
  (forall c t, s = String c t -> is_space c = false) -> lstrip s = s.
Proof.
  destruct s as [|c t]; simpl; [reflexivity|].
  intros H. now rewrite (H c t eq_refl).
Qed.

(** [s.strip().strip() == s.strip()] *)
Lemma strip_idempotent (s : string) : strip (strip s) = strip s.
Proof.
  unfold strip at 1. rewrite lstrip_fixed.
  - apply rstrip_idempotent.
  - intros c t E. exact (strip_head s c t E).
Qed.

(** What the loop over the data rows collects: names that are stripped,
    non-empty and of at most 100 characters. *)
Lemma scan_names (headers : list string) (rows : list (list string)) (start : nat) :
  Forall (fun name => name <> "" /\ (len name <= 100)%Z /\ strip name = name)
         (fst (scan headers start rows)).
Proof.
  revert start. induction rows as [|row rows IH]; intros start; simpl.
  - constructor.
  - specialize (IH (S start)).
    destruct (scan headers (S start) rows) as [names messages].
    unfold check_row.
    destruct (is_blank_row row); [exact IH|].
    destruct (is_empty (entry_name_of headers row)) eqn:E1; [exact IH|].
    destruct (100 <? len (entry_name_of headers row))%Z eqn:E2; [exact IH|].
    constructor; [|exact IH].
    apply Z.ltb_ge in E2. repeat split.
    + intros E. rewrite E in E1. discriminate.
    + exact E2.
    + unfold entry_name_of.
      destruct (find _ (enumerate 0 headers)) as [[j h]|];
        [apply strip_idempotent | reflexivity].
Qed.

(** Every data row gives at most one name or one message. *)
Lemma scan_counts (headers : list string) (rows : list (list string)) (start : nat) :
  List.length (fst (scan headers start rows)) + List.length (snd (scan headers start rows))
  <= List.length rows.
Proof.
  revert start. induction rows as [|row rows IH]; intros start; simpl; [lia|].
  specialize (IH (S start)).
  destruct (scan headers (S start) rows) as [names messages].
  destruct (check_row headers start row); simpl in *; lia.
Qed.

(** The shape of an accepted result. *)
Lemma validate_csv_file_valid (self : service) (file_content : string) :
  valid (validate_csv_file self file_content) = true ->
  exists names messages total,
    validate_csv_file self file_content
    = mk_result true None (Some names) (Some total) (Some (llen names)) (Some messages)
    /\ names <> []
    /\ Forall (fun name => name <> "" /\ (len name <= 100)%Z /\ strip name = name) names
    /\ (llen names + llen messages <= total)%Z.
Proof.
  unfold validate_csv_file.
  destruct (max_file_size self <? len file_content)%Z; [discriminate|].
  destruct (Csv.read file_content) as [e|[|row0 data_rows]]; try discriminate.
  destruct (negb (existsb _ required_headers)); [discriminate|].
  pose proof (scan_names (map (fun h => lower (strip h)) row0) data_rows 2) as Hn.
  pose proof (scan_counts (map (fun h => lower (strip h)) row0) data_rows 2) as Hc.
  destruct (scan (map (fun h => lower (strip h)) row0) 2 data_rows) as [names messages].
  destruct names as [|n names]; [discriminate|].
  intros _. exists (n :: names), messages, (llen (row0 :: data_rows) - 1)%Z.
  repeat split; [discriminate | exact Hn |].
  unfold llen in *. cbn [fst snd] in Hc. cbn [List.length] in *. lia.
Qed.

(** X11.  A file [validate_csv_file] accepts has at least one entry; every
    entry is non-empty, has at most 100 characters and neither starts nor
    ends with white space; [valid_entries] is the number of entries; and the
    entries and the warnings together are at most [total_rows]. *)
Theorem validate_csv_file_accepted (self : service) (file_content : string) :
  valid (validate_csv_file self file_content) = true ->
  exists names messages total,
    entries (validate_csv_file self file_content) = Some names /\
    errors (validate_csv_file self file_content) = Some messages /\
    total_rows (validate_csv_file self file_content) = Some total /\
    valid_entries (validate_csv_file self file_content) = Some (llen names) /\
    names <> [] /\
    Forall (fun name => name <> "" /\ (len name <= 100)%Z /\ strip name = name) names /\
    (llen names + llen messages <= total)%Z.
Proof.
  intros V. destruct (validate_csv_file_valid self file_content V)
    as (names & messages & total & E & Hne & Hall & Hlen).
  exists names, messages, total. rewrite E. repeat split; assumption.
Qed.

(** Two data rows with padded names, a row without a name and a blank one. *)
Lemma validate_csv_file_accepted_witness :
  let content :=
    ("Name,Weight" ++ String LF ("  Ann ,1" ++ String LF (",2" ++ String LF
     (" , " ++ String LF "Bob,3"))))%string in
  validate_csv_file csv_service content
  = mk_result true None (Some ["Ann"; "Bob"]) (Some 4%Z) (Some 2%Z)
      (Some ["Row 3: Missing entry name"]) /\
  exists names messages total,
    entries (validate_csv_file csv_service content) = Some names /\
    errors (validate_csv_file csv_service content) = Some messages /\
    total_rows (validate_csv_file csv_service content) = Some total /\
    valid_entries (validate_csv_file csv_service content) = Some (llen names) /\
    names <> [] /\
    Forall (fun name => name <> "" /\ (len name <= 100)%Z /\ strip name = name) names /\
    (llen names + llen messages <= total)%Z.
Proof.
  cbv zeta. split; [vm_compute; reflexivity|].
  apply validate_csv_file_accepted. vm_compute. reflexivity.
Defined.

(** X12.  [import_csv] succeeds exactly when [validate_csv_file] accepts the
    file.  A failed import carries the validation's error and nothing else;
    a successful one carries the validation's entries, their number as
    [imported_count] (at least 1), and the validation's messages as
    [warnings], with [imported_count] and the warnings together at most
    [total_rows]. *)
Theorem import_csv_result (self : service) (file_content : string) :
  success (import_csv self file_content) = valid (validate_csv_file self file_content)
  /\
  (success (import_csv self file_content) = false ->
   import_csv self file_content
   = mk_import_result false (error (validate_csv_file self file_content))
       None None None None)
  /\
  (success (import_csv self file_content) = true ->
   exists names messages total,
     import_csv self file_content
     = mk_import_result true None (Some names) (Some (llen names)) (Some total)
         (Some messages)
     /\ entries (validate_csv_file self file_content) = Some names
     /\ errors (validate_csv_file self file_content) = Some messages
     /\ (1 <= llen names)%Z
     /\ (llen names + llen messages <= total)%Z).
Proof.
  unfold import_csv.
  destruct (valid (validate_csv_file self file_content)) eqn:V; cbn [negb success].
  - split; [reflexivity|]. split; [discriminate|]. intros _.
    destruct (validate_csv_file_valid self file_content V)
      as (names & messages & total & E & Hne & _ & Hlen).
    exists names, messages, total. rewrite E. cbn.
    repeat split; [|exact Hlen].
    destruct names; [now elim Hne | unfold llen; simpl; lia].
  - split; [reflexivity|]. split; [reflexivity | discriminate].
Qed.

(** ** [validate_data_integrity] *)

Lemma difference_In (a b : list string) (x : string) :
  In x (difference a b) <-> In x a /\ ~ In x b.
Proof.
  unfold difference. rewrite filter_In, negb_true_iff.
  split; intros [H1 H2]; (split; [exact H1|]).
  - intros Hin. apply mem_In in Hin. congruence.
  - destruct (mem x b) eqn:E; [|reflexivity].
    apply mem_In in E. contradiction.
Qed.

Lemma llen_zero {A : Type} (l : list A) : (llen l =? 0)%Z = true <-> l = [].
Proof.
  unfold llen. destruct l; cbn [List.length]; [split; reflexivity|].
  rewrite Z.eqb_eq. split; [lia | discriminate].
Qed.

(** X13.  In the report of [validate_data_integrity], [missing_entries]
    lists, each once, the entries of the original list that the processed
    list lacks, [extra_entries] those of the processed list that the
    original lacks, and [passed] is true exactly when the two lists have the
    same entries, whatever their order and repeats. *)
Theorem validate_data_integrity_report (original_data processed_data : list string) :
  let report := validate_data_integrity original_data processed_data in
  (forall x, In x (missing_entries report)
             <-> In x original_data /\ ~ In x processed_data) /\
  (forall x, In x (extra_entries report)
             <-> In x processed_data /\ ~ In x original_data) /\
  NoDup (missing_entries report) /\
  NoDup (extra_entries report) /\
  (passed report = true <-> forall x, In x original_data <-> In x processed_data).
Proof.
  cbv zeta. unfold validate_data_integrity.
  cbn [missing_entries extra_entries passed].
  assert (M : forall x, In x (difference (set_of original_data) (set_of processed_data))
                        <-> In x original_data /\ ~ In x processed_data).
  { intros x. rewrite difference_In. unfold set_of. now rewrite !nodup_In. }
  assert (E : forall x, In x (difference (set_of processed_data) (set_of original_data))
                        <-> In x processed_data /\ ~ In x original_data).
  { intros x. rewrite difference_In. unfold set_of. now rewrite !nodup_In. }
  split; [exact M|]. split; [exact E|].
  split; [apply NoDup_filter, NoDup_nodup|].
  split; [apply NoDup_filter, NoDup_nodup|].
  rewrite andb_true_iff, !llen_zero. split.
  - intros [Hm He] x.
    pose proof (M x) as Mx. pose proof (E x) as Ex. rewrite Hm in Mx. rewrite He in Ex.
    simpl in Mx, Ex.
    destruct (in_dec string_dec x original_data), (in_dec string_dec x processed_data);
      tauto.
  - intros H. split.
    + destruct (difference (set_of original_data) (set_of processed_data)) as [|x l] eqn:D;
        [reflexivity|].
      assert (Hx : In x (x :: l)) by now left.
      apply M in Hx. destruct Hx as [H1 H2]. now apply H in H1.
    + destruct (difference (set_of processed_data) (set_of original_data)) as [|x l] eqn:D;
        [reflexivity|].
      assert (Hx : In x (x :: l)) by now left.
      apply E in Hx. destruct Hx as [H1 H2]. now apply H in H1.
Qed.

Lemma intersection_In (a b : list string) (x : string) :
  In x (intersection a b) <-> In x a /\ In x b.
Proof.
  unfold intersection. now rewrite filter_In, mem_In.
Qed.

(** X14.  The [integrity_score] of [validate_data_integrity] is 1 exactly
    when no entry of the original list is missing from the processed list:
    entries the processed list has in addition do not lower it. *)
Theorem validate_data_integrity_score (original_data processed_data : list string) :
  (integrity_score (validate_data_integrity original_data processed_data) == 1)%Q
  <-> incl original_data processed_data.
Proof.
  unfold validate_data_integrity. cbn [integrity_score].
  destruct original_data as [|x0 X0] eqn:EX.
  - split; [intros _ x [] | reflexivity].
  - rewrite <- EX.
    assert (Hne : original_data <> []) by (subst; discriminate).
    clear EX x0 X0.
    pose proof (set_of_nonempty original_data Hne) as Hpos.
    set (I := intersection (set_of processed_data) (set_of original_data)).
    assert (HI : incl I (set_of original_data)).
    { intros x Hx. apply intersection_In in Hx. tauto. }
    assert (NI : NoDup I) by apply NoDup_filter, NoDup_nodup.
    assert (Hle : (llen I <= llen (set_of original_data))%Z).
    { unfold llen. apply Nat2Z.inj_le. now apply NoDup_incl_length. }
    assert (Hq : (inject_Z (llen I) / inject_Z (llen (set_of original_data)) == 1)%Q
                 <-> llen I = llen (set_of original_data)).
    { split.
      - intros H.
        assert (H' : (inject_Z (llen I) == inject_Z (llen (set_of original_data)))%Q).
        { rewrite <- (Qmult_1_l (inject_Z (llen (set_of original_data)))), <- H.
          rewrite Qmult_comm, Qmult_div_r; [reflexivity|].
          intros Z0. unfold Qeq in Z0. cbn [inject_Z Qnum Qden] in Z0. lia. }
        unfold Qeq in H'. cbn [inject_Z Qnum Qden] in H'. lia.
      - intros ->. apply Qmult_inv_r.
        intros Z0. unfold Qeq in Z0. cbn [inject_Z Qnum Qden] in Z0. lia. }
    rewrite Hq. split.
    + intros Hlen x Hx.
      assert (Hback : incl (set_of original_data) I).
      { apply NoDup_length_incl; [exact NI | | exact HI].
        unfold llen in Hlen. lia. }
      assert (Hs : In x (set_of original_data)) by (apply nodup_In; exact Hx).
      apply Hback, intersection_In in Hs. destruct Hs as [Hs _].
      now apply nodup_In in Hs.
    + intros Hincl. unfold llen. f_equal.
      apply Permutation_length, NoDup_Permutation; [exact NI | apply NoDup_nodup |].
      intros x. split; [apply HI|]. intros Hx. apply intersection_In.
      split; [|exact Hx]. apply nodup_In, Hincl. now apply nodup_In in Hx.
Qed.

(** ** [get_export_filename] *)

Lemma every_filter_chars (p : ascii -> bool) (s : string) :
  every p (filter_chars p s) = true.
Proof.
  induction s as [|c s IH]; simpl; [reflexivity|].
  destruct (p c) eqn:E; simpl; [now rewrite E|exact IH].
Qed.

Lemma every_replace_char (p q : ascii -> bool) (a b : ascii) (s : string) :
  (forall c, p c = true -> q (if Ascii.eqb c a then b else c) = true) ->
  every p s = true -> every q (replace_char a b s) = true.
Proof.
  intros H. induction s as [|c s IH]; simpl; [reflexivity|].
  intros E. apply andb_true_iff in E. destruct E as [Ec Es].
  now rewrite (H c Ec), IH.
Qed.

Lemma safe_title_chars (wheel_title : string) :
  every title_char (safe_title wheel_title) = true
  /\ String.length (safe_title wheel_title) <= 20.
Proof.
  unfold safe_title. split; [|apply length_take].
  apply every_take.
  apply every_replace_char
    with (p := fun c => is_alnum c || Ascii.eqb c " " || Ascii.eqb c "-"
                        || Ascii.eqb c "_").
  - intros c Hc. unfold title_char.
    destruct (Ascii.eqb c " ") eqn:E; [reflexivity|].
    rewrite orb_false_r in Hc. exact Hc.
  - apply every_strip, every_filter_chars.
Qed.

(** X15.  In the name [get_export_filename] builds, the part taken from the
    wheel title is empty or of at most 20 characters followed by an
    underscore, and holds only letters, digits, hyphens and underscores; it
    stands between [spinwinny_], the data type and an underscore on one
    side, and the timestamp, a dot and the format on the other. *)
Theorem get_export_filename_title (now : datetime)
  (format_type wheel_title data_type : string) :
  exists part : string,
    get_export_filename now format_type wheel_title data_type
    = ("spinwinny_" ++ data_type ++ "_" ++ part ++ strftime_compact now ++ "."
       ++ format_type)%string
    /\ every title_char part = true
    /\ String.length part <= 21.
Proof.
  unfold get_export_filename.
  destruct (safe_title_chars wheel_title) as [Hc Hl].
  destruct (safe_title wheel_title) as [|c t] eqn:E.
  - exists "". cbn. repeat split. lia.
  - exists (String c t ++ "_")%string. cbn [is_empty negb]. repeat split.
    + f_equal. f_equal. f_equal. now rewrite append_assoc.
    + rewrite every_app, Hc. reflexivity.
    + rewrite length_app. simpl in *. lia.
Qed.

End CSVServiceCoverage.

(** ** The event store: what a recorded event changes and what it leaves *)

Section AnalyticsCoverage.

Import Text Py AnalyticsService Notions.

(** The tables after a metrics step that completes, each from the tables
    before it. *)
Lemma metrics_statements_tables
  (cur : string) (d d' : db) (event_type : string) (event_data : dict)
  (wheel_id user_id session_id : option string) :
  metrics_statements cur d event_type event_data wheel_id user_id session_id = Some d' ->
  analytics_events d' = analytics_events d /\
  user_engagement d'
  = (if truthy_opt user_id && truthy_opt session_id
     then user_engagement
            (replace_engagement cur d (text_or_empty user_id) (text_or_empty session_id)
               event_type)
     else user_engagement d) /\
  (if String.eqb event_type "wheel_spin" && truthy_opt wheel_id
   then exists title entries,
       bind (dict_get event_data "wheel_title" (VStr "")) = Some title /\
       bind (dict_get event_data "total_entries" (VInt 0)) = Some entries /\
       wheel_metrics d'
       = wheel_metrics (replace_metrics cur d (text_or_empty wheel_id) title entries) /\
       (if truthy (dict_get event_data "winner" VNone)
        then exists w,
            bind (dict_get event_data "winner" VNone) = Some w /\
            winner_frequency d'
            = winner_frequency (replace_winner cur d (text_or_empty wheel_id) w)
        else winner_frequency d' = winner_frequency d)
   else wheel_metrics d' = wheel_metrics d /\ winner_frequency d' = winner_frequency d).
Proof.
  unfold metrics_statements.
  destruct (String.eqb event_type "wheel_spin" && truthy_opt wheel_id).
  - destruct (bind (dict_get event_data "wheel_title" (VStr ""))) as [title|];
      [|discriminate].
    destruct (bind (dict_get event_data "total_entries" (VInt 0))) as [entries|];
      [|discriminate].
    cbn [obind].
    destruct (truthy (dict_get event_data "winner" VNone)).
    + destruct (bind (dict_get event_data "winner" VNone)) as [w|]; [|discriminate].
      cbn [obind].
      destruct (truthy_opt user_id && truthy_opt session_id);
        intros H; inversion H; subst; (split; [reflexivity|]); (split; [reflexivity|]);
        exists title, entries; repeat split; exists w; split; reflexivity.
    + destruct (truthy_opt user_id && truthy_opt session_id);
        intros H; inversion H; subst; (split; [reflexivity|]); (split; [reflexivity|]);
        exists title, entries; repeat split.
  - cbn [obind].
    destruct (truthy_opt user_id && truthy_opt session_id);
      intros H; inversion H; subst; repeat split.
Qed.

(** [record_event] as the metrics step on the database with the event
    appended, or nothing at all. *)
Lemma record_event_cases
  (now : datetime) (cur : string) (d : db) (event_type : string) (event_data : dict)
  (wheel_id user_id session_id ip_address user_agent : option string) :
  let r := record_event now cur d event_type event_data wheel_id user_id session_id
             ip_address user_agent in
  let d1 := with_event now cur d event_type event_data wheel_id user_id session_id
              ip_address user_agent in
  (fst r = false /\ snd r = d) \/
  (fst r = true /\ snd r = d1 /\
   metrics_statements cur d1 event_type event_data wheel_id user_id session_id = None) \/
  (fst r = true /\
   metrics_statements cur d1 event_type event_data wheel_id user_id session_id
   = Some (snd r)).
Proof.
  cbv zeta.
  destruct (serializable (VDict event_data)) eqn:E.
  - rewrite (record_event_true _ _ _ _ _ _ _ _ _ _ E). cbn [fst snd].
    unfold _update_metrics.
    destruct (metrics_statements cur _ event_type event_data wheel_id user_id session_id)
      eqn:M; right; [right | left]; repeat split; reflexivity.
  - rewrite (record_event_false _ _ _ _ _ _ _ _ _ _ E). left. split; reflexivity.
Qed.

Lemma find_other {A : Type} (p q : A -> bool) (rows : list A) (row : A) :
  (forall r, q r = true -> p r = false) -> q row = true ->
  find p (filter (fun r => negb (q r)) rows ++ [row]) = find p rows.
Proof.
  intros H Hrow. induction rows as [|r rows IH]; simpl.
  - now rewrite (H row Hrow).
  - destruct (q r) eqn:Eq; simpl.
    + now rewrite (H r Eq).
    + destruct (p r); [reflexivity | exact IH].
Qed.

Lemma truthy_opt_true (o : option string) :
  truthy_opt o = true -> exists s, o = Some s /\ s <> "" /\ text_or_empty o = s.
Proof.
  destruct o as [s|]; [|discriminate]. destruct s; [discriminate|].
  intros _. eexists. repeat split. discriminate.
Qed.

(** X16.  A recorded event leaves the rows of every other wheel as they
    were: for a wheel that is not the event's [wheel_id], the [wheel_metrics]
    row and every [winner_frequency] row read back as before the call. *)
Theorem record_event_other_wheels
  (now : datetime) (cur : string) (d : db) (event_type : string) (event_data : dict)
  (wheel_id user_id session_id ip_address user_agent : option string) (W : string) :
  wheel_id <> Some W ->
  find_metrics
    (snd (record_event now cur d event_type event_data wheel_id user_id session_id
            ip_address user_agent)) W
  = find_metrics d W
  /\
  forall winner,
    find_winner
      (snd (record_event now cur d event_type event_data wheel_id user_id session_id
              ip_address user_agent)) W winner
    = find_winner d W winner.
Proof.
  intros HW.
  destruct (record_event_cases now cur d event_type event_data wheel_id user_id
              session_id ip_address user_agent) as [[_ ->]|[(_ & -> & _)|[_ M]]];
    try (split; reflexivity).
  apply metrics_statements_tables in M. destruct M as (_ & _ & M).
  unfold find_metrics, find_winner.
  destruct (String.eqb event_type "wheel_spin" && truthy_opt wheel_id) eqn:B.
  - apply andb_true_iff in B. destruct B as [_ B].
    destruct (truthy_opt_true _ B) as (V & -> & _ & HV). cbn [text_or_empty] in *.
    assert (Hne : V <> W) by congruence.
    destruct M as (title & entries & _ & _ & -> & Mw). split.
    + unfold replace_metrics. cbn [wheel_metrics with_event insert_event].
      apply (find_other _ (fun r => String.eqb (wm_wheel_id r) V)).
      * intros r E. apply String.eqb_eq in E. rewrite E. now apply String.eqb_neq.
      * apply String.eqb_refl.
    + intros winner.
      destruct (truthy (dict_get event_data "winner" VNone)).
      * destruct Mw as (w & _ & ->).
        unfold replace_winner. cbn [winner_frequency with_event insert_event].
        apply (find_other _ (fun r => String.eqb (wf_wheel_id r) V
                                      && String.eqb (wf_winner_name r) (text_of w))).
        -- intros r E. apply andb_true_iff in E. destruct E as [E _].
           apply String.eqb_eq in E. rewrite E.
           apply andb_false_iff. left. now apply String.eqb_neq.
        -- cbn. now rewrite !String.eqb_refl.
      * now rewrite Mw.
  - destruct M as [-> ->]. split; reflexivity.
Qed.

(** A spin of [w1] after a spin of [w2]: the row of [w2] is as it was. *)
Lemma record_event_other_wheels_witness :
  let d := snd (record_event sample_now "2025-01-15 10:30:00" empty_db "wheel_spin"
                  alice_spin (Some "w2") (Some "u1") None None None) in
  let d' := snd (record_event sample_now "2025-01-15 10:31:00" d "wheel_spin"
                   alice_spin (Some "w1") (Some "u2") None None None) in
  find_metrics d' "w2" = find_metrics d "w2" /\
  find_winner d' "w2" "Alice" = find_winner d "w2" "Alice" /\
  exists row, find_metrics d "w2" = Some row /\ wm_total_spins row = 1%Z.
Proof.
  cbv zeta.
  destruct (record_event_other_wheels sample_now "2025-01-15 10:31:00"
              (snd (record_event sample_now "2025-01-15 10:30:00" empty_db "wheel_spin"
                      alice_spin (Some "w2") (Some "u1") None None None))
              "wheel_spin" alice_spin (Some "w1") (Some "u2") None None None "w2")
    as [H1 H2]; [discriminate|].
  split; [exact H1|]. split; [apply H2|].
  eexists. split; [vm_compute; reflexivity | reflexivity].
Defined.

(** X17.  What [record_event] does not touch.  An event that is not a
    [wheel_spin], or that has no wheel id or an empty one, leaves
    [wheel_metrics] and [winner_frequency] as they were; an event without a
    non-empty [user_id] and a non-empty [session_id] leaves [user_engagement]
    as it was; and the log is as it was or one event longer. *)
Theorem record_event_untouched
  (now : datetime) (cur : string) (d : db) (event_type : string) (event_data : dict)
  (wheel_id user_id session_id ip_address user_agent : option string) :
  let d' := snd (record_event now cur d event_type event_data wheel_id user_id
                   session_id ip_address user_agent) in
  (String.eqb event_type "wheel_spin" && truthy_opt wheel_id = false ->
   wheel_metrics d' = wheel_metrics d /\ winner_frequency d' = winner_frequency d)
  /\
  (truthy_opt user_id && truthy_opt session_id = false ->
   user_engagement d' = user_engagement d)
  /\
  (analytics_events d' = analytics_events d
   \/ exists e, analytics_events d' = analytics_events d ++ [e]).
Proof.
  cbv zeta.
  destruct (record_event_cases now cur d event_type event_data wheel_id user_id
              session_id ip_address user_agent) as [[_ ->]|[(_ & -> & _)|[_ M]]].
  - repeat split; auto.
  - repeat split; auto. right. eexists. reflexivity.
  - apply metrics_statements_tables in M. destruct M as (Me & Mu & M).
    split; [|split].
    + intros B. rewrite B in M. destruct M as [-> ->]. split; reflexivity.
    + intros B. rewrite B in Mu. exact Mu.
    + right. rewrite Me. eexists. reflexivity.
Qed.

(** X18.  An event recorded with a non-empty [user_id] and a non-empty
    [session_id], when the metrics step completes, leaves the
    [user_engagement] row of that pair with [last_visit] at the database
    clock, [first_visit] as it was (the clock for a new pair), the
    engagement score one higher, [total_spins] one higher for a
    [wheel_spin] and [total_wheels_created] one higher for a
    [wheel_created], both unchanged otherwise, and [total_time_spent] at 0
    (the statement does not carry the column over). *)
Theorem record_event_engagement
  (now : datetime) (cur : string) (d : db) (event_type : string) (event_data : dict)
  (wheel_id ip_address user_agent : option string) (user_id session_id : string) :
  let r := record_event now cur d event_type event_data wheel_id (Some user_id)
             (Some session_id) ip_address user_agent in
  let d1 := with_event now cur d event_type event_data wheel_id (Some user_id)
              (Some session_id) ip_address user_agent in
  let before (f : engagement_row -> Z) :=
    match find_engagement d user_id session_id with
    | Some old => f old
    | None => 0%Z
    end in
  user_id <> "" -> session_id <> "" ->
  fst r = true ->
  metrics_statements cur d1 event_type event_data wheel_id (Some user_id)
    (Some session_id) <> None ->
  exists row,
    find_engagement (snd r) user_id session_id = Some row /\
    ue_last_visit row = cur /\
    ue_first_visit row
    = match find_engagement d user_id session_id with
      | Some old => ue_first_visit old
      | None => cur
      end /\
    ue_engagement_score row = (before ue_engagement_score + 1)%Z /\
    ue_total_spins row
    = (before ue_total_spins + (if String.eqb event_type "wheel_spin" then 1 else 0))%Z /\
    ue_total_wheels_created row
    = (before ue_total_wheels_created
       + (if String.eqb event_type "wheel_created" then 1 else 0))%Z /\
    ue_total_time_spent row = 0%Z.
Proof.
  cbv zeta. intros Hu Hs Htrue Hrun.
  destruct (record_event_cases now cur d event_type event_data wheel_id (Some user_id)
              (Some session_id) ip_address user_agent)
    as [[F _]|[(_ & _ & N)|[_ M]]]; [congruence | congruence |].
  apply metrics_statements_tables in M. destruct M as (_ & Mu & _).
  rewrite (truthy_opt_some _ Hu), (truthy_opt_some _ Hs) in Mu.
  cbn [andb text_or_empty] in Mu.
  unfold find_engagement at 1. rewrite Mu.
  unfold replace_engagement. cbn [user_engagement].
  rewrite (find_replaced (fun r => String.eqb (ue_user_id r) user_id
                                   && String.eqb (ue_session_id r) session_id))
    by (cbn; now rewrite !String.eqb_refl).
  eexists. split; [reflexivity|].
  cbn [ue_last_visit ue_first_visit ue_engagement_score ue_total_spins
       ue_total_wheels_created ue_total_time_spent].
  change (find_engagement
            (with_event now cur d event_type event_data wheel_id (Some user_id)
               (Some session_id) ip_address user_agent) user_id session_id)
    with (find_engagement d user_id session_id).
  destruct (find_engagement d user_id session_id); repeat split.
Qed.

(** A second event of a pair, a [wheel_created] after a [wheel_spin]. *)
Lemma record_event_engagement_witness :
  let d := snd (record_event sample_now "2025-01-15 10:30:00" empty_db "wheel_spin"
                  alice_spin (Some "w1") (Some "u1") (Some "s1") None None) in
  let r := record_event sample_now "2025-01-15 10:35:00" d "wheel_created" []
             None (Some "u1") (Some "s1") None None in
  exists row,
    find_engagement (snd r) "u1" "s1" = Some row /\
    ue_last_visit row = "2025-01-15 10:35:00" /\
    ue_first_visit row = "2025-01-15 10:30:00" /\
    ue_engagement_score row = 2%Z /\
    ue_total_spins row = 1%Z /\
    ue_total_wheels_created row = 1%Z /\
    ue_total_time_spent row = 0%Z.
Proof.
  cbv zeta.
  destruct (record_event_engagement sample_now "2025-01-15 10:35:00"
              (snd (record_event sample_now "2025-01-15 10:30:00" empty_db "wheel_spin"
                      alice_spin (Some "w1") (Some "u1") (Some "s1") None None))
              "wheel_created" [] None None None "u1" "s1")
    as (row & H1 & H2 & H3 & H4 & H5 & H6 & H7);
    [discriminate | discriminate | reflexivity | discriminate |].
  exists row. split; [exact H1|]. split; [exact H2|].
  split; [rewrite H3; vm_compute; reflexivity|].
  split; [rewrite H4; vm_compute; reflexivity|].
  split; [rewrite H5; vm_compute; reflexivity|].
  split; [rewrite H6; vm_compute; reflexivity | exact H7].
Defined.

End AnalyticsCoverage.

(** ** The event store: what the derived tables never exceed *)

Section AnalyticsInvariant.

Import Text Py AnalyticsService Notions.

Lemma total_app (a b : list Z) : total (a ++ b) = (total a + total b)%Z.
Proof.
  unfold total. induction a as [|x a IH]; simpl; [reflexivity|].
  rewrite IH. lia.
Qed.

Lemma filter_filter_other {A : Type} (p q : A -> bool) (l : list A) :
  (forall r, p r = true -> q r = false) ->
  filter p (filter (fun r => negb (q r)) l) = filter p l.
Proof.
  intros H. induction l as [|r l IH]; simpl; [reflexivity|].
  destruct (q r) eqn:Eq; simpl.
  - destruct (p r) eqn:Ep; [|exact IH]. rewrite (H r Ep) in Eq. discriminate.
  - destruct (p r); [now rewrite IH | exact IH].
Qed.

Lemma spin_count_with_event
  (now : datetime) (cur : string) (d : db) (event_type : string) (event_data : dict)
  (wheel_id user_id session_id ip_address user_agent : option string) (W : string) :
  spin_count
    (with_event now cur d event_type event_data wheel_id user_id session_id
       ip_address user_agent) W
  = (spin_count d W
     + (if opt_eqb wheel_id W && String.eqb event_type "wheel_spin" then 1 else 0))%Z.
Proof.
  unfold spin_count, with_event, insert_event, llen. cbn [analytics_events].
  rewrite filter_app, List.length_app. cbn [filter]. unfold is_spin_of at 2.
  cbn [ev_wheel_id ev_event_type].
  destruct (opt_eqb wheel_id W && String.eqb event_type "wheel_spin");
    cbn [List.length]; lia.
Qed.

Lemma prior_spins_replace_metrics
  (cur : string) (d : db) (V : string) (title entries : sqlval) (W : string) :
  prior_spins (replace_metrics cur d V title entries) W
  = if String.eqb V W then (prior_spins d V + 1)%Z else prior_spins d W.
Proof.
  unfold prior_spins.
  destruct (String.eqb_spec V W) as [<-|Hne].
  - now rewrite find_metrics_replace_metrics.
  - unfold find_metrics, replace_metrics. cbn [wheel_metrics].
    rewrite (find_other _ (fun r => String.eqb (wm_wheel_id r) V)); [reflexivity | |].
    + intros r E. apply String.eqb_eq in E. rewrite E. now apply String.eqb_neq.
    + apply String.eqb_refl.
Qed.

(** The count a winner statement reads is part of the wheel's total. *)
Lemma winners_without (V name : string) (l : list winner_row) :
  (forall r, In r l -> (0 <= wf_frequency_count r)%Z) ->
  let q := fun r => String.eqb (wf_wheel_id r) V && String.eqb (wf_winner_name r) name in
  (0 <= match find q l with Some r => wf_frequency_count r | None => 0 end)%Z /\
  (total (map wf_frequency_count (winners_of V (filter (fun r => negb (q r)) l)))
   + match find q l with Some r => wf_frequency_count r | None => 0 end
   <= total (map wf_frequency_count (winners_of V l)))%Z.
Proof.
  intros Hpos q. induction l as [|r l IH]; [simpl; lia|].
  assert (Hr : (0 <= wf_frequency_count r)%Z) by (apply Hpos; now left).
  destruct IH as [IH0 IH]; [intros x Hx; apply Hpos; now right|].
  cbn [find filter]. destruct (q r) eqn:Eq; cbn [negb].
  - split; [exact Hr|].
    assert (Ew : String.eqb (wf_wheel_id r) V = true).
    { unfold q in Eq. now apply andb_true_iff in Eq. }
    unfold winners_of at 2. cbn [filter]. rewrite Ew. cbn [map].
    unfold total at 2. cbn [fold_right]. fold (total (map wf_frequency_count
      (filter (fun r0 => String.eqb (wf_wheel_id r0) V) l))).
    unfold winners_of in IH. unfold winners_of. lia.
  - split; [exact IH0|].
    unfold winners_of in *. cbn [filter].
    destruct (String.eqb (wf_wheel_id r) V); cbn [map]; [|exact IH].
    unfold total in *. cbn [fold_right]. lia.
Qed.

Lemma winner_total_replace_winner
  (cur : string) (d : db) (V : string) (w : sqlval) (W : string) :
  (forall r, In r (winner_frequency d) -> (0 <= wf_frequency_count r)%Z) ->
  (forall r, In r (winner_frequency (replace_winner cur d V w)) ->
             (0 <= wf_frequency_count r)%Z) /\
  (winner_total (replace_winner cur d V w) W
   <= winner_total d W + (if String.eqb V W then 1 else 0))%Z.
Proof.
  intros Hpos.
  destruct (winners_without V (text_of w) (winner_frequency d) Hpos) as [H0 Hle].
  unfold winner_total, replace_winner, find_winner. cbn [winner_frequency].
  set (q := fun r => String.eqb (wf_wheel_id r) V
                     && String.eqb (wf_winner_name r) (text_of w)) in *.
  split.
  - intros r Hr. apply in_app_iff in Hr. destruct Hr as [Hr|[<-|[]]].
    + apply filter_In in Hr. now apply Hpos.
    + cbn [wf_frequency_count]. lia.
  - unfold winners_of at 1. rewrite filter_app, map_app, total_app.
    cbn [filter wf_wheel_id].
    destruct (String.eqb_spec V W) as [<-|Hne].
    + cbn [map wf_frequency_count]. unfold total at 2. cbn [fold_right].
      unfold winners_of in *. lia.
    + cbn [map]. change (total []) with 0%Z.
      rewrite filter_filter_other; [unfold winners_of; lia|].
      intros r E. apply String.eqb_eq in E. unfold q. rewrite E.
      apply andb_false_iff. left. apply String.eqb_neq. congruence.
Qed.

(** The three bounds together; each call of [record_event] keeps them. *)
Lemma record_event_bounds
  (now : datetime) (cur : string) (d : db) (event_type : string) (event_data : dict)
  (wheel_id user_id session_id ip_address user_agent : option string) :
  let d' := snd (record_event now cur d event_type event_data wheel_id user_id
                   session_id ip_address user_agent) in
  (forall r, In r (winner_frequency d) -> (0 <= wf_frequency_count r)%Z) /\
  (forall W, (winner_total d W <= prior_spins d W <= spin_count d W)%Z) ->
  (forall r, In r (winner_frequency d') -> (0 <= wf_frequency_count r)%Z) /\
  (forall W, (winner_total d' W <= prior_spins d' W <= spin_count d' W)%Z).
Proof.
  cbv zeta. intros [Hpos Hb].
  pose proof (spin_count_with_event now cur d event_type event_data wheel_id user_id
                session_id ip_address user_agent) as Hc.
  assert (Hgrow : forall W,
             (spin_count d W
              <= spin_count (with_event now cur d event_type event_data wheel_id user_id
                               session_id ip_address user_agent) W)%Z).
  { intros W. rewrite Hc.
    destruct (opt_eqb wheel_id W && String.eqb event_type "wheel_spin"); lia. }
  destruct (record_event_cases now cur d event_type event_data wheel_id user_id
              session_id ip_address user_agent) as [[_ ->]|[(_ & -> & _)|[_ M]]].
  - split; assumption.
  - split; [exact Hpos|]. intros W. specialize (Hb W). specialize (Hgrow W).
    change (winner_total (with_event now cur d event_type event_data wheel_id user_id
                            session_id ip_address user_agent) W)
      with (winner_total d W).
    change (prior_spins (with_event now cur d event_type event_data wheel_id user_id
                           session_id ip_address user_agent) W)
      with (prior_spins d W).
    lia.
  - apply metrics_statements_tables in M. destruct M as (Me & _ & M).
    set (d1 := with_event now cur d event_type event_data wheel_id user_id
                 session_id ip_address user_agent) in *.
    set (d' := snd (record_event now cur d event_type event_data wheel_id user_id
                      session_id ip_address user_agent)) in *.
    assert (Hcount : forall W, spin_count d' W = spin_count d1 W)
      by (intros W; unfold spin_count; now rewrite Me).
    destruct (String.eqb event_type "wheel_spin" && truthy_opt wheel_id) eqn:B.
    + apply andb_true_iff in B. destruct B as [Bt Bw].
      destruct (truthy_opt_true _ Bw) as (V & -> & _ & HV). cbn [text_or_empty] in M.
      destruct M as (title & entries & _ & _ & Mm & Mw).
      assert (Hprior : forall W,
                 prior_spins d' W
                 = if String.eqb V W then (prior_spins d V + 1)%Z else prior_spins d W).
      { intros W.
        transitivity (prior_spins (replace_metrics cur d1 V title entries) W).
        - unfold prior_spins, find_metrics. now rewrite Mm.
        - rewrite prior_spins_replace_metrics. reflexivity. }
      assert (Hwin : (forall r, In r (winner_frequency d') ->
                                (0 <= wf_frequency_count r)%Z) /\
                     forall W, (winner_total d' W
                                <= winner_total d W
                                   + (if String.eqb V W then 1 else 0))%Z).
      { destruct (truthy (dict_get event_data "winner" VNone)).
        - destruct Mw as (w & _ & Mw).
          destruct (winner_total_replace_winner cur d1 V w V Hpos) as [P _].
          split; [rewrite Mw; exact P|].
          intros W. unfold winner_total at 1. rewrite Mw.
          apply (winner_total_replace_winner cur d1 V w W Hpos).
        - split; [rewrite Mw; exact Hpos|].
          intros W. unfold winner_total at 1. rewrite Mw.
          change (total (map wf_frequency_count (winners_of W (winner_frequency d1))))
            with (winner_total d W).
          destruct (String.eqb V W); lia. }
      destruct Hwin as [Hpos' Hwin]. split; [exact Hpos'|].
      intros W. rewrite Hprior, Hcount. unfold d1. rewrite Hc. cbn [opt_eqb].
      rewrite Bt, andb_true_r.
      specialize (Hwin W). specialize (Hb W).
      destruct (String.eqb_spec V W) as [<-|Hne]; lia.
    + destruct M as [Mm Mw]. split; [rewrite Mw; exact Hpos|].
      intros W. specialize (Hb W). specialize (Hgrow W).
      rewrite Hcount. unfold winner_total, prior_spins, find_metrics.
      rewrite Mm, Mw.
      change (total (map wf_frequency_count (winners_of W (winner_frequency d1))))
        with (winner_total d W).
      change (match find (fun r => String.eqb (wm_wheel_id r) W) (wheel_metrics d1) with
              | Some r => wm_total_spins r
              | None => 0%Z
              end) with (prior_spins d W).
      lia.
Qed.

(** The bounds hold in every database the service can be in. *)
Lemma reachable_tables (d : db) :
  reachable d ->
  (forall r, In r (winner_frequency d) -> (0 <= wf_frequency_count r)%Z) /\
  (forall W, (winner_total d W <= prior_spins d W <= spin_count d W)%Z).
Proof.
  intros R.
  induction R as [|now cur d event_type event_data wheel_id user_id session_id
                    ip_address user_agent R IH].
  - split; [intros r []|]. intros V. vm_compute. split; discriminate.
  - now apply record_event_bounds.
Qed.

(** X19.  In every database that calls of [record_event] build from a new
    one, and for every wheel: the [frequency_count]s of the wheel's winner
    rows add up to at most the wheel's [total_spins] (0 without a row),
    which is at most the number of [wheel_spin] events of the wheel in the
    log. *)
Theorem reachable_bounds (d : db) (W : string) :
  reachable d ->
  (winner_total d W <= prior_spins d W <= spin_count d W)%Z.
Proof.
  intros R. apply (reachable_tables d R).
Qed.

(** Two spins of [w1]: the first wins [Alice]; the second carries a winner
    SQLite cannot bind, so only the log grows. *)
Lemma reachable_bounds_witness :
  let d1 := snd (record_event sample_now "2025-01-15 10:30:00" empty_db "wheel_spin"
                   alice_spin (Some "w1") (Some "u1") None None None) in
  let d2 := snd (record_event sample_now "2025-01-15 10:31:00" d1 "wheel_spin"
                   [("winner", VList [VStr "Bob"])] (Some "w1") (Some "u2")
                   None None None) in
  reachable d2 /\
  winner_total d2 "w1" = 1%Z /\ prior_spins d2 "w1" = 1%Z /\ spin_count d2 "w1" = 2%Z /\
  (winner_total d2 "w1" <= prior_spins d2 "w1" <= spin_count d2 "w1")%Z.
Proof.
  cbv zeta.
  assert (R : reachable
                (snd (record_event sample_now "2025-01-15 10:31:00"
                        (snd (record_event sample_now "2025-01-15 10:30:00" empty_db
                                "wheel_spin" alice_spin (Some "w1") (Some "u1")
                                None None None))
                        "wheel_spin" [("winner", VList [VStr "Bob"])] (Some "w1")
                        (Some "u2") None None None)))
    by (repeat apply reachable_record; apply reachable_empty).
  split; [exact R|].
  split; [vm_compute; reflexivity|].
  split; [vm_compute; reflexivity|].
  split; [vm_compute; reflexivity|].
  exact (reachable_bounds _ "w1" R).
Defined.

End AnalyticsInvariant.

(** ** The reports *)

Section ReportFacts.

Import Text Py AnalyticsService Notions.

Lemma insert_by_perm {A : Type} (le : A -> A -> bool) (x : A) (l : list A) :
  Permutation (insert_by le x l) (x :: l).
Proof.
  induction l as [|h t IH]; simpl; [reflexivity|].
  destruct (le h x); [|reflexivity].
  rewrite IH. apply perm_swap.
Qed.

Lemma fold_insert_perm {A : Type} (le : A -> A -> bool) (l acc : list A) :
  Permutation (fold_left (fun acc x => insert_by le x acc) l acc) (l ++ acc).
Proof.
  revert acc. induction l as [|x l IH]; intros acc; simpl; [reflexivity|].
  rewrite IH, insert_by_perm. symmetry. apply Permutation_middle.
Qed.

(** [ORDER BY] keeps the rows. *)
Lemma order_by_perm {A : Type} (le : A -> A -> bool) (l : list A) :
  Permutation (order_by le l) l.
Proof.
  unfold order_by. rewrite fold_insert_perm. now rewrite app_nil_r.
Qed.

Section Ordered.

Context {A : Type} (le : A -> A -> bool).
Hypothesis le_total : forall a b, le a b = false -> le b a = true.
Hypothesis le_trans : forall a b c, le a b = true -> le b c = true -> le a c = true.

Lemma insert_by_sorted (x : A) (l : list A) :
  StronglySorted (fun a b => le a b = true) l ->
  StronglySorted (fun a b => le a b = true) (insert_by le x l).
Proof.
  induction 1 as [|h t Hs IH Hall]; simpl.
  - repeat constructor.
  - destruct (le h x) eqn:E.
    + constructor; [exact IH|].
      apply (Permutation_Forall (Permutation_sym (insert_by_perm le x t))).
      constructor; [exact E | exact Hall].
    + apply le_total in E. constructor; [now constructor|].
      constructor; [exact E|].
      apply Forall_impl with (2 := Hall). intros b Hb. now apply le_trans with h.
Qed.

Lemma fold_insert_sorted (l acc : list A) :
  StronglySorted (fun a b => le a b = true) acc ->
  StronglySorted (fun a b => le a b = true)
    (fold_left (fun acc x => insert_by le x acc) l acc).
Proof.
  revert acc. induction l as [|x l IH]; intros acc H; simpl; [exact H|].
  now apply IH, insert_by_sorted.
Qed.

(** [ORDER BY] returns the rows in order. *)
Lemma order_by_sorted (l : list A) :
  StronglySorted (fun a b => le a b = true) (order_by le l).
Proof. apply fold_insert_sorted. constructor. Qed.

End Ordered.

Lemma In_firstn {A : Type} (n : nat) (l : list A) (x : A) :
  In x (firstn n l) -> In x l.
Proof.
  revert n. induction l as [|h t IH]; intros [|n]; simpl; try tauto.
  intros [E|H]; [now left | right; eapply IH; eassumption].
Qed.

Lemma StronglySorted_firstn {A : Type} (R : A -> A -> Prop) (n : nat) (l : list A) :
  StronglySorted R l -> StronglySorted R (firstn n l).
Proof.
  intros H. revert n. induction H as [|h t Hs IH Hall]; intros [|n]; simpl;
    try constructor.
  - apply IH.
  - apply Forall_forall. intros x Hx. apply In_firstn in Hx.
    revert x Hx. now apply Forall_forall.
Qed.

Lemma StronglySorted_map {A B : Type} (R : B -> B -> Prop) (f : A -> B) (l : list A) :
  StronglySorted (fun a b => R (f a) (f b)) l -> StronglySorted R (map f l).
Proof.
  induction 1 as [|h t Hs IH Hall]; simpl; constructor; [exact IH|].
  apply Forall_map. exact Hall.
Qed.

Lemma StronglySorted_weaken {A : Type} (P Q : A -> A -> Prop) (l : list A) :
  (forall a b, P a b -> Q a b) -> StronglySorted P l -> StronglySorted Q l.
Proof.
  intros H. induction 1 as [|h t Hs IH Hall]; constructor; [exact IH|].
  apply Forall_impl with (2 := Hall). intros b. apply H.
Qed.

Lemma length_firstn_le {A : Type} (n : nat) (l : list A) : List.length (firstn n l) <= n.
Proof. rewrite length_firstn. lia. Qed.

Lemma total_perm (a b : list Z) : Permutation a b -> total a = total b.
Proof.
  unfold total. induction 1; simpl; lia.
Qed.

Lemma total_firstn (n : nat) (l : list Z) :
  Forall (fun z => (0 <= z)%Z) l -> (total (firstn n l) <= total l)%Z.
Proof.
  intros H. revert n. unfold total.
  induction H as [|z l Hz Hl IH]; intros [|n]; simpl; try lia.
  - assert (0 <= fold_right Z.add 0 l)%Z; [|lia].
    clear IH. induction Hl; simpl; lia.
  - specialize (IH n). lia.
Qed.

Lemma Zle_total (a b : Z) : (a <=? b)%Z = false -> (b <=? a)%Z = true.
Proof. intros H. apply Z.leb_gt in H. apply Z.leb_le. lia. Qed.

(** X20.  For a wheel that has a [wheel_metrics] row, and a window whose
    start [datetime] can hold, [get_wheel_analytics] returns the report and
    leaves the database as it is.  The report carries the row's
    [total_spins], [unique_users] and [total_entries]; at most 20 winners, in
    order of decreasing count; and at most 50 recent spins, in order of
    decreasing timestamp. *)
Theorem get_wheel_analytics_report
  (now : datetime) (d : db) (wheel_id : string) (days : Z) (row : metrics_row) :
  find_metrics d wheel_id = Some row ->
  (Z.abs days <= 999999999)%Z ->
  (1 <= ordinal now - days <= MAXORDINAL)%Z ->
  exists r,
    get_wheel_analytics now d wheel_id days = (Success r, d) /\
    r_wheel_id r = wheel_id /\
    r_total_spins r = wm_total_spins row /\
    r_unique_users r = wm_unique_users row /\
    r_total_entries r = wm_total_entries row /\
    List.length (r_winner_distribution r) <= 20 /\
    StronglySorted (fun a b => (b <= a)%Z)
      (map (fun x => snd (fst x)) (r_winner_distribution r)) /\
    List.length (r_recent_spins r) <= 50 /\
    StronglySorted (fun a b => leb b a = true) (map sp_timestamp (r_recent_spins r)).
Proof.
  intros Hrow Hd Ho. unfold get_wheel_analytics.
  rewrite (minus_days_in_range now days Hd Ho), Hrow.
  eexists. split; [reflexivity|].
  cbn [r_wheel_id r_total_spins r_unique_users r_total_entries r_winner_distribution
       r_recent_spins].
  repeat split.
  - rewrite length_map. apply length_firstn_le.
  - rewrite map_map. cbn [fst snd].
    apply StronglySorted_map, StronglySorted_firstn.
    apply StronglySorted_weaken
      with (P := fun a b => (wf_frequency_count b <=? wf_frequency_count a)%Z = true).
    + intros a b H. now apply Z.leb_le.
    + apply order_by_sorted.
      * intros a b. apply Zle_total.
      * intros a b c H1 H2. apply Z.leb_le in H1, H2. apply Z.leb_le. lia.
  - rewrite length_map. apply length_firstn_le.
  - rewrite map_map. cbn [sp_timestamp].
    apply StronglySorted_map, StronglySorted_firstn.
    apply order_by_sorted.
    + intros a b. apply leb_total.
    + intros a b c H1 H2. now apply leb_trans with (ev_timestamp b).
Qed.

(** The report of [w1] after one spin. *)
Lemma get_wheel_analytics_report_witness :
  let d := spin_w1 sample_now "2025-01-15 10:30:00" empty_db "u1" in
  exists r,
    get_wheel_analytics sample_now d "w1" 30 = (Success r, d) /\
    r_total_spins r = 1%Z /\
    r_winner_distribution r = [("Alice", 1%Z, "2025-01-15 10:30:00")] /\
    List.length (r_recent_spins r) = 1.
Proof.
  cbv zeta.
  destruct (get_wheel_analytics_report sample_now
              (spin_w1 sample_now "2025-01-15 10:30:00" empty_db "u1") "w1" 30
              (mk_metrics_row "w1" (SText "") 1 1 (SInt 5) "2025-01-15 10:30:00"
                 "2025-01-15 10:30:00"))
    as (r & E & _); [vm_compute; reflexivity | vm_compute; discriminate
                     | vm_compute; split; discriminate |].
  exists r. split; [exact E|].
  assert (Er : fst (get_wheel_analytics sample_now
                      (spin_w1 sample_now "2025-01-15 10:30:00" empty_db "u1") "w1" 30)
               = Success r) by now rewrite E.
  vm_compute in Er. inversion Er. repeat split.
Defined.

Lemma Success_inj (a b : report) : Success a = Success b -> a = b.
Proof. congruence. Qed.

(** X21.  In a database built by [record_event] calls from a new one, the
    counts of the winner distribution that [get_wheel_analytics] reports add
    up to at most the [total_spins] it reports. *)
Theorem get_wheel_analytics_winner_counts
  (now : datetime) (d : db) (wheel_id : string) (days : Z) (r : report) :
  reachable d ->
  fst (get_wheel_analytics now d wheel_id days) = Success r ->
  (total (map (fun x => snd (fst x)) (r_winner_distribution r)) <= r_total_spins r)%Z.
Proof.
  intros R. destruct (reachable_tables d R) as [Hpos Hb].
  unfold get_wheel_analytics.
  destruct (minus_days now days) as [e|start]; [discriminate|].
  destruct (find_metrics d wheel_id) as [row|] eqn:Hrow; [|discriminate].
  intros H. apply Success_inj in H. subst r.
  cbn [r_winner_distribution r_total_spins].
  rewrite map_map. cbn [fst snd]. rewrite <- firstn_map.
  set (rows := filter (fun r => String.eqb (wf_wheel_id r) wheel_id) (winner_frequency d)).
  set (le := fun a b => (wf_frequency_count b <=? wf_frequency_count a)%Z).
  assert (P : Permutation (map wf_frequency_count (order_by le rows))
                          (map wf_frequency_count rows))
    by apply Permutation_map, order_by_perm.
  assert (N : Forall (fun z => (0 <= z)%Z) (map wf_frequency_count (order_by le rows))).
  { apply (Permutation_Forall (Permutation_sym P)).
    apply Forall_map, Forall_forall. intros x Hx. apply Hpos.
    unfold rows in Hx. now apply filter_In in Hx. }
  pose proof (total_firstn 20 _ N) as Hle.
  rewrite (total_perm _ _ P) in Hle.
  specialize (Hb wheel_id). unfold winner_total, winners_of, prior_spins in Hb.
  rewrite Hrow in Hb. fold rows in Hb. destruct Hb as [Hb _].
  apply Z.le_trans with (total (map wf_frequency_count rows)); [exact Hle | exact Hb].
Qed.

(** Two spins of [w1] won by [Alice]: a count of 2 for 2 spins. *)
Lemma get_wheel_analytics_winner_counts_witness :
  let d := spin_w1 sample_now "2025-01-15 10:31:00"
             (spin_w1 sample_now "2025-01-15 10:30:00" empty_db "u1") "u2" in
  reachable d /\
  exists r,
    fst (get_wheel_analytics sample_now d "w1" 30) = Success r /\
    r_winner_distribution r = [("Alice", 2%Z, "2025-01-15 10:31:00")] /\
    r_total_spins r = 2%Z /\
    (total (map (fun x => snd (fst x)) (r_winner_distribution r)) <= r_total_spins r)%Z.
Proof.
  cbv zeta.
  assert (R : reachable
                (spin_w1 sample_now "2025-01-15 10:31:00"
                   (spin_w1 sample_now "2025-01-15 10:30:00" empty_db "u1") "u2"))
    by (unfold spin_w1; repeat apply reachable_record; apply reachable_empty).
  split; [exact R|].
  eexists. split; [vm_compute; reflexivity|].
  split; [reflexivity|]. split; [reflexivity|].
  apply (get_wheel_analytics_winner_counts sample_now _ "w1" 30 _ R).
  vm_compute. reflexivity.
Defined.

(** *** Grouping by date *)

Lemma total_indicator (x : string) (ks : list string) :
  NoDup ks -> In x ks ->
  total (map (fun k => if String.eqb k x then 1 else 0)%Z ks) = 1%Z.
Proof.
  unfold total. induction 1 as [|k ks Hk Hnd IH]; [intros []|].
  simpl. intros [->|Hx].
  - rewrite String.eqb_refl.
    assert (Z0 : fold_right Z.add 0%Z (map (fun k => if String.eqb k x then 1 else 0)%Z ks)
                 = 0%Z).
    { clear IH Hnd. induction ks as [|k ks IH]; simpl; [reflexivity|].
      destruct (String.eqb_spec k x) as [->|_]; [elim Hk; now left|].
      rewrite IH; [reflexivity|]. intros H. apply Hk. now right. }
    lia.
  - destruct (String.eqb_spec k x) as [->|_]; [contradiction|].
    rewrite (IH Hx). reflexivity.
Qed.

Lemma total_map_add {A : Type} (f g : A -> Z) (l : list A) :
  total (map (fun k => f k + g k)%Z l) = (total (map f l) + total (map g l))%Z.
Proof.
  unfold total. induction l as [|k l IH]; simpl; [reflexivity|]. rewrite IH. lia.
Qed.

(** The groups of a [GROUP BY] share out the rows. *)
Lemma total_groups (keys ks : list string) :
  NoDup ks -> incl keys ks ->
  total (map (fun k => llen (filter (String.eqb k) keys)) ks) = llen keys.
Proof.
  intros Hnd. induction keys as [|x keys IH]; intros Hincl.
  - unfold total. cbn [filter llen List.length]. clear Hnd Hincl.
    induction ks; simpl; [reflexivity | assumption].
  - assert (Hx : In x ks) by (apply Hincl; now left).
    assert (Ht : incl keys ks) by (intros y Hy; apply Hincl; now right).
    specialize (IH Ht).
    assert (E : forall l : list string,
               total (map (fun k => llen (filter (String.eqb k) (x :: keys))) l)
               = (total (map (fun k => if String.eqb k x then 1 else 0)%Z l)
                  + total (map (fun k => llen (filter (String.eqb k) keys)) l))%Z).
    { intros l. rewrite <- total_map_add. f_equal. apply map_ext. intros k.
      unfold llen. cbn [filter].
      destruct (String.eqb k x); cbn [List.length]; lia. }
    rewrite E, IH, (total_indicator x ks Hnd Hx). unfold llen. cbn [List.length]. lia.
Qed.

Lemma filter_map_length {A : Type} (f : A -> string) (k : string) (l : list A) :
  llen (filter (fun e => String.eqb k (f e)) l) = llen (filter (String.eqb k) (map f l)).
Proof.
  unfold llen. f_equal. induction l as [|e l IH]; simpl; [reflexivity|].
  destruct (String.eqb k (f e)); simpl; now rewrite IH.
Qed.

(** The dates of a report: each once, in order, and the rows shared out. *)
Lemma date_groups (dates : list string) :
  let ks := order_by leb (nodup string_dec dates) in
  NoDup ks /\
  StronglySorted (fun a b => leb a b = true) ks /\
  total (map (fun k => llen (filter (String.eqb k) dates)) ks) = llen dates /\
  Forall (fun k => (1 <= llen (filter (String.eqb k) dates))%Z) ks.
Proof.
  cbv zeta.
  pose proof (order_by_perm leb (nodup string_dec dates)) as P.
  assert (Hnd : NoDup (order_by leb (nodup string_dec dates))).
  { apply (Permutation_NoDup (Permutation_sym P)), NoDup_nodup. }
  assert (Hin : forall k, In k (order_by leb (nodup string_dec dates)) <-> In k dates).
  { intros k. rewrite <- (nodup_In string_dec dates k). split; apply Permutation_in;
      [exact P | exact (Permutation_sym P)]. }
  split; [exact Hnd|]. split; [|split].
  - apply order_by_sorted.
    + intros a b. apply leb_total.
    + intros a b c. apply leb_trans.
  - apply total_groups; [exact Hnd|]. intros k Hk. now apply Hin.
  - apply Forall_forall. intros k Hk. apply Hin in Hk.
    assert (Hf : In k (filter (String.eqb k) dates))
      by (apply filter_In; split; [exact Hk | apply String.eqb_refl]).
    unfold llen. destruct (filter (String.eqb k) dates); [destruct Hf|].
    cbn [List.length]. lia.
Qed.

(** X22.  The daily activity of a report of [get_wheel_analytics] shares out
    the [wheel_spin] events of the wheel whose timestamp lies in the window:
    the dates are in increasing order without repeats, every date has at
    least one spin, and the counts add up to the number of those events. *)
Theorem get_wheel_analytics_daily_activity
  (now start : datetime) (d : db) (wheel_id : string) (days : Z) (r : report) :
  minus_days now days = inr start ->
  fst (get_wheel_analytics now d wheel_id days) = Success r ->
  NoDup (map fst (r_daily_activity r)) /\
  StronglySorted (fun a b => leb a b = true) (map fst (r_daily_activity r)) /\
  Forall (fun x => (1 <= snd x)%Z) (r_daily_activity r) /\
  total (map snd (r_daily_activity r))
  = llen (filter (fun e => leb (isoformat start) (ev_timestamp e)
                           && leb (ev_timestamp e) (isoformat now))
                 (filter (is_spin_of wheel_id) (analytics_events d))).
Proof.
  intros Hstart. unfold get_wheel_analytics. rewrite Hstart.
  destruct (find_metrics d wheel_id) as [row|]; [|discriminate].
  intros H. apply Success_inj in H. subst r.
  cbn [r_daily_activity].
  set (in_range := filter (fun e => leb (isoformat start) (ev_timestamp e)
                                    && leb (ev_timestamp e) (isoformat now))
                          (filter (is_spin_of wheel_id) (analytics_events d))).
  set (dates := map (fun e => sql_date (ev_timestamp e)) in_range).
  destruct (date_groups dates) as (Hnd & Hs & Ht & Hp).
  rewrite !map_map. cbn [fst snd]. rewrite map_id.
  split; [exact Hnd|]. split; [exact Hs|]. split.
  - apply Forall_map. exact Hp.
  - rewrite Ht. unfold dates, llen. now rewrite length_map.
Qed.

(** Two spins of [w1] on one day, seen in a window of 30 days. *)
Lemma get_wheel_analytics_daily_activity_witness :
  let d := spin_w1 sample_now "2025-01-15 10:31:00"
             (spin_w1 sample_now "2025-01-15 10:30:00" empty_db "u1") "u2" in
  exists r,
    fst (get_wheel_analytics sample_now d "w1" 30) = Success r /\
    r_daily_activity r = [("2025-01-15", 2%Z)] /\
    total (map snd (r_daily_activity r))
    = llen (filter (fun e => leb "2024-12-16T10:30:00" (ev_timestamp e)
                             && leb (ev_timestamp e) "2025-01-15T10:30:00")
                   (filter (is_spin_of "w1") (analytics_events d))).
Proof.
  cbv zeta. eexists. split; [vm_compute; reflexivity|]. split; [reflexivity|].
  refine (proj2 (proj2 (proj2
    (get_wheel_analytics_daily_activity sample_now
       (mk_datetime 739236 10 30 0 0) _ "w1" 30 _ _ _)))).
  - vm_compute. reflexivity.
  - vm_compute. reflexivity.
Defined.

(** *** [get_global_analytics] *)

Lemma engagement_groups_total (rows : list engagement_row) :
  total (map snd (engagement_groups rows)) = llen rows /\
  Forall (fun x => In (fst x) ["High"; "Medium"; "Low"] /\ (1 <= snd x)%Z)
         (engagement_groups rows).
Proof.
  unfold engagement_groups. cbn [flat_map].
  set (H := filter (fun r => String.eqb (engagement_level r) "High") rows).
  set (L := filter (fun r => String.eqb (engagement_level r) "Low") rows).
  set (M := filter (fun r => String.eqb (engagement_level r) "Medium") rows).
  assert (E : (llen H + llen L + llen M = llen rows)%Z).
  { subst H L M. unfold llen. induction rows as [|r rows IH]; [reflexivity|].
    assert (Hl : engagement_level r = "High" \/ engagement_level r = "Medium"
                 \/ engagement_level r = "Low").
    { unfold engagement_level.
      destruct (50 <=? ue_total_spins r)%Z; [|destruct (10 <=? ue_total_spins r)%Z];
        tauto. }
    cbn [filter]. destruct Hl as [->|[->| ->]];
      cbn [String.eqb Ascii.eqb Bool.eqb andb List.length]; lia. }
  assert (G : forall (level : string) (members : list engagement_row),
             total (map snd match members with
                            | [] => []
                            | e :: l => [(level, llen (e :: l))]
                            end) = llen members
             /\ (In level ["High"; "Medium"; "Low"] ->
                 Forall (fun x => In (fst x) ["High"; "Medium"; "Low"] /\ (1 <= snd x)%Z)
                        match members with
                        | [] => []
                        | e :: l => [(level, llen (e :: l))]
                        end)).
  { intros level [|m members]; [split; [reflexivity | constructor]|].
    split; [unfold total; cbn [map snd fold_right]; lia|].
    intros Hl. constructor; [|constructor]. split; [exact Hl|].
    unfold llen. cbn [snd List.length]. lia. }
  rewrite app_nil_r, !map_app, !total_app.
  rewrite (proj1 (G "High" H)), (proj1 (G "Low" L)), (proj1 (G "Medium" M)).
  split; [lia|].
  apply Forall_app. split; [apply G; simpl; tauto|].
  apply Forall_app. split; apply G; simpl; tauto.
Qed.

(** X23.  For a window whose start [datetime] can hold,
    [get_global_analytics] returns the report, whatever the database holds,
    and leaves the database as it is.  The report lists at most 10 wheels,
    in order of decreasing [total_spins]; its engagement distribution has
    only the levels High, Medium and Low, each with at least one user, and
    its counts add up to the number of [user_engagement] rows; its daily
    trends have increasing dates without repeats, and their spins add up to
    the [total_spins] of the global metrics. *)
Theorem get_global_analytics_report (now : datetime) (d : db) (days : Z) :
  (Z.abs days <= 999999999)%Z ->
  (1 <= ordinal now - days <= MAXORDINAL)%Z ->
  exists r,
    get_global_analytics now d days = (GlobalSuccess r, d) /\
    List.length (g_top_wheels r) <= 10 /\
    StronglySorted (fun a b => (b <= a)%Z)
      (map (fun x => snd (fst x)) (g_top_wheels r)) /\
    Forall (fun x => In (fst x) ["High"; "Medium"; "Low"] /\ (1 <= snd x)%Z)
           (g_engagement_distribution r) /\
    total (map snd (g_engagement_distribution r)) = llen (user_engagement d) /\
    NoDup (map (fun x => fst (fst (fst x))) (g_daily_trends r)) /\
    StronglySorted (fun a b => leb a b = true)
      (map (fun x => fst (fst (fst x))) (g_daily_trends r)) /\
    total (map (fun x => snd (fst (fst x))) (g_daily_trends r)) = g_total_spins r.
Proof.
  intros Hd Ho. unfold get_global_analytics.
  rewrite (minus_days_in_range now days Hd Ho).
  eexists. split; [reflexivity|].
  cbn [g_top_wheels g_engagement_distribution g_daily_trends g_total_spins].
  destruct (engagement_groups_total (user_engagement d)) as [Et Ef].
  set (spins := filter _ (analytics_events d)).
  destruct (date_groups (map (fun e => sql_date (ev_timestamp e)) spins))
    as (Hnd & Hs & Ht & _).
  split; [rewrite length_map; apply length_firstn_le|].
  split.
  { rewrite map_map. cbn [fst snd].
    apply StronglySorted_map, StronglySorted_firstn.
    apply StronglySorted_weaken
      with (P := fun a b => (wm_total_spins b <=? wm_total_spins a)%Z = true).
    - intros a b H. now apply Z.leb_le.
    - apply order_by_sorted.
      + intros a b. apply Zle_total.
      + intros a b c H1 H2. apply Z.leb_le in H1, H2. apply Z.leb_le. lia. }
  split; [exact Ef|]. split; [exact Et|].
  rewrite !map_map. cbn [fst snd]. rewrite map_id.
  split; [exact Hnd|]. split; [exact Hs|].
  transitivity (llen (map (fun e => sql_date (ev_timestamp e)) spins));
    [|unfold llen; now rewrite length_map].
  rewrite <- Ht. f_equal. apply map_ext. intros k. apply filter_map_length.
Qed.

(** The global report after one spin with a user and a session. *)
Lemma get_global_analytics_report_witness :
  let d := snd (record_event sample_now "2025-01-15 10:30:00" empty_db "wheel_spin"
                  alice_spin (Some "w1") (Some "u1") (Some "s1") None None) in
  exists r,
    get_global_analytics sample_now d 30 = (GlobalSuccess r, d) /\
    g_total_spins r = 1%Z /\
    g_engagement_distribution r = [("Low", 1%Z)] /\
    List.length (g_top_wheels r) = 1.
Proof.
  cbv zeta.
  destruct (get_global_analytics_report sample_now
              (snd (record_event sample_now "2025-01-15 10:30:00" empty_db "wheel_spin"
                      alice_spin (Some "w1") (Some "u1") (Some "s1") None None)) 30)
    as (r & E & _); [vm_compute; discriminate | vm_compute; split; discriminate |].
  exists r. split; [exact E|].
  assert (Er : fst (get_global_analytics sample_now
                      (snd (record_event sample_now "2025-01-15 10:30:00" empty_db
                              "wheel_spin" alice_spin (Some "w1") (Some "u1") (Some "s1")
                              None None)) 30)
               = GlobalSuccess r) by now rewrite E.
  vm_compute in Er. inversion Er. repeat split.
Defined.

End ReportFacts.

(** ** [export_analytics_data] *)

Section ExportFacts.

Import Text Py AnalyticsService Notions.

Lemma Exported_inj (data data' : dict) (f f' t t' h h' : string) :
  Exported data f t h = Exported data' f' t' h' ->
  data = data' /\ f = f' /\ t = t' /\ h = h'.
Proof. intros H. repeat split; congruence. Qed.

(** X24.  An export of [export_analytics_data] passes the service's own
    check: [verify_data_integrity] accepts the exported data with the
    exported hash.  The metadata carries the format that was asked for and
    the clock reading. *)
Theorem export_analytics_data_verifies
  (now : datetime) (d : db) (wheel_id : option string) (format_type : string) (days : Z)
  (data : dict) (format exported_at data_hash : string) :
  export_analytics_data now d wheel_id format_type days
  = Exported data format exported_at data_hash ->
  verify_data_integrity data data_hash = true /\
  format = format_type /\ exported_at = isoformat now.
Proof.
  unfold export_analytics_data.
  set (data0 := if truthy_opt wheel_id then _ else _).
  destruct (json_dumps (VDict data0)) as [data_json|] eqn:J; [|discriminate].
  intros H. apply Exported_inj in H. destruct H as (<- & <- & <- & <-).
  unfold verify_data_integrity. rewrite J.
  split; [apply String.eqb_refl | split; reflexivity].
Qed.

(** The global export of a new database. *)
Lemma export_analytics_data_verifies_witness :
  exists data data_hash,
    export_analytics_data sample_now empty_db None "json" 30
    = Exported data "json" "2025-01-15T10:30:00" data_hash /\
    verify_data_integrity data data_hash = true.
Proof.
  destruct (export_analytics_data sample_now empty_db None "json" 30)
    as [data f t h|] eqn:E; [|vm_compute in E; discriminate].
  destruct (export_analytics_data_verifies _ _ _ _ _ _ _ _ _ E) as (V & -> & ->).
  exists data, h. split; [reflexivity | exact V].
Defined.

(** X25.  Asked for a wheel that has no [wheel_metrics] row,
    [export_analytics_data] still reports success: the exported data is the
    error payload of [get_wheel_analytics], hashed like any other. *)
Theorem export_analytics_data_unknown_wheel
  (now : datetime) (d : db) (wheel_id format_type : string) (days : Z) :
  wheel_id <> "" ->
  find_metrics d wheel_id = None ->
  (Z.abs days <= 999999999)%Z ->
  (1 <= ordinal now - days <= MAXORDINAL)%Z ->
  export_analytics_data now d (Some wheel_id) format_type days
  = Exported [("error", VStr "Wheel not found")] format_type (isoformat now)
      (Sha256.hexdigest (encode (VDict [("error", VStr "Wheel not found")]))).
Proof.
  intros HW Hnone Hd Ho. unfold export_analytics_data.
  rewrite (truthy_opt_some _ HW). cbn [text_or_empty].
  unfold get_wheel_analytics.
  rewrite (minus_days_in_range now days Hd Ho), Hnone.
  cbn [fst wheel_data]. unfold json_dumps.
  cbn [serializable forallb snd andb]. reflexivity.
Qed.

(** A wheel nobody has spun, on a new database. *)
Lemma export_analytics_data_unknown_wheel_witness :
  export_analytics_data sample_now empty_db (Some "w9") "json" 30
  = Exported [("error", VStr "Wheel not found")] "json" (isoformat sample_now)
      (Sha256.hexdigest (encode (VDict [("error", VStr "Wheel not found")]))).
Proof.
  apply export_analytics_data_unknown_wheel;
    [discriminate | reflexivity | vm_compute; discriminate
     | vm_compute; split; discriminate].
Defined.

(** *** The export of a database the service built *)

Lemma serializable_list_map {A : Type} (f : A -> value) (l : list A) :
  (forall x, In x l -> serializable (f x) = true) ->
  serializable (VList (map f l)) = true.
Proof.
  intros H. change (forallb serializable (map f l) = true).
  apply forallb_forall. intros v Hv. apply in_map_iff in Hv.
  destruct Hv as (x & <- & Hx). now apply H.
Qed.

Lemma serializable_dict_get (d : dict) (key : string) (default : value) :
  serializable (VDict d) = true -> serializable default = true ->
  serializable (dict_get d key default) = true.
Proof.
  intros Hd Hdef. change (forallb (fun kv => serializable (snd kv)) d = true) in Hd.
  induction d as [|[k v] d IH]; [exact Hdef|].
  cbn [forallb snd] in Hd. apply andb_true_iff in Hd. destruct Hd as [Hv Hd].
  cbn [dict_get]. destruct (String.eqb k key); [exact Hv | now apply IH].
Qed.

Lemma serializable_value_of_sql (v : sqlval) : serializable (value_of_sql v) = true.
Proof. now destruct v. Qed.

(** The log of a database the service built holds payloads [json.dumps]
    accepted. *)
Lemma reachable_payloads (d : db) :
  reachable d ->
  forall e, In e (analytics_events d) -> serializable (VDict (ev_event_data e)) = true.
Proof.
  induction 1 as [|now cur d event_type event_data wheel_id user_id session_id
                    ip_address user_agent R IH]; [intros e []|].
  destruct (serializable (VDict event_data)) eqn:E.
  - rewrite (record_event_true _ _ _ _ _ _ _ _ _ _ E). cbn [snd].
    rewrite update_metrics_events. unfold with_event, insert_event.
    cbn [analytics_events]. intros e He. apply in_app_iff in He.
    destruct He as [He|[<-|[]]]; [now apply IH | exact E].
  - rewrite (record_event_false _ _ _ _ _ _ _ _ _ _ E). exact IH.
Qed.

Lemma wheel_data_serializable (now : datetime) (d : db) (wheel_id : string) (days : Z) :
  (forall e, In e (analytics_events d) -> serializable (VDict (ev_event_data e)) = true) ->
  serializable (VDict (wheel_data (fst (get_wheel_analytics now d wheel_id days)))) = true.
Proof.
  intros Hp. unfold get_wheel_analytics.
  destruct (minus_days now days) as [e|start]; [reflexivity|].
  destruct (find_metrics d wheel_id) as [row|]; [|reflexivity].
  cbn [fst]. unfold wheel_data.
  change (serializable (VDict ?l)) with (forallb (fun kv => serializable (snd kv)) l).
  cbn [forallb snd r_wheel_id r_total_spins r_unique_users r_total_entries r_created_at
       r_updated_at r_daily_activity r_winner_distribution r_recent_spins
       r_analysis_period r_generated_at].
  repeat (apply andb_true_iff; split); try reflexivity.
  - apply serializable_value_of_sql.
  - apply serializable_list_map. reflexivity.
  - apply serializable_list_map. reflexivity.
  - apply serializable_list_map. intros s Hs.
    apply in_map_iff in Hs. destruct Hs as (e & <- & He).
    apply In_firstn in He.
    apply (Permutation_in _ (order_by_perm _ _)) in He.
    apply filter_In in He. destruct He as [He _]. specialize (Hp e He).
    change (forallb (fun kv => serializable (snd kv))
              [("timestamp", VStr (ev_timestamp e));
               ("winner", dict_get (ev_event_data e) "winner" VNone);
               ("spin_duration", dict_get (ev_event_data e) "spin_duration" VNone);
               ("user_id", dict_get (ev_event_data e) "user_id" (VStr "Anonymous"))]
            = true).
    cbn [forallb snd]. rewrite !serializable_dict_get by (exact Hp || reflexivity).
    reflexivity.
Qed.

Lemma global_data_serializable (now : datetime) (d : db) (days : Z) :
  serializable (VDict (global_data (fst (get_global_analytics now d days)))) = true.
Proof.
  unfold get_global_analytics.
  destruct (minus_days now days) as [e|start]; [reflexivity|].
  cbn [fst]. unfold global_data.
  change (serializable (VDict ?l)) with (forallb (fun kv => serializable (snd kv)) l).
  cbn [forallb snd g_total_wheels g_total_spins g_unique_users g_unique_sessions
       g_daily_trends g_top_wheels g_engagement_distribution g_analysis_period
       g_generated_at].
  repeat (apply andb_true_iff; split); try reflexivity.
  - apply serializable_list_map. intros [[[date spins] wheels] users] _. reflexivity.
  - apply serializable_list_map. intros [[[w title] spins] users] _.
    change (forallb (fun kv => serializable (snd kv))
              [("wheel_id", VStr w); ("title", value_of_sql title);
               ("total_spins", VInt spins); ("unique_users", VInt users)] = true).
    cbn [forallb snd]. rewrite serializable_value_of_sql. reflexivity.
  - change (forallb (fun kv => serializable (snd kv))
              (map (fun x => (fst x, VInt (snd x)))
                   (engagement_groups (user_engagement d))) = true).
    apply forallb_forall. intros kv Hkv. apply in_map_iff in Hkv.
    destruct Hkv as (x & <- & _). reflexivity.
Qed.

(** X26.  On a database that calls of [record_event] built from a new one,
    [export_analytics_data] always returns an export: the report it gathers
    can be serialized, so its [except] branch is not taken.  The export
    carries the format asked for and the clock reading. *)
Theorem export_analytics_data_succeeds
  (now : datetime) (d : db) (wheel_id : option string) (format_type : string) (days : Z) :
  reachable d ->
  exists data data_hash,
    export_analytics_data now d wheel_id format_type days
    = Exported data format_type (isoformat now) data_hash.
Proof.
  intros R. unfold export_analytics_data.
  set (data := if truthy_opt wheel_id then _ else _).
  assert (S : serializable (VDict data) = true).
  { subst data. destruct (truthy_opt wheel_id).
    - apply wheel_data_serializable, reachable_payloads, R.
    - apply global_data_serializable. }
  unfold json_dumps. rewrite S. eexists. eexists. reflexivity.
Qed.

(** The export of a wheel after one spin of it. *)
Lemma export_analytics_data_succeeds_witness :
  let d := spin_w1 sample_now "2025-01-15 10:30:00" empty_db "u1" in
  reachable d /\
  exists data data_hash,
    export_analytics_data sample_now d (Some "w1") "json" 30
    = Exported data "json" (isoformat sample_now) data_hash.
Proof.
  cbv zeta.
  assert (R : reachable (spin_w1 sample_now "2025-01-15 10:30:00" empty_db "u1"))
    by (unfold spin_w1; apply reachable_record, reachable_empty).
  split; [exact R|].
  exact (export_analytics_data_succeeds sample_now _ (Some "w1") "json" 30 R).
Defined.

End ExportFacts.

(** ** The CSV writer read back by the CSV reader *)

Section ReaderFacts.

Import Text Csv Notions.

Lemma feed_chars_app (r : reader) (a b : string) :
  feed_chars r (a ++ b)
  = match feed_chars r a with
    | inl e => inl e
    | inr r' => feed_chars r' b
    end.
Proof.
  revert r. induction a as [|c a IH]; intros r; simpl; [reflexivity|].
  destruct (parse_process_char r (Some c)); [reflexivity | apply IH].
Qed.

Lemma feed_line_chars (r : reader) (l : string) :
  feed_line r l
  = match feed_chars r l with
    | inl e => inl e
    | inr r' => parse_process_char r' None
    end.
Proof.
  revert r. induction l as [|c l IH]; intros r; simpl; [reflexivity|].
  destruct (parse_process_char r (Some c)); [reflexivity | apply IH].
Qed.

Lemma fold_string_of_rev (cs : list ascii) (acc : string) :
  fold_left (fun s c => String c s) cs acc = (string_of_rev cs ++ acc)%string.
Proof.
  unfold string_of_rev. revert acc.
  induction cs as [|c cs IH]; intros acc; simpl; [reflexivity|].
  rewrite IH, (IH (String c "")), append_assoc. reflexivity.
Qed.

Lemma string_of_rev_cons (c : ascii) (cs : list ascii) :
  string_of_rev (c :: cs) = (string_of_rev cs ++ String c "")%string.
Proof. unfold string_of_rev at 1. simpl. apply fold_string_of_rev. Qed.

Lemma string_of_rev_app (a b : list ascii) :
  string_of_rev (a ++ b) = (string_of_rev b ++ string_of_rev a)%string.
Proof.
  induction a as [|c a IH]; simpl; [now rewrite append_nil_r|].
  now rewrite !string_of_rev_cons, IH, append_assoc.
Qed.

Lemma string_of_rev_chars (s : string) : string_of_rev (rev_chars s) = s.
Proof.
  unfold rev_chars. induction s as [|c s IH]; simpl; [reflexivity|].
  rewrite string_of_rev_app, IH. reflexivity.
Qed.

(** The rows the fused reader returns are those of the reader on the lines
    of the text. *)
Lemma stream_records (s : string) :
  forall (cur : list ascii) (r0 r : reader) (rows : list (list string)),
    feed_chars r0 (string_of_rev cur) = inr r ->
    stream r (match cur with [] => false | _ => true end) s = inr rows ->
    records r0 (lines_from cur s) = inr rows.
Proof.
  induction s as [|c s IH]; intros cur r0 r rows Hfeed.
  - destruct cur as [|d cur].
    + simpl in Hfeed. inversion Hfeed; subst. simpl. tauto.
    + cbn [lines_from stream records]. rewrite feed_line_chars, Hfeed.
      unfold line_end. destruct (parse_process_char r None) as [e|r']; [tauto|].
      destruct (state r'); tauto.
  - cbn [stream lines_from].
    destruct (parse_process_char r (Some c)) as [e|r1] eqn:Ec; [discriminate|].
    assert (Hfeed' : feed_chars r0 (string_of_rev (c :: cur)) = inr r1).
    { rewrite string_of_rev_cons, feed_chars_app, Hfeed. simpl. now rewrite Ec. }
    destruct (Ascii.eqb c LF).
    + cbn [records]. rewrite feed_line_chars, Hfeed'.
      unfold line_end. destruct (parse_process_char r1 None) as [e|r2]; [tauto|].
      destruct (state r2) eqn:Es;
        try (apply (IH [] r2 r2); reflexivity).
      destruct (stream parse_reset false s) as [e|rows'] eqn:E; [discriminate|].
      rewrite (IH [] parse_reset parse_reset rows' eq_refl E). tauto.
    + destruct cur; apply (IH _ r0 r1 rows Hfeed').
Qed.

Lemma read_stream (content : string) (rows : list (list string)) :
  stream parse_reset false content = inr rows -> read content = inr rows.
Proof.
  intros H. unfold read, lines. now apply (stream_records content [] parse_reset parse_reset).
Qed.

End ReaderFacts.

Section FieldFacts.

Import Text Csv Notions.

Lemma needs_quotes_cons (c : ascii) (t : string) :
  needs_quotes (String c t) = false ->
  Ascii.eqb c "," = false /\ Ascii.eqb c QUOTE = false /\ is_newline c = false
  /\ Ascii.eqb c LF = false /\ needs_quotes t = false.
Proof.
  unfold needs_quotes, is_newline. cbn [has_char].
  rewrite (Ascii.eqb_sym "," c), (Ascii.eqb_sym QUOTE c), (Ascii.eqb_sym CR c),
    (Ascii.eqb_sym LF c).
  rewrite !orb_false_iff.
  intros ((((H1 & H2) & H3 & H4) & H5 & H6) & H7 & H8).
  rewrite H1, H2, H3, H4, H5, H6, H7, H8. repeat split.
Qed.

Lemma stream_step (r r1 : reader) (p : bool) (c : ascii) (t : string) :
  parse_process_char r (Some c) = inr r1 -> Ascii.eqb c LF = false ->
  stream r p (String c t) = stream r1 true t.
Proof. intros H E. cbn [stream]. now rewrite H, E. Qed.

(** The first character of an unquoted field. *)
Lemma process_first (st : pstate) (fs : list string) (c : ascii) :
  st = START_RECORD \/ st = START_FIELD ->
  Ascii.eqb c "," = false -> Ascii.eqb c QUOTE = false -> is_newline c = false ->
  parse_process_char (mk_reader st fs [] 0) (Some c)
  = inr (mk_reader IN_FIELD fs [c] 1).
Proof.
  intros [-> | ->] E1 E2 E3; unfold parse_process_char, parse_add_char;
    cbn [state fields field field_len]; rewrite E1, E2, E3; reflexivity.
Qed.

Lemma process_in_field (fs : list string) (acc : list ascii) (n : N) (c : ascii) :
  Ascii.eqb c "," = false -> is_newline c = false -> (n < field_limit)%N ->
  parse_process_char (mk_reader IN_FIELD fs acc n) (Some c)
  = inr (mk_reader IN_FIELD fs (c :: acc) (n + 1)).
Proof.
  intros E1 E3 Hn. unfold parse_process_char, parse_add_char.
  cbn [state fields field field_len]. rewrite E1, E3.
  apply N.leb_gt in Hn. now rewrite Hn.
Qed.

Lemma process_in_quoted (fs : list string) (acc : list ascii) (n : N) (c : ascii) :
  Ascii.eqb c QUOTE = false -> (n < field_limit)%N ->
  parse_process_char (mk_reader IN_QUOTED_FIELD fs acc n) (Some c)
  = inr (mk_reader IN_QUOTED_FIELD fs (c :: acc) (n + 1)).
Proof.
  intros E2 Hn. unfold parse_process_char, parse_add_char.
  cbn [state fields field field_len]. rewrite E2.
  apply N.leb_gt in Hn. now rewrite Hn.
Qed.

Lemma rev_chars_cons (c : ascii) (t : string) (acc : list ascii) :
  rev_chars (String c t) ++ acc = rev_chars t ++ c :: acc.
Proof. unfold rev_chars. simpl. now rewrite <- app_assoc. Qed.

(** The characters of an unquoted field are added to the field. *)
Lemma stream_plain (f : string) :
  forall (fs : list string) (acc : list ascii) (n : N) (p : bool) (d : ascii) (k : string),
    needs_quotes f = false ->
    (n + N.of_nat (String.length f) <= field_limit)%N ->
    stream (mk_reader IN_FIELD fs acc n) p (f ++ String d k)
    = stream (mk_reader IN_FIELD fs (rev_chars f ++ acc)
                (n + N.of_nat (String.length f))) true (String d k).
Proof.
  induction f as [|c t IH]; intros fs acc n p d k Q Hn.
  - cbn [append String.length rev_chars list_ascii_of_string rev app].
    change (N.of_nat 0) with 0%N. rewrite N.add_0_r. reflexivity.
  - destruct (needs_quotes_cons c t Q) as (E1 & E2 & E3 & E4 & Qt).
    cbn [append String.length] in *.
    rewrite (stream_step _ _ p c _ (process_in_field fs acc n c E1 E3 ltac:(lia)) E4).
    rewrite IH by (assumption || lia).
    rewrite rev_chars_cons.
    replace (n + 1 + N.of_nat (String.length t))%N
      with (n + N.of_nat (S (String.length t)))%N by lia.
    reflexivity.
Qed.

(** The characters of a quoted field, up to the closing quote: each is added
    to the field, a doubled quote once. *)
Lemma stream_quoted (f : string) :
  forall (fs : list string) (acc : list ascii) (n : N) (p : bool) (k : string),
    (n + N.of_nat (String.length f) <= field_limit)%N ->
    stream (mk_reader IN_QUOTED_FIELD fs acc n) p (double_quotes f ++ String QUOTE k)
    = stream (mk_reader QUOTE_IN_QUOTED_FIELD fs (rev_chars f ++ acc)
                (n + N.of_nat (String.length f))) true k.
Proof.
  induction f as [|c t IH]; intros fs acc n p k Hn.
  - cbn [double_quotes append String.length rev_chars list_ascii_of_string rev app].
    change (N.of_nat 0) with 0%N. rewrite N.add_0_r. reflexivity.
  - cbn [double_quotes String.length] in *.
    replace (n + N.of_nat (S (String.length t)))%N
      with (n + 1 + N.of_nat (String.length t))%N by lia.
    rewrite rev_chars_cons.
    destruct (Ascii.eqb c QUOTE) eqn:E2.
    + apply Ascii.eqb_eq in E2. subst c. cbn [append].
      rewrite (stream_step _ (mk_reader QUOTE_IN_QUOTED_FIELD fs acc n) p QUOTE)
        by reflexivity.
      assert (S2 : parse_process_char (mk_reader QUOTE_IN_QUOTED_FIELD fs acc n)
                     (Some QUOTE)
                   = inr (mk_reader IN_QUOTED_FIELD fs (QUOTE :: acc) (n + 1))).
      { unfold parse_process_char, parse_add_char.
        cbn [state fields field field_len].
        change (Ascii.eqb QUOTE QUOTE) with true. cbv iota.
        assert (L : (field_limit <=? n)%N = false) by (apply N.leb_gt; lia).
        now rewrite L. }
      rewrite (stream_step _ _ true QUOTE _ S2 eq_refl).
      apply IH. lia.
    + cbn [append]. cbn [stream].
      rewrite (process_in_quoted fs acc n c E2) by lia.
      destruct (Ascii.eqb c LF).
      * unfold line_end. cbn. apply IH. lia.
      * apply IH. lia.
Qed.

(** A written field and the comma after it: the field is saved. *)
Lemma stream_field_comma (st : pstate) (fs : list string) (p : bool) (f k : string) :
  st = START_RECORD \/ st = START_FIELD ->
  (N.of_nat (String.length f) <= field_limit)%N ->
  stream (mk_reader st fs [] 0) p (write_field f ++ String "," k)
  = stream (mk_reader START_FIELD (f :: fs) [] 0) true k.
Proof.
  intros Hst Hn. unfold write_field. destruct (needs_quotes f) eqn:Q.
  - cbn [append]. rewrite append_assoc. cbn [append].
    assert (S1 : parse_process_char (mk_reader st fs [] 0) (Some QUOTE)
                 = inr (mk_reader IN_QUOTED_FIELD fs [] 0))
      by (destruct Hst as [-> | ->]; reflexivity).
    rewrite (stream_step _ _ p QUOTE _ S1 eq_refl).
    rewrite stream_quoted by (rewrite N.add_0_l; exact Hn).
    rewrite app_nil_r.
    rewrite (stream_step _ (mk_reader START_FIELD
                              (string_of_rev (rev_chars f) :: fs) [] 0)
               true ",") by reflexivity.
    now rewrite string_of_rev_chars.
  - destruct f as [|c t].
    + cbn [append]. destruct Hst as [-> | ->]; reflexivity.
    + destruct (needs_quotes_cons c t Q) as (E1 & E2 & E3 & E4 & Qt).
      cbn [append String.length] in *.
      rewrite (stream_step _ _ p c _ (process_first st fs c Hst E1 E2 E3) E4).
      rewrite stream_plain by (assumption || lia).
      rewrite (stream_step _ (mk_reader START_FIELD
                                (string_of_rev (rev_chars t ++ [c]) :: fs) [] 0)
                 true ",") by reflexivity.
      rewrite string_of_rev_app, string_of_rev_chars. reflexivity.
Qed.

(** The end of a record: a carriage return that saves the last field, then
    the line feed. *)
Lemma stream_crlf (r : reader) (fs : list string) (p : bool) (k : string) :
  parse_process_char r (Some CR) = inr (mk_reader EAT_CRNL fs [] 0) ->
  stream r p (String CR (String LF k))
  = match stream parse_reset false k with
    | inl e => inl e
    | inr rows => inr (rev fs :: rows)
    end.
Proof.
  intros H. rewrite (stream_step _ _ p CR _ H eq_refl).
  cbn [stream]. reflexivity.
Qed.

(** A written field and the line terminator after it, after an earlier
    field: the record is complete. *)
Lemma stream_field_crlf (fs : list string) (p : bool) (f k : string) :
  (N.of_nat (String.length f) <= field_limit)%N ->
  stream (mk_reader START_FIELD fs [] 0) p (write_field f ++ String CR (String LF k))
  = match stream parse_reset false k with
    | inl e => inl e
    | inr rows => inr (rev (f :: fs) :: rows)
    end.
Proof.
  intros Hn. unfold write_field. destruct (needs_quotes f) eqn:Q.
  - cbn [append]. rewrite append_assoc. cbn [append].
    rewrite (stream_step _ (mk_reader IN_QUOTED_FIELD fs [] 0) p QUOTE) by reflexivity.
    rewrite stream_quoted by (rewrite N.add_0_l; exact Hn).
    rewrite app_nil_r.
    rewrite (stream_crlf _ (string_of_rev (rev_chars f) :: fs)) by reflexivity.
    now rewrite string_of_rev_chars.
  - destruct f as [|c t].
    + cbn [append]. now rewrite (stream_crlf _ ("" :: fs)) by reflexivity.
    + destruct (needs_quotes_cons c t Q) as (E1 & E2 & E3 & E4 & Qt).
      cbn [append String.length] in *.
      rewrite (stream_step _ _ p c _
                 (process_first START_FIELD fs c (or_intror eq_refl) E1 E2 E3) E4).
      rewrite stream_plain by (assumption || lia).
      rewrite (stream_crlf _ (string_of_rev (rev_chars t ++ [c]) :: fs)) by reflexivity.
      rewrite string_of_rev_app, string_of_rev_chars. reflexivity.
Qed.

End FieldFacts.

Section RowFacts.

Import Text Csv Notions.

Lemma concat_cons (sep a : string) (b : string) (l : list string) :
  String.concat sep (a :: b :: l) = (a ++ sep ++ String.concat sep (b :: l))%string.
Proof. reflexivity. Qed.

Lemma concat_empty_cons (a : string) (l : list string) :
  String.concat "" (a :: l) = (a ++ String.concat "" l)%string.
Proof.
  destruct l as [|b l]; [simpl; now rewrite append_nil_r | reflexivity].
Qed.

(** The fields of a record after the first, up to the line terminator. *)
Lemma stream_fields (row : list string) :
  forall (fs : list string) (p : bool) (k : string),
    row <> [] ->
    Forall (fun f => (N.of_nat (String.length f) <= field_limit)%N) row ->
    stream (mk_reader START_FIELD fs [] 0) p
      (String.concat "," (map write_field row) ++ String CR (String LF k))
    = match stream parse_reset false k with
      | inl e => inl e
      | inr rows => inr ((rev fs ++ row) :: rows)
      end.
Proof.
  induction row as [|f row IH]; intros fs p k Hne Hall; [congruence|].
  inversion Hall as [|? ? Hf Hrow]; subst.
  destruct row as [|g row].
  - cbn [map String.concat]. rewrite stream_field_crlf by exact Hf. reflexivity.
  - cbn [map]. rewrite concat_cons, append_assoc. cbn [append].
    rewrite stream_field_comma by (auto || exact Hf).
    change (String.concat "," (write_field g :: map write_field row))
      with (String.concat "," (map write_field (g :: row))).
    rewrite IH by (congruence || exact Hrow).
    cbn [rev]. now rewrite <- app_assoc.
Qed.

(** A written row of two fields or more is read back as it was. *)
Lemma stream_row (row : list string) (p : bool) (k : string) :
  2 <= List.length row ->
  Forall (fun f => (N.of_nat (String.length f) <= field_limit)%N) row ->
  stream parse_reset p (writerow row ++ k)
  = match stream parse_reset false k with
    | inl e => inl e
    | inr rows => inr (row :: rows)
    end.
Proof.
  intros Hlen Hall. destruct row as [|f [|g row]]; cbn [List.length] in Hlen; try lia.
  inversion Hall as [|? ? Hf Hrow]; subst.
  unfold writerow, parse_reset. cbn [map].
  rewrite concat_cons, !append_assoc. cbn [append].
  rewrite stream_field_comma by (auto || exact Hf).
  change (String.concat "," (write_field g :: map write_field row))
    with (String.concat "," (map write_field (g :: row))).
  rewrite stream_fields by (congruence || exact Hrow). reflexivity.
Qed.

(** What the writer wrote, row after row, the reader reads back: rows of
    two fields or more, each field within the reader's field limit. *)
Lemma read_written (rows : list (list string)) :
  Forall (fun row =>
            2 <= List.length row /\
            Forall (fun f => (N.of_nat (String.length f) <= field_limit)%N) row) rows ->
  read (String.concat "" (map writerow rows)) = inr rows.
Proof.
  intros H. apply read_stream.
  induction H as [|row rows [Hlen Hall] _ IH]; [reflexivity|].
  cbn [map]. rewrite concat_empty_cons, stream_row by assumption.
  now rewrite IH.
Qed.

End RowFacts.

(** ** An export read back by the import *)

Section TimestampFacts.

Import Text Py Notions.

Lemma nb_digits_double (d : Decimal.uint) :
  Decimal.nb_digits (Decimal.Little.double d) <= S (Decimal.nb_digits d) /\
  Decimal.nb_digits (Decimal.Little.succ_double d) <= S (Decimal.nb_digits d).
Proof.
  induction d as [|d [IH1 IH2]|d [IH1 IH2]|d [IH1 IH2]|d [IH1 IH2]|d [IH1 IH2]
                  |d [IH1 IH2]|d [IH1 IH2]|d [IH1 IH2]|d [IH1 IH2]|d [IH1 IH2]];
    cbn [Decimal.Little.double Decimal.Little.succ_double Decimal.nb_digits];
    split; lia.
Qed.

Lemma nb_digits_to_little_uint (p : positive) :
  Decimal.nb_digits (Pos.to_little_uint p) <= Pos.to_nat p.
Proof.
  induction p as [p IH|p IH|]; cbn [Pos.to_little_uint].
  - pose proof (proj2 (nb_digits_double (Pos.to_little_uint p))). lia.
  - pose proof (proj1 (nb_digits_double (Pos.to_little_uint p))).
    pose proof (Pos2Nat.is_pos p). lia.
  - cbn. lia.
Qed.

Lemma nb_digits_revapp (d d' : Decimal.uint) :
  Decimal.nb_digits (Decimal.revapp d d') = Decimal.nb_digits d + Decimal.nb_digits d'.
Proof.
  revert d'. induction d; intros d'; cbn [Decimal.revapp Decimal.nb_digits];
    try reflexivity; rewrite IHd; cbn [Decimal.nb_digits]; lia.
Qed.

Lemma length_string_of_uint (d : Decimal.uint) :
  String.length (NilEmpty.string_of_uint d) = Decimal.nb_digits d.
Proof. induction d; simpl; congruence. Qed.

(** A text [str] writes for an integer is not longer than the integer is
    large. *)
Lemma length_str_of_Z (z : Z) :
  String.length (str_of_Z z) <= Z.to_nat (Z.abs z) + 2.
Proof.
  assert (U : forall p, String.length (NilZero.string_of_uint (Pos.to_uint p))
                        <= Pos.to_nat p + 1).
  { intros p. unfold Pos.to_uint, Decimal.rev.
    pose proof (nb_digits_revapp (Pos.to_little_uint p) Decimal.Nil) as R.
    pose proof (nb_digits_to_little_uint p) as L.
    cbn [Decimal.nb_digits] in R.
    pose proof (length_string_of_uint
                  (Decimal.revapp (Pos.to_little_uint p) Decimal.Nil)) as S.
    unfold NilZero.string_of_uint.
    destruct (Decimal.revapp (Pos.to_little_uint p) Decimal.Nil); simpl in *; lia. }
  unfold str_of_Z, NilZero.string_of_int, Z.to_int. destruct z as [|p|p].
  - simpl. lia.
  - specialize (U p). simpl Z.abs. rewrite Z2Nat.inj_pos. lia.
  - specialize (U p). simpl Z.abs. rewrite Z2Nat.inj_pos.
    cbn [String.length]. lia.
Qed.

Lemma length_string_of_list_ascii (l : list ascii) :
  String.length (string_of_list_ascii l) = List.length l.
Proof. induction l; simpl; congruence. Qed.

Lemma length_zero_pad (width : nat) (n : Z) :
  String.length (zero_pad width n) <= width + String.length (str_of_Z n).
Proof.
  unfold zero_pad. rewrite length_app, length_string_of_list_ascii, repeat_length. lia.
Qed.

Lemma nth_days_before (k : nat) : (0 <= nth k DAYS_BEFORE_MONTH 0 <= 334)%Z.
Proof.
  unfold DAYS_BEFORE_MONTH.
  do 13 (destruct k as [|k]; [simpl; lia|]). destruct k; simpl; lia.
Qed.

Lemma nth_days_in (k : nat) : (0 <= nth k DAYS_IN_MONTH 0 <= 31)%Z.
Proof.
  unfold DAYS_IN_MONTH.
  do 13 (destruct k as [|k]; [simpl; lia|]). destruct k; simpl; lia.
Qed.

(** The year, month and day of a date are small numbers. *)
Lemma ord2ymd_bounds (o y m d : Z) :
  (1 <= o <= MAXORDINAL)%Z -> ord2ymd o = (y, m, d) ->
  (Z.abs y <= 20000 /\ Z.abs m <= 20000 /\ Z.abs d <= 20000)%Z.
Proof.
  unfold MAXORDINAL, ord2ymd. intros Ho. cbv zeta.
  rewrite Z.shiftr_div_pow2 by lia. change (2 ^ 5)%Z with 32%Z.
  set (n := (((o - 1) mod 146097) mod 36524 mod 1461 mod 365)%Z).
  set (month := ((n + 50) / 32)%Z).
  pose proof (nth_days_before (Z.to_nat month)) as B1.
  pose proof (nth_days_in (Z.to_nat (month - 1))) as B2.
  set (before := nth (Z.to_nat month) DAYS_BEFORE_MONTH 0%Z) in *.
  set (within := nth (Z.to_nat (month - 1)) DAYS_IN_MONTH 0%Z) in *.
  assert (Hn : (0 <= n <= 364)%Z)
    by (subst n; Z.to_euclidean_division_equations; lia).
  assert (Hm : (1 <= month <= 12)%Z)
    by (subst month; Z.to_euclidean_division_equations; lia).
  assert (Hy : (0 <= (o - 1) / 146097 * 400 + 1 + (o - 1) mod 146097 / 36524 * 100
                     + (o - 1) mod 146097 mod 36524 / 1461 * 4
                     + (o - 1) mod 146097 mod 36524 mod 1461 / 365 <= 12000)%Z)
    by (Z.to_euclidean_division_equations; lia).
  clearbody n month before within.
  set (year := ((o - 1) / 146097 * 400 + 1 + (o - 1) mod 146097 / 36524 * 100
                + (o - 1) mod 146097 mod 36524 / 1461 * 4
                + (o - 1) mod 146097 mod 36524 mod 1461 / 365)%Z) in *.
  clearbody year.
  repeat match goal with
         | |- context [if ?b then _ else _] => destruct b
         end;
    intros H; inversion H; subst; lia.
Qed.

(** The timestamp [export_entries_csv] writes is far below the reader's
    field limit. *)
Lemma length_strftime_plain (now : datetime) :
  valid_datetime now ->
  (N.of_nat (String.length (strftime_plain now)) <= Csv.field_limit)%N.
Proof.
  intros (Ho & Hh & Hm & Hs). unfold strftime_plain.
  destruct (ord2ymd (ordinal now)) as [[y m] d] eqn:E.
  destruct (ord2ymd_bounds _ _ _ _ Ho E) as (By & Bm & Bd).
  rewrite !length_app. cbn [String.length].
  pose proof (length_zero_pad 4 y). pose proof (length_zero_pad 2 m).
  pose proof (length_zero_pad 2 d). pose proof (length_zero_pad 2 (hour now)).
  pose proof (length_zero_pad 2 (minute now)). pose proof (length_zero_pad 2 (second now)).
  pose proof (length_str_of_Z y). pose proof (length_str_of_Z m).
  pose proof (length_str_of_Z d). pose proof (length_str_of_Z (hour now)).
  pose proof (length_str_of_Z (minute now)). pose proof (length_str_of_Z (second now)).
  unfold Csv.field_limit. lia.
Qed.

End TimestampFacts.

Section RoundTrip.

Import Text Py CSVService Notions.

(** The rows [export_entries_csv] writes: the header, then one row for each
    entry. *)
Lemma export_entries_csv_rows (now : datetime) (entries : list string) (wheel_title : string) :
  valid_datetime now ->
  Forall (fun entry => (len entry <= 131072)%Z) entries ->
  Csv.read (export_entries_csv now entries wheel_title)
  = inr (["Entry"; "Weight"; "Category"; "Active"; "Created"]
         :: map (fun entry => [entry; "1"; "general"; "TRUE"; strftime_plain now])
                entries).
Proof.
  intros Hnow Hall. unfold export_entries_csv.
  rewrite <- (map_map (fun entry => [entry; "1"; "general"; "TRUE"; strftime_plain now])
                      Csv.writerow).
  rewrite <- concat_empty_cons.
  change (Csv.writerow ["Entry"; "Weight"; "Category"; "Active"; "Created"]
          :: map Csv.writerow
               (map (fun entry => [entry; "1"; "general"; "TRUE"; strftime_plain now])
                    entries))
    with (map Csv.writerow
            (["Entry"; "Weight"; "Category"; "Active"; "Created"]
             :: map (fun entry => [entry; "1"; "general"; "TRUE"; strftime_plain now])
                    entries)).
  apply read_written. constructor.
  - split; [simpl; lia|].
    repeat (apply Forall_cons; [vm_compute; discriminate|]). apply Forall_nil.
  - apply Forall_map. apply Forall_impl with (2 := Hall). intros entry He.
    split; [simpl; lia|].
    pose proof (length_strftime_plain now Hnow) as Ht.
    assert (C : forall f : string,
               f = "1" \/ f = "general" \/ f = "TRUE" ->
               (N.of_nat (String.length f) <= Csv.field_limit)%N).
    { intros f [->|[->| ->]]; vm_compute; discriminate. }
    apply Forall_cons; [unfold len, Csv.field_limit in *; lia|].
    apply Forall_cons; [apply C; tauto|].
    apply Forall_cons; [apply C; tauto|].
    apply Forall_cons; [apply C; tauto|].
    apply Forall_cons; [exact Ht | apply Forall_nil].
Qed.

(** The loop of [validate_csv_file] over the rows of an export: every entry
    that is stripped, non-empty and short enough is accepted. *)
Lemma scan_exported (timestamp : string) (entries : list string) (start : nat) :
  Forall (fun entry => entry <> "" /\ strip entry = entry /\ (len entry <= 100)%Z) entries ->
  scan ["entry"; "weight"; "category"; "active"; "created"] start
       (map (fun entry => [entry; "1"; "general"; "TRUE"; timestamp]) entries)
  = (entries, []).
Proof.
  intros H. revert start. induction H as [|entry entries (Hne & Hs & Hl) _ IH];
    intros start; [reflexivity|].
  cbn [map scan]. rewrite IH.
  assert (C : check_row ["entry"; "weight"; "category"; "active"; "created"] start
                [entry; "1"; "general"; "TRUE"; timestamp]
              = Accepted entry).
  { unfold check_row.
    assert (B : is_blank_row [entry; "1"; "general"; "TRUE"; timestamp] = false).
    { unfold is_blank_row. cbn [forallb]. rewrite Hs.
      destruct entry; [congruence | reflexivity]. }
    rewrite B.
    assert (N : entry_name_of ["entry"; "weight"; "category"; "active"; "created"]
                  [entry; "1"; "general"; "TRUE"; timestamp] = entry).
    { unfold entry_name_of. cbn. exact Hs. }
    rewrite N.
    destruct entry; [congruence|]. cbn [is_empty].
    apply Z.ltb_ge in Hl. now rewrite Hl. }
  now rewrite C.
Qed.

(** X27.  Export, then import.  For a non-empty list of entries, each
    non-empty, without leading or trailing white space and of at most 100
    characters, the text [export_entries_csv] writes (at a clock reading
    that is a date and time of day, and when it is within the size limit)
    is imported back by [import_csv] as the same entries in the same order:
    all rows are counted, none is skipped, and there is no warning.  The
    entries may hold commas, quotes and line breaks. *)
Theorem export_import_round_trip
  (self : service) (now : datetime) (entries : list string) (wheel_title : string) :
  valid_datetime now ->
  entries <> [] ->
  Forall (fun entry => entry <> "" /\ strip entry = entry /\ (len entry <= 100)%Z) entries ->
  (len (export_entries_csv now entries wheel_title) <= max_file_size self)%Z ->
  import_csv self (export_entries_csv now entries wheel_title)
  = mk_import_result true None (Some entries) (Some (llen entries)) (Some (llen entries))
      (Some []).
Proof.
  intros Hnow Hne Hall Hsize.
  assert (R : Csv.read (export_entries_csv now entries wheel_title)
              = inr (["Entry"; "Weight"; "Category"; "Active"; "Created"]
                     :: map (fun entry =>
                               [entry; "1"; "general"; "TRUE"; strftime_plain now])
                            entries)).
  { apply export_entries_csv_rows; [exact Hnow|].
    apply Forall_impl with (2 := Hall). intros entry (_ & _ & Hl). lia. }
  assert (V : validate_csv_file self (export_entries_csv now entries wheel_title)
              = mk_result true None (Some entries) (Some (llen entries))
                  (Some (llen entries)) (Some [])).
  { unfold validate_csv_file.
    apply Z.ltb_ge in Hsize. rewrite Hsize, R.
    change (map (fun h => lower (strip h))
              ["Entry"; "Weight"; "Category"; "Active"; "Created"])
      with ["entry"; "weight"; "category"; "active"; "created"].
    change (negb (existsb (fun header =>
                             mem header ["entry"; "weight"; "category"; "active";
                                         "created"])
                          required_headers)) with false.
    cbv iota. rewrite (scan_exported (strftime_plain now) entries 2 Hall).
    destruct entries as [|e entries]; [congruence|].
    f_equal. f_equal. unfold llen. cbn [List.length map].
    rewrite ?length_map. lia. }
  unfold import_csv. rewrite V. reflexivity.
Qed.

(** Three entries, one with a comma, one with a quote and a line break. *)
Lemma export_import_round_trip_witness :
  import_csv csv_service
    (export_entries_csv sample_now
       ["Ann, Bob"; String QUOTE ("Cy" ++ String QUOTE (String LF "Dee")); "Eve"]
       "Team")
  = mk_import_result true None
      (Some ["Ann, Bob"; String QUOTE ("Cy" ++ String QUOTE (String LF "Dee")); "Eve"])
      (Some 3%Z) (Some 3%Z) (Some []).
Proof.
  apply (export_import_round_trip csv_service sample_now
           ["Ann, Bob"; String QUOTE ("Cy" ++ String QUOTE (String LF "Dee")); "Eve"]
           "Team").
  - vm_compute. repeat split; discriminate.
  - discriminate.
  - repeat constructor; try discriminate; vm_compute; discriminate.
  - vm_compute. discriminate.
Defined.

End RoundTrip.
